(** * Gmail-Sorting: the classification job pipeline

    A shallow embedding of [classifier.py], [gmail_service.py], [workers.py],
    the credential functions of [auth.py], the session of [database.py],
    the origins list of [config.py] and the job, statistics and start-up
    code of [main.py], with the properties of the job pipeline proved
    over it.

    Conventions.
    - Python strings are Rocq strings; [str.lower] and [str.capitalize] act
      on the ASCII letters (every keyword and category name of the program
      is ASCII).
    - A Python function that can raise returns a [res]; a function that
      performs calls to the mail provider, the database or the task queue
      is a computation in the monad [M], which threads a [World] and may
      fail to return (the pagination loop of [get_messages] is the only
      unbounded loop of the program).
    - The mail provider, the credential service, the result backend of
      the task queue, the clock and the model file are collaborators
      outside the repository: they are the fields of a [Provider] record
      over an arbitrary provider state, and so is the text that [str]
      gives the exceptions of the libraries. *)

From Stdlib Require Import ZArith Ascii String List Lia Bool.
From stdpp Require Import base option list gmap strings fin_maps pretty.

Local Open Scope string_scope.
Local Open Scope list_scope.
Local Open Scope Z_scope.
Set Warnings "-register-all".

(* ===================================================================== *)
(** ** Exceptions and results                                             *)
(* ===================================================================== *)

(** The exception classes the program raises, catches or lets through. *)
Inductive exn : Type :=
| HttpError (status : Z)                 (* googleapiclient.errors.HttpError *)
| RetryError (last : exn)                (* tenacity.RetryError *)
| FileNotFoundError
| ValueError (msg : string)
| KeyError (key : string)
| ZeroDivisionError
| HTTPException (status_code : Z) (detail : string)   (* fastapi *)
| OtherException (msg : string).         (* any other Exception subclass *)

(** [isinstance(e, HttpError)] *)
Definition is_HttpError (e : exn) : bool :=
  match e with HttpError _ => true | _ => false end.

Inductive res (A : Type) : Type :=
| Ok (a : A)
| Raise (e : exn).
Arguments Ok {A} a.
Arguments Raise {A} e.

(* ===================================================================== *)
(** ** Strings: [lower], [capitalize], [in]                               *)
(* ===================================================================== *)

Module Str.

Definition is_upper (c : ascii) : bool :=
  let n := nat_of_ascii c in (Nat.leb 65 n && Nat.leb n 90)%bool.
Definition is_lower (c : ascii) : bool :=
  let n := nat_of_ascii c in (Nat.leb 97 n && Nat.leb n 122)%bool.

Definition lower_char (c : ascii) : ascii :=
  if is_upper c then ascii_of_nat (nat_of_ascii c + 32) else c.
Definition upper_char (c : ascii) : ascii :=
  if is_lower c then ascii_of_nat (nat_of_ascii c - 32) else c.

(** [s.lower()] *)
Fixpoint lower (s : string) : string :=
  match s with
  | EmptyString => EmptyString
  | String c t => String (lower_char c) (lower t)
  end.

(** [s.capitalize()] *)
Definition capitalize (s : string) : string :=
  match s with
  | EmptyString => EmptyString
  | String c t => String (upper_char c) (lower t)
  end.

(** [s.startswith(p)] *)
Fixpoint startswith (p s : string) : bool :=
  match p, s with
  | EmptyString, _ => true
  | String _ _, EmptyString => false
  | String a p', String b s' => if Ascii.eqb a b then startswith p' s' else false
  end.

(** [kw in text] *)
Fixpoint contains (kw text : string) : bool :=
  (startswith kw text ||
   match text with
   | EmptyString => false
   | String _ t => contains kw t
   end)%bool.

(** Truth value of a string: [""] is falsy. *)
Definition truthy (s : string) : bool :=
  match s with EmptyString => false | _ => true end.

End Str.

(* ===================================================================== *)
(** ** models.py                                                          *)
(* ===================================================================== *)

Inductive JobStatus := PENDING | RUNNING | COMPLETED | FAILED | CANCELLED.
Inductive ModelMode := FAST | BALANCED | ACCURATE.
Inductive EmailScope := UNREAD | INBOX | RECENT | ALL.

#[global] Instance JobStatus_eq_dec : EqDecision JobStatus.
Proof. solve_decision. Defined.
#[global] Instance ModelMode_eq_dec : EqDecision ModelMode.
Proof. solve_decision. Defined.
#[global] Instance EmailScope_eq_dec : EqDecision EmailScope.
Proof. solve_decision. Defined.

(** [repr(s)] of a string without quotes, backslashes or control
    characters: the string between single quotes. *)
Definition repr (s : string) : string := "'" +:+ s +:+ "'".

(** [ModelMode(mode)]: the enum constructor raises [ValueError] on a string
    that is no member value; the message quotes the value by its [repr]. *)
Definition ModelMode_of (s : string) : res ModelMode :=
  if String.eqb s "fast" then Ok FAST
  else if String.eqb s "balanced" then Ok BALANCED
  else if String.eqb s "accurate" then Ok ACCURATE
  else Raise (ValueError (repr s +:+ " is not a valid ModelMode")).

(** [EmailScope(scope)] *)
Definition EmailScope_of (s : string) : res EmailScope :=
  if String.eqb s "unread" then Ok UNREAD
  else if String.eqb s "inbox" then Ok INBOX
  else if String.eqb s "recent" then Ok RECENT
  else if String.eqb s "all" then Ok ALL
  else Raise (ValueError (repr s +:+ " is not a valid EmailScope")).

(** The terminal states of the job state machine. *)
Definition terminal (s : JobStatus) : bool :=
  match s with COMPLETED | FAILED | CANCELLED => true | _ => false end.

(** One entry of [Job.errors]: [{"message_id": .., "error": ..}], or
    [{"error": ..}] for the entry of a failed run. *)
Record ErrorEntry := {
  err_message_id : option string;
  err_error : string
}.

(** A row of [users]; the primary key is the key of the table. *)
Record User := {
  encrypted_access_token : option string;
  encrypted_refresh_token : option string;
  token_expiry : option Z
}.

(** A row of [jobs]; the primary key is the key of the table. *)
Record Job := {
  job_user_id : string;
  status : JobStatus;
  job_mode : string;
  job_scope : string;
  total_emails : nat;
  processed_emails : nat;
  error_count : nat;
  category_counts : gmap string nat;
  errors : list ErrorEntry;
  completed_at : option Z;
  celery_task_id : option string
}.

(** Attribute assignments [job.f = v]. *)
Definition set_status (v : JobStatus) (j : Job) : Job :=
  {| job_user_id := job_user_id j; status := v;
     job_mode := job_mode j; job_scope := job_scope j;
     total_emails := total_emails j; processed_emails := processed_emails j;
     error_count := error_count j; category_counts := category_counts j;
     errors := errors j; completed_at := completed_at j;
     celery_task_id := celery_task_id j |}.
Definition set_total_emails (v : nat) (j : Job) : Job :=
  {| job_user_id := job_user_id j; status := status j;
     job_mode := job_mode j; job_scope := job_scope j;
     total_emails := v; processed_emails := processed_emails j;
     error_count := error_count j; category_counts := category_counts j;
     errors := errors j; completed_at := completed_at j;
     celery_task_id := celery_task_id j |}.
Definition set_processed_emails (v : nat) (j : Job) : Job :=
  {| job_user_id := job_user_id j; status := status j;
     job_mode := job_mode j; job_scope := job_scope j;
     total_emails := total_emails j; processed_emails := v;
     error_count := error_count j; category_counts := category_counts j;
     errors := errors j; completed_at := completed_at j;
     celery_task_id := celery_task_id j |}.
Definition set_error_count (v : nat) (j : Job) : Job :=
  {| job_user_id := job_user_id j; status := status j;
     job_mode := job_mode j; job_scope := job_scope j;
     total_emails := total_emails j; processed_emails := processed_emails j;
     error_count := v; category_counts := category_counts j;
     errors := errors j; completed_at := completed_at j;
     celery_task_id := celery_task_id j |}.
Definition set_category_counts (v : gmap string nat) (j : Job) : Job :=
  {| job_user_id := job_user_id j; status := status j;
     job_mode := job_mode j; job_scope := job_scope j;
     total_emails := total_emails j; processed_emails := processed_emails j;
     error_count := error_count j; category_counts := v;
     errors := errors j; completed_at := completed_at j;
     celery_task_id := celery_task_id j |}.
Definition set_errors (v : list ErrorEntry) (j : Job) : Job :=
  {| job_user_id := job_user_id j; status := status j;
     job_mode := job_mode j; job_scope := job_scope j;
     total_emails := total_emails j; processed_emails := processed_emails j;
     error_count := error_count j; category_counts := category_counts j;
     errors := v; completed_at := completed_at j;
     celery_task_id := celery_task_id j |}.
Definition set_completed_at (v : option Z) (j : Job) : Job :=
  {| job_user_id := job_user_id j; status := status j;
     job_mode := job_mode j; job_scope := job_scope j;
     total_emails := total_emails j; processed_emails := processed_emails j;
     error_count := error_count j; category_counts := category_counts j;
     errors := errors j; completed_at := v;
     celery_task_id := celery_task_id j |}.
Definition set_celery_task_id (v : option string) (j : Job) : Job :=
  {| job_user_id := job_user_id j; status := status j;
     job_mode := job_mode j; job_scope := job_scope j;
     total_emails := total_emails j; processed_emails := processed_emails j;
     error_count := error_count j; category_counts := category_counts j;
     errors := errors j; completed_at := completed_at j;
     celery_task_id := v |}.

(** [sum(d.values())] *)
Definition sum_values (d : gmap string nat) : nat :=
  map_fold (fun _ v acc => (v + acc)%nat) 0%nat d.

(* ===================================================================== *)
(** ** classifier.py                                                      *)
(* ===================================================================== *)

Module EmailClassifier.

(** [CATEGORIES], in the insertion order of the dict literal; only the
    keywords take part in classification. *)
Definition CATEGORIES : list (string * list string) :=
  [ ("work", ["meeting"; "project"; "deadline"; "report"; "team"; "office"]);
    ("personal", ["family"; "friend"; "dinner"; "party"; "birthday"]);
    ("promotion", ["sale"; "discount"; "offer"; "deal"; "promo"; "coupon"]);
    ("spam", ["lottery"; "winner"; "urgent"; "verify"; "click here"; "congratulations"]);
    ("finance", ["invoice"; "payment"; "transaction"; "bank"; "credit"; "debit"]);
    ("security", ["password"; "security"; "alert"; "verify"; "authentication"; "login"]) ].

(** [CATEGORIES.keys()] *)
Definition category_names : list string := map fst CATEGORIES.

(** [CATEGORIES[cat]["keywords"]] for a key of the literal. *)
Definition keywords (cat : string) : list string :=
  match find (fun p => String.eqb (fst p) cat) CATEGORIES with
  | Some p => snd p
  | None => []
  end.

(** [sum(1 for keyword in kws if keyword in text)] *)
Definition score (kws : list string) (text : string) : nat :=
  length (filter (fun kw => Str.contains kw text = true) kws).

(** [any(keyword in text for keyword in kws)] *)
Definition any_keyword (kws : list string) (text : string) : bool :=
  existsb (fun kw => Str.contains kw text) kws.

(** A trained model, as far as the program consumes it: [predict]
    returns a label or raises. *)
Record Model := { predict : string -> res string }.

Record t := {
  mode : ModelMode;
  model : option Model
}.

(** [_load_or_train_model], [joblib_load] being what
    [joblib.load("email_classifier.pkl")] does. *)
Definition _load_or_train_model (joblib_load : res Model) : res (option Model) :=
  match joblib_load with
  | Ok m => Ok (Some m)
  | Raise FileNotFoundError => Ok None
  | Raise e => Raise e
  end.

(** [__init__] *)
Definition init (joblib_load : res Model) (mode : ModelMode) : res t :=
  match mode with
  | BALANCED | ACCURATE =>
      match _load_or_train_model joblib_load with
      | Ok m => Ok {| mode := mode; model := m |}
      | Raise e => Raise e
      end
  | FAST => Ok {| mode := mode; model := None |}
  end.

Definition _rule_based_classify (text : string) : option string :=
  let spam_score := score (keywords "spam") text in
  if Nat.leb 2 spam_score then Some "spam" else
  let security_score := score (keywords "security") text in
  if Nat.leb 2 security_score then Some "security" else
  if any_keyword (keywords "finance") text then Some "finance" else
  let promo_score := score (keywords "promotion") text in
  if Nat.leb 2 promo_score then Some "promotion" else
  let work_score := score (keywords "work") text in
  if Nat.leb 2 work_score then Some "work" else
  None.

(** [_ml_classify]: the inner [try] turns every exception of [predict]
    into [None]. *)
Definition _ml_classify (self : t) (text : string) : res (option string) :=
  match model self with
  | None => Ok None
  | Some m =>
      match predict m text with
      | Ok prediction => Ok (Some prediction)
      | Raise _ => Ok None
      end
  end.

(** The text both stages look at. *)
Definition text_of (subject body sender : string) : string :=
  Str.lower (subject +:+ " " +:+ body +:+ " " +:+ sender).

Definition classify (self : t) (subject body sender : string) : res string :=
  let text := text_of subject body sender in
  match _rule_based_classify text with
  | Some category => Ok category          (* a rule category is non-empty *)
  | None =>
      let fallback :=
        if (bool_decide (mode self <> FAST) && bool_decide (is_Some (model self)))%bool then
          (* try: ... except Exception: log *)
          match _ml_classify self text with
          | Ok (Some category) =>
              if Str.truthy category then Some category else None
          | Ok None => None
          | Raise _ => None
          end
        else None in
      match fallback with
      | Some category => Ok category
      | None => Ok "personal"
      end
  end.

End EmailClassifier.

(* ===================================================================== *)
(** ** config.py                                                          *)
(* ===================================================================== *)

Record Settings := {
  GMAIL_MAX_RESULTS : Z;
  GMAIL_RATE_LIMIT_PER_SECOND : Z
}.

(** The defaults of the [Settings] class. *)
Definition default_settings : Settings :=
  {| GMAIL_MAX_RESULTS := 500; GMAIL_RATE_LIMIT_PER_SECOND := 10 |}.

(* ===================================================================== *)
(** ** The collaborators and the world                                    *)
(* ===================================================================== *)

(** [body.data] of a payload: the base64url text as the provider sends
    it, and what [base64.urlsafe_b64decode(data).decode("utf-8",
    errors="ignore")] makes of it.  The decoding is the library's; the data
    of the provider is taken to be well-formed base64url, which the
    library decodes without raising.  Well-formed data that is not empty
    can decode to the empty text (bytes that are no UTF-8 are dropped). *)
Record Body := {
  data : string;
  decoded : string
}.

(** A payload of the provider's message resource: headers, MIME type,
    [body.data] when the body has one, and the nested parts. *)
Inductive Payload : Type :=
| MkPayload (headers : list (string * string)) (mimeType : string)
            (body_data : option Body) (parts : option (list Payload)).

Record Message := {
  payload : Payload;
  snippet : option string;
  labelIds : option (list string)
}.

Record ListResponse := {
  messages : option (list string);      (* the "id" of each entry *)
  nextPageToken : option string
}.

Record Label := {
  label_id : string;
  label_name : string
}.

Record Credentials := {
  token : string;
  refresh_token : option string;
  expiry : option Z
}.

(** What [get_message_detail] returns when it returns a dict. *)
Record MessageDetail := {
  d_id : string;
  d_subject : string;
  d_from : string;
  d_body : string;
  d_snippet : string;
  d_labels : list string
}.

(** What the processing loop of the worker did with one message, and,
    as a second entry for the message, that the checkpoint after it
    raised; the loop keeps this history for the statements only (the
    program has no such variable). *)
Inductive Outcome : Type :=
| FetchAbsent                     (* get_message_detail returned None *)
| Labeled (category : string)     (* label applied, category counted *)
| ApplyFailed                     (* apply_label returned False *)
| Skipped (category : string)     (* no label id cached for the category *)
| Raised (e : exn)                (* an exception reached the handler of the loop
                                     before the message was labelled or counted *)
| Interrupted (e : exn).          (* the commit or the progress update of lines
                                     118-127 raised: the handler ran for a message
                                     that already had one of the outcomes above *)

(** The calls that leave the process, in the order they are made. *)
Inductive Call : Type :=
| CResolveCredentials (user : string)              (* refresh_google_token entered *)
| CCredentialsRefresh                              (* credentials.refresh(Request()) *)
| CBuildService                                    (* build("gmail", "v1", ...) *)
| CLoadModel                                       (* joblib.load *)
| CMessagesList (q : string) (pageToken : option string) (maxResults : Z)
| CMessagesGet (id : string)
| CLabelsList
| CLabelsCreate (name : string)
| CMessagesModify (id : string) (addLabelIds removeLabelIds : list string)
| CSleepPage                                       (* time.sleep(0.1) *)
| CSleepRate                                       (* time.sleep(1.0 / rate) *)
| CBackoff (attempt : nat)                         (* tenacity's wait after a failed attempt *)
| CCommit (job_status : option JobStatus)          (* db.commit(), with the status it writes *)
| CRollback
| CUpdateState (processed total : nat) (counts : gmap string nat)
| CDelay (job_id user_id mode scope : string)      (* classify_emails_task.delay(..) *)
| CRevoke (task_id : string).                      (* control.revoke(.., terminate=True) *)

Section Pipeline.

(** The state of everything outside the process. *)
Context {Σ : Type}.

Record Provider := {
  messages_list : string -> option string -> Z -> Σ -> res ListResponse * Σ;
  messages_get : string -> Σ -> res Message * Σ;
  labels_list : Σ -> res (list Label) * Σ;
  labels_create : string -> Σ -> res Label * Σ;
  messages_modify : string -> list string -> list string -> Σ -> res unit * Σ;
  build_service : Credentials -> Σ -> res unit * Σ;
  decrypt_token : string -> res string;
  encrypt_token : string -> res string;
  (* utcnow() >= expiry - REFRESH_THRESHOLD, for credentials with an expiry *)
  credentials_expired : Credentials -> Σ -> bool;
  credentials_refresh : Credentials -> Σ -> res Credentials * Σ;
  joblib_load : Σ -> res EmailClassifier.Model * Σ;
  (* self.update_state(state="PROGRESS", meta={processed, total, category_counts}):
     a write to the result backend of the task queue *)
  update_state : nat -> nat -> gmap string nat -> Σ -> res unit * Σ;
  (* str(e) of an exception of a library, whose text is made outside the
     repository: the request and response of an HttpError, the repr of the
     future inside a RetryError *)
  str_library : exn -> string;
  seven_days_ago : Σ -> string;        (* (now - 7 days).strftime("%Y/%m/%d") *)
  utcnow : Σ -> Z
}.

(** The provider state, the two tables, the ORM session of the running
    function (the job and user objects it loaded, with their uncommitted
    attribute assignments) and the call log. *)
Record World := {
  prov : Σ;
  db_jobs : gmap string Job;
  db_users : gmap string User;
  sess_job : option (string * Job);
  sess_user : option (string * User);
  calls : list Call;
  trail : list (string * Outcome)     (* history of the processing loop *)
}.

Definition with_prov (s : Σ) (w : World) : World :=
  {| prov := s; db_jobs := db_jobs w; db_users := db_users w;
     sess_job := sess_job w; sess_user := sess_user w; calls := calls w;
     trail := trail w |}.
Definition with_calls (l : list Call) (w : World) : World :=
  {| prov := prov w; db_jobs := db_jobs w; db_users := db_users w;
     sess_job := sess_job w; sess_user := sess_user w; calls := l;
     trail := trail w |}.
Definition with_session (j : option (string * Job)) (u : option (string * User))
    (w : World) : World :=
  {| prov := prov w; db_jobs := db_jobs w; db_users := db_users w;
     sess_job := j; sess_user := u; calls := calls w; trail := trail w |}.
Definition with_db (js : gmap string Job) (us : gmap string User) (w : World) : World :=
  {| prov := prov w; db_jobs := js; db_users := us;
     sess_job := sess_job w; sess_user := sess_user w; calls := calls w;
     trail := trail w |}.
Definition with_trail (t : list (string * Outcome)) (w : World) : World :=
  {| prov := prov w; db_jobs := db_jobs w; db_users := db_users w;
     sess_job := sess_job w; sess_user := sess_user w; calls := calls w;
     trail := t |}.

(** *** The monad: world passing, exceptions, and no result at all when
    the computation does not return. *)
Definition M (A : Type) : Type := World -> option (res A * World).

Definition ret {A} (a : A) : M A := fun w => Some (Ok a, w).
Definition raise {A} (e : exn) : M A := fun w => Some (Raise e, w).
Definition diverge {A} : M A := fun _ => None.
Definition bind {A B} (m : M A) (f : A -> M B) : M B :=
  fun w => match m w with
           | Some (Ok a, w') => f a w'
           | Some (Raise e, w') => Some (Raise e, w')
           | None => None
           end.
(** [try: m except <class> as e: h e], [catches] deciding the class. *)
Definition try_except {A} (m : M A) (catches : exn -> bool) (h : exn -> M A) : M A :=
  fun w => match m w with
           | Some (Raise e, w') => if catches e then h e w' else Some (Raise e, w')
           | r => r
           end.
Definition lift_res {A} (r : res A) : M A :=
  match r with Ok a => ret a | Raise e => raise e end.

Definition log (c : Call) : M unit :=
  fun w => Some (Ok tt, with_calls (calls w ++ [c]) w).

(** A call of a collaborator, put on the log first. *)
Definition call {A} (c : Call) (f : Σ -> res A * Σ) : M A :=
  fun w => let '(r, s) := f (prov w) in
           Some (r, with_prov s (with_calls (calls w ++ [c]) w)).

(** The same call with its exception handed back as a value. *)
Definition observe {A} (c : Call) (f : Σ -> res A * Σ) : M (res A) :=
  fun w => let '(r, s) := f (prov w) in
           Some (Ok r, with_prov s (with_calls (calls w ++ [c]) w)).

Definition ask {A} (f : Σ -> A) : M A := fun w => Some (Ok (f (prov w)), w).

Definition note (message_id : string) (o : Outcome) : M unit :=
  fun w => Some (Ok tt, with_trail (trail w ++ [(message_id, o)]) w).

End Pipeline.

Arguments Provider : clear implicits.
Arguments World : clear implicits.
Arguments M : clear implicits.

Declare Scope monad_scope.
Delimit Scope monad_scope with monad.
Notation "x <- m ;; k" := (bind m (fun x => k))
  (at level 100, m at next level, right associativity) : monad_scope.
Notation "m ;; k" := (bind m (fun _ => k))
  (at level 100, right associativity) : monad_scope.
Local Open Scope monad_scope.

(** Every exception class is an [Exception]. *)
Definition any_Exception (e : exn) : bool := true.

(** [str(e)]: the message of an exception raised with one; the [repr] of
    the key of a [KeyError]; ["<status_code>: <detail>"] for fastapi's
    [HTTPException]; the library's own text otherwise. *)
Definition str_exn {Σ : Type} (P : Provider Σ) (e : exn) : string :=
  match e with
  | ValueError m => m
  | OtherException m => m
  | KeyError k => repr k
  | ZeroDivisionError => "float division by zero"
  | HTTPException status_code detail => pretty status_code +:+ ": " +:+ detail
  | HttpError _ | RetryError _ | FileNotFoundError => str_library P e
  end.

(* ===================================================================== *)
(** ** tenacity's [@retry]                                                *)
(* ===================================================================== *)

Section Retry.
Context {Σ : Type}.

(** After a failed attempt number [attempt]: an exception outside
    [retry_on] is raised as it is; when no attempt is left the decorator
    raises [RetryError]; otherwise it waits and calls the function again. *)
Fixpoint retrying {A} (attempts_left : nat) (attempt : nat)
    (retry_on : exn -> bool) (fn : M Σ A) : M Σ A :=
  fun w =>
    match fn w with
    | Some (Raise e, w1) =>
        if retry_on e then
          match attempts_left with
          | O => Some (Raise (RetryError e), w1)
          | S more =>
              (log (CBackoff attempt) ;;
               retrying more (S attempt) retry_on fn) w1
          end
        else Some (Raise e, w1)
    | r => r
    end.

(** [@retry(stop=stop_after_attempt(n), wait=wait_exponential(..), retry=..)] *)
Definition retry {A} (stop_after_attempt : nat) (retry_on : exn -> bool)
    (fn : M Σ A) : M Σ A :=
  retrying (stop_after_attempt - 1) 1 retry_on fn.

End Retry.

(* ===================================================================== *)
(** ** gmail_service.py                                                   *)
(* ===================================================================== *)

(** [l[:n]] *)
Definition slice_to {A} (n : Z) (l : list A) : list A :=
  if n <? 0 then take (length l - Z.to_nat (- n)) l else take (Z.to_nat n) l.

(** [headers.get(name, "")] on the dict built from the header list: a
    later header of the same name replaces an earlier one. *)
Definition header_get (name : string) (headers : list (string * string)) : string :=
  match find (fun h => String.eqb (fst h) name) (rev headers) with
  | Some h => snd h
  | None => ""
  end.

Definition payload_headers (p : Payload) : list (string * string) :=
  match p with MkPayload headers _ _ _ => headers end.

(** [body.get("data")] as a condition: data that is there and not empty. *)
Definition has_data (body_data : option Body) : bool :=
  match body_data with Some b => Str.truthy (data b) | None => false end.

(** The decoding of [body["data"]], where the code has tested [has_data]. *)
Definition decode_data (body_data : option Body) : string :=
  match body_data with Some b => decoded b | None => "" end.

(** [_extract_body]: the decoding of the payload's own data if it has
    any, else of the first text/plain part that has data, descending into
    the other parts that have parts.  The tests on [data] are on the text
    as sent; the test [if body:] on the result of the recursive call is on
    the decoded text. *)
Fixpoint _extract_body (payload : Payload) : string :=
  match payload with
  | MkPayload _ _ body_data parts =>
      if has_data body_data then decode_data body_data
      else
        match parts with
        | Some ps =>
            (fix in_parts (ps : list Payload) : string :=
               match ps with
               | [] => ""
               | part :: rest =>
                   match part with
                   | MkPayload _ mimeType part_data part_parts =>
                       if String.eqb mimeType "text/plain" then
                         if has_data part_data then decode_data part_data
                         else in_parts rest
                       else
                         match part_parts with
                         | Some _ =>
                             let body := _extract_body part in
                             if Str.truthy body then body else in_parts rest
                         | None => in_parts rest
                         end
                   end
               end) ps
        | None => ""
        end
  end.

Module GmailService.
Section Service.
Context {Σ : Type} (P : Provider Σ) (settings : Settings).

(** [__init__] *)
Definition init (credentials : Credentials) : M Σ unit :=
call CBuildService (build_service P credentials).

Definition _build_query (scope : EmailScope) : M Σ string :=
match scope with
| UNREAD => ret "is:unread"
| INBOX => ret "in:inbox"
| RECENT => days_ago <- ask (seven_days_ago P) ;; ret ("after:" +:+ days_ago)
| ALL => ret ""
end.

(** The [while] loop of [get_messages]; [fuel] bounds the number of
  pages requested, and the loop does not return when it runs out. *)
Fixpoint pages (fuel : nat) (query : string) (max_results : Z)
  (message_ids : list string) (page_token : option string) : M Σ (list string) :=
match fuel with
| O => diverge
| S fuel' =>
    if Z.of_nat (length message_ids) <? max_results then
      results <- call
        (CMessagesList query page_token
           (Z.min 500 (max_results - Z.of_nat (length message_ids))))
        (messages_list P query page_token
           (Z.min 500 (max_results - Z.of_nat (length message_ids)))) ;;
      let msgs := match messages results with Some l => l | None => [] end in
      let message_ids := (message_ids ++ msgs)%list in
      match nextPageToken results with
      | Some page_token =>
          if Str.truthy page_token then
            log CSleepPage ;;
            pages fuel' query max_results message_ids (Some page_token)
          else ret message_ids
      | None => ret message_ids
      end
    else ret message_ids
end.

(** The body of [get_messages]; its [except HttpError] logs and re-raises. *)
Definition get_messages_once (fuel : nat) (scope : EmailScope)
  (max_results : option Z) : M Σ (list string) :=
let max_results :=
  match max_results with
  | Some n => if n =? 0 then GMAIL_MAX_RESULTS settings else n
  | None => GMAIL_MAX_RESULTS settings
  end in
query <- _build_query scope ;;
try_except
  (message_ids <- pages fuel query max_results [] None ;;
   ret (slice_to max_results message_ids))
  is_HttpError (fun e => raise e).

Definition get_messages (fuel : nat) (scope : EmailScope)
  (max_results : option Z) : M Σ (list string) :=
retry 3 is_HttpError (get_messages_once fuel scope max_results).

Definition detail_of (message_id : string) (message : Message) : MessageDetail :=
let headers := payload_headers (payload message) in
{| d_id := message_id;
   d_subject := header_get "Subject" headers;
   d_from := header_get "From" headers;
   d_body := _extract_body (payload message);
   d_snippet := match snippet message with Some s => s | None => "" end;
   d_labels := match labelIds message with Some l => l | None => [] end |}.

(** The body of [get_message_detail]: every [HttpError] becomes [None]. *)
Definition get_message_detail_once (message_id : string) : M Σ (option MessageDetail) :=
try_except
  (message <- call (CMessagesGet message_id) (messages_get P message_id) ;;
   ret (Some (detail_of message_id message)))
  is_HttpError (fun _ => ret None).

Definition get_message_detail (message_id : string) : M Σ (option MessageDetail) :=
retry 3 any_Exception (get_message_detail_once message_id).

(** The first label whose name is [name] up to case: the [for] loop of
  [create_label]. *)
Definition find_label (name : string) (existing_labels : list Label) : option Label :=
find (fun label => String.eqb (Str.lower (label_name label)) (Str.lower name))
     existing_labels.

(** The body of [create_label]. *)
Definition create_label_once (name : string) : M Σ string :=
try_except
  (existing_labels <- call CLabelsList (labels_list P) ;;
   match find_label name existing_labels with
   | Some label => ret (label_id label)
   | None =>
       created_label <- call (CLabelsCreate name) (labels_create P name) ;;
       ret (label_id created_label)
   end)
  is_HttpError (fun e => raise e).

Definition create_label (name : string) : M Σ string :=
retry 3 any_Exception (create_label_once name).

(** [time.sleep(1.0 / settings.GMAIL_RATE_LIMIT_PER_SECOND)] *)
Definition rate_sleep : M Σ unit :=
if GMAIL_RATE_LIMIT_PER_SECOND settings =? 0 then raise ZeroDivisionError
else if GMAIL_RATE_LIMIT_PER_SECOND settings <? 0
then raise (ValueError "sleep length must be non-negative")
else log CSleepRate.

(** The body of [apply_label]: the request only adds a label. *)
Definition apply_label_once (message_id label : string) : M Σ bool :=
try_except
  (call (CMessagesModify message_id [label] [])
        (messages_modify P message_id [label] []) ;;
   rate_sleep ;;
   ret true)
  is_HttpError (fun _ => ret false).

Definition apply_label (message_id label : string) : M Σ bool :=
retry 3 any_Exception (apply_label_once message_id label).

End Service.
End GmailService.

(* ===================================================================== *)
(** ** database.py: the session                                           *)
(* ===================================================================== *)

Section Session.
Context {Σ : Type}.

(** [db.query(Job).filter(Job.id == job_id).first()]: the row, loaded
    into the session. *)
Definition query_job (job_id : string) : M Σ (option Job) :=
  fun w =>
    let row := db_jobs w !! job_id in
    Some (Ok row, with_session (pair job_id <$> row) (sess_user w) w).

Definition query_user (user_id : string) : M Σ (option User) :=
  fun w =>
    let row := db_users w !! user_id in
    Some (Ok row, with_session (sess_job w) (pair user_id <$> row) w).

(** [db.add(job)] *)
Definition db_add_job (job_id : string) (job : Job) : M Σ unit :=
  fun w => Some (Ok tt, with_session (Some (job_id, job)) (sess_user w) w).

(** [job.attr = value], on the object the session holds. *)
Definition modify_job (f : Job -> Job) : M Σ unit :=
  fun w => Some (Ok tt, with_session (prod_map id f <$> sess_job w) (sess_user w) w).

Definition modify_user (f : User -> User) : M Σ unit :=
  fun w => Some (Ok tt, with_session (sess_job w) (prod_map id f <$> sess_user w) w).

(** The job object as the session holds it (a read of its attributes). *)
Definition the_job : M Σ (option Job) :=
  fun w => Some (Ok (snd <$> sess_job w), w).

(** [db.commit()]: the objects of the session are written to their rows.
    The storage layer is taken to accept every commit. *)
Definition db_commit : M Σ unit :=
  fun w =>
    let js := match sess_job w with
              | Some (k, j) => <[k := j]> (db_jobs w)
              | None => db_jobs w
              end in
    let us := match sess_user w with
              | Some (k, u) => <[k := u]> (db_users w)
              | None => db_users w
              end in
    Some (Ok tt,
          with_calls (calls w ++ [CCommit (status ∘ snd <$> sess_job w)])
            (with_db js us w)).

(** [SessionLocal()] and [db.close()] *)
Definition session_open : M Σ unit :=
  fun w => Some (Ok tt, with_session None None w).
Definition session_close : M Σ unit :=
  fun w => Some (Ok tt, with_session None None w).

(** [with get_db_context() as db: body] *)
Definition get_db_context {A} (body : M Σ A) : M Σ A :=
  fun w =>
    match (session_open ;; body) w with
    | Some (Ok a, w1) => (db_commit ;; session_close ;; ret a) w1
    | Some (Raise e, w1) => (log CRollback ;; session_close ;; raise e) w1
    | None => None
    end.

(** [db: Session = Depends(get_db)] around a route. *)
Definition get_db {A} (body : M Σ A) : M Σ A :=
  fun w =>
    match (session_open ;; body) w with
    | Some (r, w1) => Some (r, with_session None None w1)
    | None => None
    end.

End Session.

(* ===================================================================== *)
(** ** auth.py: the credentials of a user                                 *)
(* ===================================================================== *)

Section Auth.
Context {Σ : Type} (P : Provider Σ).

Definition truthy_opt (o : option string) : bool :=
  match o with Some s => Str.truthy s | None => false end.

Definition get_google_credentials (user : User) : res Credentials :=
  match encrypted_access_token user with
  | Some enc =>
      if Str.truthy enc then
        match decrypt_token P enc with
        | Ok access_token =>
            let finish r := Ok {| token := access_token; refresh_token := r;
                                  expiry := None |} in
            match encrypted_refresh_token user with
            | Some encr =>
                if Str.truthy encr then
                  match decrypt_token P encr with
                  | Ok r => finish (Some r)
                  | Raise e => Raise e
                  end
                else finish None
            | None => finish None
            end
        | Raise e => Raise e
        end
      else Raise (HTTPException 401 "No Google credentials found")
  | None => Raise (HTTPException 401 "No Google credentials found")
  end.

(** [credentials.expired], the property of google-auth's [Credentials]:
    credentials without an expiry are never expired; with one, the clock
    decides. *)
Definition expired (credentials : Credentials) (s : Σ) : bool :=
  match expiry credentials with
  | None => false
  | Some _ => credentials_expired P credentials s
  end.

Definition set_tokens (enc : string) (exp : option Z) (u : User) : User :=
  {| encrypted_access_token := Some enc;
     encrypted_refresh_token := encrypted_refresh_token u;
     token_expiry := exp |}.

Definition refresh_google_token (user_id : string) (user : User) : M Σ Credentials :=
  log (CResolveCredentials user_id) ;;
  credentials <- lift_res (get_google_credentials user) ;;
  expired <- ask (expired credentials) ;;
  if (expired && truthy_opt (refresh_token credentials))%bool then
    credentials <- call CCredentialsRefresh (credentials_refresh P credentials) ;;
    enc <- lift_res (encrypt_token P (token credentials)) ;;
    modify_user (set_tokens enc (expiry credentials)) ;;
    db_commit ;;
    ret credentials
  else ret credentials.

End Auth.

(* ===================================================================== *)
(** ** workers.py                                                         *)
(* ===================================================================== *)

(** The local variables of the processing loop. *)
Record Frame := {
  f_counts : gmap string nat;         (* category_counts *)
  f_errors : list ErrorEntry          (* errors *)
}.

Definition message_error (message_id error : string) : ErrorEntry :=
  {| err_message_id := Some message_id; err_error := error |}.

Definition bump_error_count (j : Job) : Job :=
  set_error_count (error_count j + 1)%nat j.

Section Worker.
Context {Σ : Type} (P : Provider Σ) (settings : Settings).

(** [EmailClassifier(mode=..)]: the model file is read in the BALANCED
    and ACCURATE modes only. *)
Definition new_classifier (mode : ModelMode) : M Σ EmailClassifier.t :=
  match mode with
  | FAST => lift_res (EmailClassifier.init (Raise FileNotFoundError) mode)
  | _ =>
      loaded <- observe CLoadModel (joblib_load P) ;;
      lift_res (EmailClassifier.init loaded mode)
  end.

(** Lines 83-86: a label per category, in the order of the catalog. *)
Fixpoint create_labels (categories : list string) (label_cache : gmap string string)
    : M Σ (gmap string string) :=
  match categories with
  | [] => ret label_cache
  | category :: rest =>
      label <- GmailService.create_label P
                 ("Cloudidian/" +:+ Str.capitalize category) ;;
      create_labels rest (<[category := label]> label_cache)
  end.

(** Lines 106-113. *)
Definition label_message (label_cache : gmap string string)
    (message_id category : string) (fr : Frame) : M Σ Frame :=
  match label_cache !! category with
  | Some label =>
      if Str.truthy label then
        success <- GmailService.apply_label P settings message_id label ;;
        if success : bool then
          match f_counts fr !! category with
          | Some n =>
              note message_id (Labeled category) ;;
              ret {| f_counts := <[category := (n + 1)%nat]> (f_counts fr);
                     f_errors := f_errors fr |}
          | None => raise (KeyError category)
          end
        else
          modify_job bump_error_count ;;
          note message_id ApplyFailed ;;
          ret {| f_counts := f_counts fr;
                 f_errors := f_errors fr ++ [message_error message_id "Failed to apply label"] |}
      else note message_id (Skipped category) ;; ret fr
  | None => note message_id (Skipped category) ;; ret fr
  end.

(** Lines 100-116: the message is classified, labelled and counted. *)
Definition classify_and_label (classifier : EmailClassifier.t)
    (label_cache : gmap string string) (idx : nat) (message_id : string)
    (message_detail : MessageDetail) (fr : Frame) : M Σ Frame :=
  category <- lift_res (EmailClassifier.classify classifier
                          (d_subject message_detail) (d_body message_detail)
                          (d_from message_detail)) ;;
  fr <- label_message label_cache message_id category fr ;;
  modify_job (set_processed_emails (idx + 1)%nat) ;;
  modify_job (set_category_counts (f_counts fr)) ;;
  ret fr.

(** Lines 118-127: the checkpoint after every tenth message.  The
    commit is accepted (see [db_commit]); the progress update is a call
    to the result backend of the task queue, which can raise. *)
Definition checkpoint (idx total : nat) (fr : Frame) : M Σ unit :=
  if ((idx + 1) mod 10 =? 0)%nat then
    db_commit ;;
    call (CUpdateState (idx + 1)%nat total (f_counts fr))
         (update_state P (idx + 1)%nat total (f_counts fr))
  else ret tt.

(** Lines 129-132: the handler of the loop, entered with the variables
    of the loop as they are when the exception arrives; [o] is the entry
    it leaves in the history. *)
Definition on_exception (message_id : string) (o : exn -> Outcome) (fr : Frame)
    (e : exn) : M Σ Frame :=
  modify_job bump_error_count ;;
  note message_id (o e) ;;
  ret {| f_counts := f_counts fr;
         f_errors := f_errors fr ++ [message_error message_id (str_exn P e)] |}.

(** Lines 93-132: one iteration of the loop, with its one [try] and its
    one handler.  Up to line 116 the body assigns to the variables of the
    loop only after its last call that can raise, so an exception from
    there reaches the handler with the variables as the iteration found
    them.  The checkpoint comes after the assignments of lines 110-116:
    an exception from it reaches the same handler with the counts, the
    errors and the job as those lines left them, which the inner
    [try_except] around the checkpoint says. *)
Definition process_message (classifier : EmailClassifier.t)
    (label_cache : gmap string string) (total idx : nat) (message_id : string)
    (fr : Frame) : M Σ Frame :=
  try_except
    (message_detail <- GmailService.get_message_detail P message_id ;;
     match message_detail with
     | None =>
         modify_job bump_error_count ;;
         note message_id FetchAbsent ;;
         ret {| f_counts := f_counts fr;
                f_errors := f_errors fr ++ [message_error message_id "Failed to fetch"] |}
     | Some detail =>
         fr <- classify_and_label classifier label_cache idx message_id detail fr ;;
         try_except (checkpoint idx total fr ;; ret fr)
           any_Exception (on_exception message_id Interrupted fr)
     end)
    any_Exception (on_exception message_id Raised fr).

(** [for idx, message_id in enumerate(message_ids)], from index [idx]. *)
Fixpoint process_messages (classifier : EmailClassifier.t)
    (label_cache : gmap string string) (total idx : nat)
    (message_ids : list string) (fr : Frame) : M Σ Frame :=
  match message_ids with
  | [] => ret fr
  | message_id :: rest =>
      fr <- process_message classifier label_cache total idx message_id fr ;;
      process_messages classifier label_cache total (S idx) rest fr
  end.

(** [{cat: 0 for cat in EmailClassifier.CATEGORIES.keys()}] *)
Definition zero_counts : gmap string nat :=
  list_to_map (map (fun cat => (cat, 0%nat)) EmailClassifier.category_names).

(** Lines 77-137: from the listing to the completed job. *)
Definition process_job (classifier : EmailClassifier.t) (message_ids : list string)
    : M Σ unit :=
  modify_job (set_total_emails (length message_ids)) ;;
  db_commit ;;
  label_cache <- create_labels EmailClassifier.category_names ∅ ;;
  fr <- process_messages classifier label_cache (length message_ids) 0 message_ids
          {| f_counts := zero_counts; f_errors := [] |} ;;
  modify_job (set_status COMPLETED) ;;
  now <- ask (utcnow P) ;;
  modify_job (set_completed_at (Some now)) ;;
  modify_job (set_errors (take 100 (f_errors fr))) ;;
  db_commit.

(** Lines 62-137: the [try] block of the task. *)
Definition run_job (fuel : nat) (request_id user_id : string) (user : User)
    (mode scope : string) : M Σ unit :=
  modify_job (set_status RUNNING) ;;
  modify_job (set_celery_task_id (Some request_id)) ;;
  db_commit ;;
  credentials <- refresh_google_token P user_id user ;;
  GmailService.init P credentials ;;
  mode <- lift_res (ModelMode_of mode) ;;
  classifier <- new_classifier mode ;;
  scope <- lift_res (EmailScope_of scope) ;;
  message_ids <- GmailService.get_messages P settings fuel scope
                   (Some (GMAIL_MAX_RESULTS settings)) ;;
  process_job classifier message_ids.

(** The handler of the task: the job fails with one error entry and the
    exception goes on to the task framework. *)
Definition fail_job (e : exn) : M Σ unit :=
  modify_job (set_status FAILED) ;;
  modify_job (set_errors [{| err_message_id := None; err_error := str_exn P e |}]) ;;
  db_commit ;;
  raise e.

Definition classify_emails_task (fuel : nat)
    (request_id job_id user_id mode scope : string) : M Σ unit :=
  get_db_context
    (job <- query_job job_id ;;
     user <- query_user user_id ;;
     match job, user with
     | Some _, Some user =>
         try_except (run_job fuel request_id user_id user mode scope)
           any_Exception fail_job
     | _, _ => ret tt          (* logger.error(..); return *)
     end).

End Worker.

(* ===================================================================== *)
(** ** main.py: the job routes                                            *)
(* ===================================================================== *)

(** [Job(id=.., user_id=.., mode=.., scope=.., status=PENDING)] with the
    column defaults. *)
Definition new_job (user_id mode scope : string) : Job :=
  {| job_user_id := user_id; status := PENDING; job_mode := mode; job_scope := scope;
     total_emails := 0; processed_emails := 0; error_count := 0;
     category_counts := ∅; errors := []; completed_at := None;
     celery_task_id := None |}.

Section Routes.
Context {Σ : Type}.

Definition valid_mode (mode : string) : bool :=
  match ModelMode_of mode with Ok _ => true | Raise _ => false end.
Definition valid_scope (scope : string) : bool :=
  match EmailScope_of scope with Ok _ => true | Raise _ => false end.

(** [start_classification_job] up to its first commit; [job_id] is the
    uuid it draws. *)
Definition create_job (job_id user_id mode scope : string) : M Σ unit :=
  if negb (valid_mode mode) then raise (HTTPException 400 "Invalid mode")
  else if negb (valid_scope scope) then raise (HTTPException 400 "Invalid scope")
  else
    db_add_job job_id (new_job user_id mode scope) ;;
    db_commit.

(** [start_classification_job]; [task_id] is the id of the queued task. *)
Definition start_classification_job (job_id task_id user_id mode scope : string)
    : M Σ (string * JobStatus * string) :=
  get_db
    (create_job job_id user_id mode scope ;;
     log (CDelay job_id user_id mode scope) ;;
     modify_job (set_celery_task_id (Some task_id)) ;;
     db_commit ;;
     job <- the_job ;;
     ret (job_id, match job with Some j => status j | None => PENDING end, task_id)).

(** The query of the job routes: the job of that id owned by the user. *)
Definition query_job_of_user (job_id user_id : string) : M Σ (option Job) :=
  fun w =>
    let row := match db_jobs w !! job_id with
               | Some j => if String.eqb (job_user_id j) user_id then Some j else None
               | None => None
               end in
    Some (Ok row, with_session (pair job_id <$> row) (sess_user w) w).

Definition cancel_job (job_id current_user_id : string) : M Σ (string * JobStatus) :=
  get_db
    (job <- query_job_of_user job_id current_user_id ;;
     match job with
     | None => raise (HTTPException 404 "Job not found")
     | Some job =>
         if negb (bool_decide (status job ∈ [PENDING; RUNNING])) then
           raise (HTTPException 400 "Job cannot be cancelled")
         else
           (if truthy_opt (celery_task_id job) then
              match celery_task_id job with
              | Some task_id => log (CRevoke task_id)
              | None => ret tt
              end
            else ret tt) ;;
           modify_job (set_status CANCELLED) ;;
           db_commit ;;
           ret (job_id, CANCELLED)
     end).

End Routes.

(* ===================================================================== *)
(** ** A mailbox to run the program against                               *)
(* ===================================================================== *)

(** A deterministic provider: a listing served in pages, a message store,
    a label store, and a script of exceptions for the next [messages.get]
    calls.  It serves the concrete runs below. *)
Module Mock.

Record State := {
  listing : list string;                  (* ids that match any query, in order *)
  store : list (string * Message);        (* what messages.get finds *)
  labels : list Label;
  applied : list (string * string);       (* (message id, label id) added *)
  get_script : list exn;                  (* raised by the next messages.get calls *)
  model_file : res EmailClassifier.Model  (* what joblib.load does *)
}.

Definition with_labels (l : list Label) (s : State) : State :=
  {| listing := listing s; store := store s; labels := l; applied := applied s;
     get_script := get_script s; model_file := model_file s |}.
Definition with_applied (a : list (string * string)) (s : State) : State :=
  {| listing := listing s; store := store s; labels := labels s; applied := a;
     get_script := get_script s; model_file := model_file s |}.
Definition with_get_script (g : list exn) (s : State) : State :=
  {| listing := listing s; store := store s; labels := labels s; applied := applied s;
     get_script := g; model_file := model_file s |}.
Definition with_model (m : EmailClassifier.Model) (s : State) : State :=
  {| listing := listing s; store := store s; labels := labels s; applied := applied s;
     get_script := get_script s; model_file := Ok m |}.

(** Page tokens: the offset of the next page, in unary. *)
Fixpoint token_of (n : nat) : string :=
  match n with O => "" | S n' => String "t" (token_of n') end.
Definition offset_of (t : option string) : nat :=
  match t with Some s => String.length s | None => O end.

Definition page (ids : list string) (t : option string) (k : Z) : ListResponse :=
  let off := offset_of t in
  let n := Z.to_nat k in
  {| messages := Some (take n (drop off ids));
     nextPageToken := if (off + n <? length ids)%nat
                      then Some (token_of (off + n)) else None |}.

Definition lookup_message (id : string) (s : State) : option Message :=
  snd <$> find (fun p => String.eqb (fst p) id) (store s).

(** The text the mock gives the exceptions of the libraries. *)
Definition library_text (e : exn) : string :=
  match e with
  | HttpError status => "<HttpError " +:+ pretty status +:+ ">"
  | RetryError _ => "RetryError[<Future state=finished raised>]"
  | _ => "[Errno 2] No such file or directory"
  end.

Definition provider : Provider State :=
  {| messages_list := fun _ t k s => (Ok (page (listing s) t k), s);
     messages_get := fun id s =>
       match get_script s with
       | e :: rest => (Raise e, with_get_script rest s)
       | [] => match lookup_message id s with
               | Some m => (Ok m, s)
               | None => (Raise (HttpError 404), s)
               end
       end;
     labels_list := fun s => (Ok (labels s), s);
     labels_create := fun name s =>
       let l := {| label_id := "Label_" +:+ token_of (S (length (labels s)));
                   label_name := name |} in
       (Ok l, with_labels (labels s ++ [l]) s);
     messages_modify := fun id add _ s =>
       match lookup_message id s with
       | Some _ => (Ok tt, with_applied (applied s ++ map (pair id) add) s)
       | None => (Raise (HttpError 404), s)
       end;
     build_service := fun _ s => (Ok tt, s);
     decrypt_token := fun t => Ok t;
     encrypt_token := fun t => Ok t;
     credentials_expired := fun _ _ => false;
     credentials_refresh := fun c s => (Ok c, s);
     joblib_load := fun s => (model_file s, s);
     update_state := fun _ _ _ s => (Ok tt, s);
     str_library := library_text;
     seven_days_ago := fun _ => "2026/10/27";
     utcnow := fun _ => 0 |}.

(** A text-only message.  The mock does not compute base64: the data it
    sends for a text is the text between brackets. *)
Definition mail (subject sender body : string) : Message :=
  {| payload := MkPayload [("From", sender); ("Subject", subject)] "text/plain"
                  (Some {| data := "b64[" +:+ body +:+ "]"; decoded := body |}) None;
     snippet := None; labelIds := None |}.

Definition mailbox (msgs : list (string * Message)) : State :=
  {| listing := map fst msgs; store := msgs; labels := []; applied := [];
     get_script := []; model_file := Raise FileNotFoundError |}.

Definition a_user : User :=
  {| encrypted_access_token := Some "access"; encrypted_refresh_token := Some "refresh";
     token_expiry := None |}.

(** The world right after the route has committed the new job ["j1"] of
    user ["u1"]. *)
Definition world (s : State) (mode scope : string) : World State :=
  {| prov := s;
     db_jobs := {[ "j1" := new_job "u1" mode scope ]};
     db_users := {[ "u1" := a_user ]};
     sess_job := None; sess_user := None; calls := []; trail := [] |}.

(** The task of job ["j1"] as the queue starts it. *)
Definition run (w : World State) (mode scope : string) :=
  classify_emails_task provider default_settings 1000 "task1" "j1" "u1" mode scope w.

(** The world a computation leaves, and the row of job ["j1"] in a world. *)
Definition world_after {A} (r : option (res A * World State)) (w : World State)
    : World State :=
  match r with Some (_, w') => w' | None => w end.
Definition job_of (w : World State) : Job :=
  match db_jobs w !! "j1" with Some j => j | None => new_job "" "" "" end.

End Mock.

(* ===================================================================== *)
(** ** The rule pass as the specification words it                        *)
(* ===================================================================== *)

Module RuleSpec.

(** The categories of the rule pass in priority order, each with the
    number of keyword hits it needs. *)
Definition priority : list (string * nat) :=
  [ ("spam", 2%nat); ("security", 2%nat); ("finance", 1%nat);
    ("promotion", 2%nat); ("work", 2%nat) ].

(** The distinct keywords of a category that occur in the text. *)
Definition hit_set (category text : string) : gset string :=
  filter (fun kw => Str.contains kw text = true)
         (list_to_set (EmailClassifier.keywords category)).

Definition hits (category text : string) : nat := size (hit_set category text).

(** First matching rule wins. *)
Definition first_match (text : string) : option string :=
  fst <$> find (fun rule => Nat.leb (snd rule) (hits (fst rule) text)) priority.

(** The fallback stage: the label of the model when the mode asks for it,
    a model is loaded and its prediction comes back; no prediction
    otherwise. *)
Definition prediction (self : EmailClassifier.t) (text : string) : option string :=
  match EmailClassifier.mode self, EmailClassifier.model self with
  | FAST, _ => None
  | _, None => None
  | _, Some m =>
      match EmailClassifier.predict m text with
      | Ok l => Some l
      | Raise _ => None
      end
  end.

End RuleSpec.

(* ===================================================================== *)
(** ** Reading the call log                                               *)
(* ===================================================================== *)

Definition is_get (c : Call) : bool :=
  match c with CMessagesGet _ => true | _ => false end.
Definition is_create (c : Call) : bool :=
  match c with CLabelsCreate _ => true | _ => false end.
Definition is_modify (c : Call) : bool :=
  match c with CMessagesModify _ _ _ => true | _ => false end.

(** How many calls of a kind a log holds. *)
Fixpoint count_calls (kind : Call -> bool) (l : list Call) : nat :=
  match l with
  | [] => 0%nat
  | c :: l' => ((if kind c then 1 else 0) + count_calls kind l')%nat
  end.

(** A call that removes no label from any message. *)
Definition removes_nothing (c : Call) : Prop :=
  match c with
  | CMessagesModify _ _ removeLabelIds => removeLabelIds = []
  | _ => True
  end.

(** A call of the service layer: to the mail provider, or a wait. *)
Definition service_call (c : Call) : Prop :=
  match c with
  | CMessagesList _ _ _ | CMessagesGet _ | CLabelsList | CLabelsCreate _
  | CMessagesModify _ _ [] | CSleepPage | CSleepRate | CBackoff _ => True
  | _ => False
  end.

(** A call made while fetching a message. *)
Definition fetch_call (c : Call) : Prop :=
  match c with CMessagesGet _ | CBackoff _ => True | _ => False end.

(** The revocation a cancel request sends for a job. *)
Definition revocation (j : Job) : list Call :=
  match celery_task_id j with
  | Some task_id => if Str.truthy task_id then [CRevoke task_id] else []
  | None => []
  end.

Section Relations.
Context {Σ : Type}.

(** The computation returns in every world. *)
Definition returns {A} (m : M Σ A) : Prop :=
  forall w, exists r w', m w = Some (r, w').

(** Every return of the computation relates the two worlds. *)
Definition pres {A} (R : World Σ -> World Σ -> Prop) (m : M Σ A) : Prop :=
  forall w r w', m w = Some (r, w') -> R w w'.

(** The log has grown by calls that satisfy [ok]; nothing else has
    changed but the provider. *)
Definition served (ok : Call -> Prop) (w w' : World Σ) : Prop :=
  db_jobs w' = db_jobs w /\ db_users w' = db_users w /\
  sess_job w' = sess_job w /\ sess_user w' = sess_user w /\
  trail w' = trail w /\
  exists l, calls w' = calls w ++ l /\ Forall ok l.

(** The job object of the session and the history of the loop are as
    they were; the log has grown by calls that satisfy [ok]. *)
Definition kept (ok : Call -> Prop) (w w' : World Σ) : Prop :=
  sess_job w' = sess_job w /\ trail w' = trail w /\
  exists l, calls w' = calls w ++ l /\ Forall ok l.

(** The log has grown by calls that satisfy [ok]. *)
Definition logged (ok : Call -> Prop) (w w' : World Σ) : Prop :=
  exists l, calls w' = calls w ++ l /\ Forall ok l.

End Relations.

(* ===================================================================== *)
(** ** Reading the history of the loop                                    *)
(* ===================================================================== *)

Definition is_skipped (o : Outcome) : bool :=
  match o with Skipped _ => true | _ => false end.

(** The messages that got no label and no error. *)
Fixpoint skipped (t : list (string * Outcome)) : nat :=
  match t with
  | [] => 0%nat
  | (_, o) :: t' => ((if is_skipped o then 1 else 0) + skipped t')%nat
  end.

Definition is_interrupted (o : Outcome) : bool :=
  match o with Interrupted _ => true | _ => false end.

(** The messages of a history, in order.  A message has one entry, and a
    second one, [Interrupted], when the checkpoint after it raised. *)
Fixpoint handled (t : list (string * Outcome)) : list string :=
  match t with
  | [] => []
  | (message_id, o) :: t' =>
      if is_interrupted o then handled t' else message_id :: handled t'
  end.

(** The messages whose checkpoint raised: each is in the counters twice,
    by its outcome and by the error of the handler. *)
Fixpoint interrupted (t : list (string * Outcome)) : nat :=
  match t with
  | [] => 0%nat
  | (_, o) :: t' => ((if is_interrupted o then 1 else 0) + interrupted t')%nat
  end.

(** The iteration went as far as the assignment of [processed_emails]. *)
Definition reaches_update (o : Outcome) : bool :=
  match o with FetchAbsent | Raised _ => false | _ => true end.

(** A job as the route creates it, before any run. *)
Definition fresh (j : Job) : Prop :=
  processed_emails j = 0%nat /\ error_count j = 0%nat /\ category_counts j = ∅.

(** What the step of an iteration at index [idx] that leaves the entry
    [o] does to the job object and to the loop's counts. *)
Definition iteration_effect (idx : nat) (o : Outcome)
    (j : Job) (fr : Frame) (j' : Job) (fr' : Frame) : Prop :=
  status j' = status j /\ total_emails j' = total_emails j /\
  match o with
  | FetchAbsent | Raised _ | Interrupted _ =>
      f_counts fr' = f_counts fr /\
      error_count j' = (error_count j + 1)%nat /\
      processed_emails j' = processed_emails j /\
      category_counts j' = category_counts j /\
      exists entry, f_errors fr' = f_errors fr ++ [entry]
  | ApplyFailed =>
      f_counts fr' = f_counts fr /\
      error_count j' = (error_count j + 1)%nat /\
      processed_emails j' = (idx + 1)%nat /\
      category_counts j' = f_counts fr' /\
      exists entry, f_errors fr' = f_errors fr ++ [entry]
  | Skipped _ =>
      fr' = fr /\
      error_count j' = error_count j /\
      processed_emails j' = (idx + 1)%nat /\
      category_counts j' = f_counts fr'
  | Labeled c =>
      (exists n, f_counts fr !! c = Some n /\
                 f_counts fr' = <[c := (n + 1)%nat]> (f_counts fr)) /\
      f_errors fr' = f_errors fr /\
      error_count j' = error_count j /\
      processed_emails j' = (idx + 1)%nat /\
      category_counts j' = f_counts fr'
  end.

(** What one iteration at index [idx] on message [message_id] does: it
    leaves one entry, or an entry that reached the assignments of lines
    115-116 and then the entry of a checkpoint that raised. *)
Definition message_effect (idx : nat) (message_id : string)
    (t : list (string * Outcome)) (j : Job) (fr : Frame) (j' : Job) (fr' : Frame)
    : Prop :=
  (exists o, t = [(message_id, o)] /\ is_interrupted o = false /\
             iteration_effect idx o j fr j' fr') \/
  (exists o e j1 fr1,
     t = [(message_id, o); (message_id, Interrupted e)] /\
     is_interrupted o = false /\ reaches_update o = true /\
     iteration_effect idx o j fr j1 fr1 /\
     iteration_effect idx (Interrupted e) j1 fr1 j' fr').

(** What the loop, started at index [idx], has done to the job object and
    to its counts once it has left the history [t]: every entry of the
    history is one unit in the counts, in the errors or among the skipped. *)
Definition loop_effect (idx : nat) (t : list (string * Outcome))
    (j : Job) (fr : Frame) (j' : Job) (fr' : Frame) : Prop :=
  status j' = status j /\ total_emails j' = total_emails j /\
  (sum_values (f_counts fr') + error_count j' + skipped t
   = sum_values (f_counts fr) + error_count j + length t)%nat /\
  (error_count j' + length (f_errors fr) = error_count j + length (f_errors fr'))%nat /\
  (sum_values (category_counts j) = sum_values (f_counts fr) ->
   sum_values (category_counts j') = sum_values (f_counts fr')) /\
  (processed_emails j <= idx -> processed_emails j' <= idx + length (handled t))%nat /\
  match last t with
  | Some (_, o) =>
      reaches_update o = true -> processed_emails j' = (idx + length (handled t))%nat
  | None => processed_emails j' = processed_emails j
  end.

(** The counters of a job that a run with history [t] has completed. *)
Definition completed_tally (t : list (string * Outcome)) (j : Job) : Prop :=
  status j = COMPLETED /\
  total_emails j = length (handled t) /\
  (sum_values (category_counts j) + error_count j + skipped t
   = total_emails j + interrupted t)%nat /\
  (processed_emails j <= total_emails j)%nat /\
  match last t with
  | Some (_, o) => reaches_update o = true -> processed_emails j = total_emails j
  | None => processed_emails j = total_emails j
  end /\
  length (errors j) = Nat.min 100 (error_count j).

(** The result backend takes every progress update. *)
Definition progress_accepted {Σ : Type} (P : Provider Σ) : Prop :=
  forall processed total counts s,
    (update_state P processed total counts s).1 = Ok tt.

(** The history of the loop has grown, and by no entry of a checkpoint
    that raised. *)
Definition uninterrupted {Σ : Type} (w w' : World Σ) : Prop :=
  exists t, trail w' = trail w ++ t /\ interrupted t = 0%nat.

(* ===================================================================== *)
(** ** The runs examined below                                            *)
(* ===================================================================== *)

Module Scenario.
Import Mock.

Definition hello : Message := mail "hello" "ann@example.org" "see you on sunday".

(** One message; the provider answers the next two [messages.get] calls
    with 429 (rate limit) and would serve the message on the third. *)
Definition rate_limited : World State :=
  world (with_get_script [HttpError 429; HttpError 429] (mailbox [("m1", hello)]))
        "fast" "unread".

(** One message; the provider answers the next [messages.get] call with
    403 (forbidden). *)
Definition forbidden : World State :=
  world (with_get_script [HttpError 403] (mailbox [("m1", hello)])) "fast" "unread".

(** One message; the next two [messages.get] calls time out in the
    transport and the third is served. *)
Definition timeouts : World State :=
  world (with_get_script [OtherException "timed out"; OtherException "timed out"]
           (mailbox [("m1", hello)]))
        "fast" "unread".

(** A mailbox of three messages. *)
Definition three : World State :=
  world (mailbox [("m1", hello); ("m2", hello); ("m3", hello)]) "fast" "unread".

(** Three unread messages: two spam keywords, no rule match, two work
    keywords. *)
Definition mixed : World State :=
  world (mailbox
           [("m1", mail "URGENT: you are a lottery winner" "promo@example.com" "act now");
            ("m2", hello);
            ("m3", mail "Project meeting" "boss@example.com" "please be on time")])
        "fast" "unread".

(** The job exists, its user does not. *)
Definition no_user : World State :=
  {| prov := mailbox [("m1", hello)];
     db_jobs := {[ "j1" := new_job "u1" "fast" "unread" ]};
     db_users := ∅;
     sess_job := None; sess_user := None; calls := []; trail := [] |}.

(** A model whose label for every text is outside the catalog. *)
Definition newsletter_model : EmailClassifier.Model :=
  {| EmailClassifier.predict := fun _ => Ok "newsletter" |}.

(** One message without a rule match, a BALANCED job, and that model. *)
Definition newsletter : World State :=
  world (with_model newsletter_model (mailbox [("m1", hello)])) "balanced" "unread".

(** One listed message that the provider no longer has (404). *)
Definition vanished : World State :=
  world {| listing := ["m1"]; store := []; labels := []; applied := [];
           get_script := []; model_file := Raise FileNotFoundError |}
        "fast" "unread".

(** A cancel request that arrives in [three] while the job is PENDING and
    its task id is not yet recorded, and the world it leaves. *)
Definition cancel_pending :=
  cancel_job (Σ := State) "j1" "u1" three.
Definition cancelled : World State := world_after cancel_pending three.

(** The worlds the task leaves. *)
Definition three_done : World State :=
  world_after (run three "fast" "unread") three.
Definition mixed_done : World State :=
  world_after (run mixed "fast" "unread") mixed.
Definition cancelled_done : World State :=
  world_after (run cancelled "fast" "unread") cancelled.
Definition newsletter_done : World State :=
  world_after (run newsletter "balanced" "unread") newsletter.
Definition vanished_done : World State :=
  world_after (run vanished "fast" "unread") vanished.
Definition no_user_done : World State :=
  world_after (run no_user "fast" "unread") no_user.

(** The classifier of a BALANCED job with the newsletter model, the
    label cache built in the newsletter world, and that world with the
    job loaded in the session. *)
Definition newsletter_classifier : EmailClassifier.t :=
  {| EmailClassifier.mode := BALANCED;
     EmailClassifier.model := Some newsletter_model |}.
Definition labels_made :=
  create_labels provider EmailClassifier.category_names ∅ newsletter.
Definition newsletter_cache : gmap string string :=
  match labels_made with Some (Ok c, _) => c | _ => ∅ end.
Definition newsletter_loaded : World State :=
  with_session (Some ("j1", new_job "u1" "balanced" "unread")) None
    (world_after labels_made newsletter).

End Scenario.

(* ===================================================================== *)
(** ** classifier.py: the catalog entries                                 *)
(* ===================================================================== *)

(** The ["color"] of each entry of [CATEGORIES], in the order of the dict
    literal. *)
Definition CATEGORY_COLORS : list (string * string) :=
  [ ("work", "#4285f4"); ("personal", "#34a853"); ("promotion", "#fbbc04");
    ("spam", "#ea4335"); ("finance", "#ab47bc"); ("security", "#000000") ].

(** An entry of [CATEGORIES]: [{"keywords": .., "color": ..}]. *)
Record CategoryInfo := {
  info_keywords : list string;
  info_color : string
}.

(** [CATEGORIES.get(category)] *)
Definition category_entry (category : string) : option CategoryInfo :=
  match find (fun p => String.eqb (fst p) category) EmailClassifier.CATEGORIES,
        find (fun p => String.eqb (fst p) category) CATEGORY_COLORS with
  | Some p, Some c => Some {| info_keywords := snd p; info_color := snd c |}
  | _, _ => None
  end.

(** [EmailClassifier.get_category_info] *)
Definition get_category_info (category : string) : CategoryInfo :=
  match category_entry category with
  | Some info => info
  | None => {| info_keywords := []; info_color := "#718096" |}
  end.

(* ===================================================================== *)
(** ** config.py: the list of allowed origins                             *)
(* ===================================================================== *)

Module Text.

(** [s.split(sep)] for a separator of one character: a string without
    the separator, the empty one included, is one piece. *)
Fixpoint split (sep : ascii) (s : string) : list string :=
  match s with
  | EmptyString => [EmptyString]
  | String c t =>
      if Ascii.eqb c sep then EmptyString :: split sep t
      else match split sep t with
           | piece :: pieces => String c piece :: pieces
           | [] => [String c EmptyString]
           end
  end.

(** [c.isspace()] on the ASCII range: tab to carriage return, the four
    separators 28 to 31, and the space. *)
Definition is_space (c : ascii) : bool :=
  let n := nat_of_ascii c in
  ((Nat.leb 9 n && Nat.leb n 13) || (Nat.leb 28 n && Nat.leb n 32))%bool.

(** [s.lstrip()], [s.rstrip()], [s.strip()] *)
Fixpoint lstrip (s : string) : string :=
  match s with
  | EmptyString => EmptyString
  | String c t => if is_space c then lstrip t else s
  end.
Fixpoint rstrip (s : string) : string :=
  match s with
  | EmptyString => EmptyString
  | String c t =>
      match rstrip t with
      | EmptyString => if is_space c then EmptyString else String c EmptyString
      | t' => String c t'
      end
  end.
Definition strip (s : string) : string := rstrip (lstrip s).

(** [sep.join(pieces)] *)
Fixpoint join (sep : string) (pieces : list string) : string :=
  match pieces with
  | [] => EmptyString
  | [piece] => piece
  | piece :: rest => piece +:+ sep +:+ join sep rest
  end.

(** How many times a character occurs in a string. *)
Fixpoint count (c : ascii) (s : string) : nat :=
  match s with
  | EmptyString => 0%nat
  | String a t => ((if Ascii.eqb a c then 1 else 0) + count c t)%nat
  end.

(** Whether a string holds a whitespace character. *)
Fixpoint has_space (s : string) : bool :=
  match s with
  | EmptyString => false
  | String c t => (is_space c || has_space t)%bool
  end.

(** A string without whitespace at either end. *)
Definition stripped (s : string) : Prop := lstrip s = s /\ rstrip s = s.

End Text.

(** [Settings.allowed_origins_list], of the value of [ALLOWED_ORIGINS]. *)
Definition allowed_origins_list (ALLOWED_ORIGINS : string) : list string :=
  map Text.strip (Text.split "," ALLOWED_ORIGINS).

(* ===================================================================== *)
(** ** main.py: the categories table at start-up                          *)
(* ===================================================================== *)

(** A row of [categories], without the columns the database fills in
    ([id], [created_at]). *)
Record Category := {
  cat_name : string;
  cat_color : string;
  cat_description : string;
  cat_gmail_label : string
}.

(** [Category(name=.., color=.., description=.., gmail_label=..)] of
    [startup_event]. *)
Definition new_category (cat_name color : string) : Category :=
  {| cat_name := cat_name;
     cat_color := color;
     cat_description := Str.capitalize cat_name +:+ " emails";
     cat_gmail_label := "Cloudidian/" +:+ Str.capitalize cat_name |}.

(** The loop of [startup_event] over [CATEGORIES.items()]: [table] holds
    the rows of the database, which the query reads (the session does
    not flush before a query), [pending] the rows added so far. *)
Fixpoint seed_categories (entries : list (string * string))
    (table pending : list Category) : list Category :=
  match entries with
  | [] => pending
  | (name, color) :: rest =>
      match find (fun row => String.eqb (cat_name row) name) table with
      | Some existing => seed_categories rest table pending
      | None => seed_categories rest table (pending ++ [new_category name color])
      end
  end.

(** Whether the table has a row of that name. *)
Definition has_category (table : list Category) (name : string) : bool :=
  match find (fun row => String.eqb (cat_name row) name) table with
  | Some _ => true
  | None => false
  end.

(** [startup_event]: the table after its commit. *)
Definition startup_event (table : list Category) : list Category :=
  table ++ seed_categories CATEGORY_COLORS table [].

(* ===================================================================== *)
(** ** Reading a payload                                                  *)
(* ===================================================================== *)

(** A part that the loop of [_extract_body] passes over: a text/plain
    part without data, or a part of another type without parts of its
    own. *)
Definition passed_over (part : Payload) : Prop :=
  match part with
  | MkPayload _ mimeType part_data part_parts =>
      if String.eqb mimeType "text/plain" then has_data part_data = false
      else part_parts = None
  end.

(* ===================================================================== *)
(** ** gmail_service.py: labels for a batch of messages                   *)
(* ===================================================================== *)

Section Batch.
Context {Σ : Type} (P : Provider Σ) (settings : Settings).

(** The loop of [batch_apply_labels], from a count of successes. *)
Fixpoint batch_apply_labels_from (message_label_pairs : list (string * string))
    (success_count : nat) : M Σ nat :=
  match message_label_pairs with
  | [] => ret success_count
  | (message_id, label_id) :: rest =>
      success <- GmailService.apply_label P settings message_id label_id ;;
      batch_apply_labels_from rest
        (if success : bool then (success_count + 1)%nat else success_count)
  end.

Definition batch_apply_labels (message_label_pairs : list (string * string)) : M Σ nat :=
  batch_apply_labels_from message_label_pairs 0.

End Batch.

(** A call that [get_messages] makes: a list request for 1 to 500 ids,
    the wait between two pages, or the wait before a new attempt. *)
Definition list_request (c : Call) : Prop :=
  match c with
  | CMessagesList _ _ maxResults => 1 <= maxResults <= 500
  | CSleepPage | CBackoff _ => True
  | _ => False
  end.

Definition is_rate_sleep (c : Call) : bool :=
  match c with CSleepRate => true | _ => false end.

(** The limit [get_messages] works with: [max_results or
    settings.GMAIL_MAX_RESULTS]. *)
Definition effective_limit (settings : Settings) (max_results : option Z) : Z :=
  match max_results with
  | Some n => if n =? 0 then GMAIL_MAX_RESULTS settings else n
  | None => GMAIL_MAX_RESULTS settings
  end.

(* ===================================================================== *)
(** ** Mailboxes that fail, and other settings                            *)
(* ===================================================================== *)

Module Faulty.
Import Mock.

(** The mock mailbox with a listing that answers every request with an
    exception. *)
Definition listing_raises (e : exn) : Provider State :=
  {| messages_list := fun _ _ _ s => (Raise e, s);
     messages_get := messages_get provider;
     labels_list := labels_list provider;
     labels_create := labels_create provider;
     messages_modify := messages_modify provider;
     build_service := build_service provider;
     decrypt_token := decrypt_token provider;
     encrypt_token := encrypt_token provider;
     credentials_expired := credentials_expired provider;
     credentials_refresh := credentials_refresh provider;
     joblib_load := joblib_load provider;
     update_state := update_state provider;
     str_library := str_library provider;
     seven_days_ago := seven_days_ago provider;
     utcnow := utcnow provider |}.

(** The mock mailbox with a label listing that answers every request
    with an exception. *)
Definition labels_raise (e : exn) : Provider State :=
  {| messages_list := messages_list provider;
     messages_get := messages_get provider;
     labels_list := fun s => (Raise e, s);
     labels_create := labels_create provider;
     messages_modify := messages_modify provider;
     build_service := build_service provider;
     decrypt_token := decrypt_token provider;
     encrypt_token := encrypt_token provider;
     credentials_expired := credentials_expired provider;
     credentials_refresh := credentials_refresh provider;
     joblib_load := joblib_load provider;
     update_state := update_state provider;
     str_library := str_library provider;
     seven_days_ago := seven_days_ago provider;
     utcnow := utcnow provider |}.

(** The mock mailbox with a result backend that answers every progress
    update with an exception. *)
Definition backend_down (e : exn) : Provider State :=
  {| messages_list := messages_list provider;
     messages_get := messages_get provider;
     labels_list := labels_list provider;
     labels_create := labels_create provider;
     messages_modify := messages_modify provider;
     build_service := build_service provider;
     decrypt_token := decrypt_token provider;
     encrypt_token := encrypt_token provider;
     credentials_expired := credentials_expired provider;
     credentials_refresh := credentials_refresh provider;
     joblib_load := joblib_load provider;
     update_state := fun _ _ _ s => (Raise e, s);
     str_library := str_library provider;
     seven_days_ago := seven_days_ago provider;
     utcnow := utcnow provider |}.

(** Settings with a rate limit of zero requests per second. *)
Definition no_rate : Settings :=
  {| GMAIL_MAX_RESULTS := 500; GMAIL_RATE_LIMIT_PER_SECOND := 0 |}.

End Faulty.

(* ===================================================================== *)
(** ** Reading the log of a run                                           *)
(* ===================================================================== *)

(** The job object once the run has assigned RUNNING and its task id. *)
Definition started_job (request_id : string) (j : Job) : Job :=
  set_celery_task_id (Some request_id) (set_status RUNNING j).

(** The job row a failed run leaves: FAILED and the one error entry on
    top of that. *)
Definition failed_job {Σ : Type} (P : Provider Σ) (request_id : string) (e : exn)
    (j : Job) : Job :=
  set_errors [{| err_message_id := None; err_error := str_exn P e |}]
    (set_status FAILED (started_job request_id j)).

(** A call made before the mailbox is looked at: a commit, a rollback,
    the lookup and the refresh of the credentials, the construction of
    the service, the load of the model file. *)
Definition setup_call (c : Call) : Prop :=
  match c with
  | CCommit _ | CRollback | CResolveCredentials _
  | CCredentialsRefresh | CBuildService | CLoadModel => True
  | _ => False
  end.

(** A call made up to and including the listing of the messages. *)
Definition listing_call (c : Call) : Prop :=
  match c with
  | CCommit _ | CRollback | CResolveCredentials _
  | CCredentialsRefresh | CBuildService | CLoadModel
  | CMessagesList _ _ _ | CSleepPage | CBackoff _ => True
  | _ => False
  end.

(** A call of a worker run as far as progress goes: a progress update
    carries a positive multiple of ten that does not exceed the total,
    and the run neither queues nor revokes a task. *)
Definition progress_call (c : Call) : Prop :=
  match c with
  | CUpdateState processed total _ =>
      (processed mod 10 = 0 /\ 1 <= processed <= total)%nat
  | CDelay _ _ _ _ | CRevoke _ => False
  | _ => True
  end.

Definition is_load (c : Call) : bool :=
  match c with CLoadModel => true | _ => false end.
Definition is_update_state (c : Call) : bool :=
  match c with CUpdateState _ _ _ => true | _ => false end.

(** Lines 66-137 of [workers.py]: the [try] block of the task after its
    first commit. *)
Definition run_from_credentials {Σ : Type} (P : Provider Σ) (settings : Settings)
    (fuel : nat) (user_id : string) (user : User) (mode scope : string) : M Σ unit :=
  credentials <- refresh_google_token P user_id user ;;
  GmailService.init P credentials ;;
  mode <- lift_res (ModelMode_of mode) ;;
  classifier <- new_classifier P mode ;;
  scope <- lift_res (EmailScope_of scope) ;;
  message_ids <- GmailService.get_messages P settings fuel scope
                   (Some (GMAIL_MAX_RESULTS settings)) ;;
  process_job P settings classifier message_ids.

(* ===================================================================== *)
(** ** More runs                                                          *)
(* ===================================================================== *)

Module Cases.
Import Mock.

(** A user whose stored access token is empty. *)
Definition tokenless : User :=
  {| encrypted_access_token := Some ""; encrypted_refresh_token := Some "refresh";
     token_expiry := None |}.

(** The mailbox of three messages, with that user as the owner of the
    job. *)
Definition no_token : World State :=
  with_db (db_jobs Scenario.three) {[ "u1" := tokenless ]} Scenario.three.

(** The labels of a store that have an id. *)
Definition with_id (l : list Label) : list Label :=
  List.filter (fun label => Str.truthy (label_id label)) l.

(** The mock mailbox with a label store that never shows a label
    without id. *)
Definition tidy : Provider State :=
  {| messages_list := messages_list provider;
     messages_get := messages_get provider;
     labels_list := fun s => (Ok (with_id (labels s)), s);
     labels_create := labels_create provider;
     messages_modify := messages_modify provider;
     build_service := build_service provider;
     decrypt_token := decrypt_token provider;
     encrypt_token := encrypt_token provider;
     credentials_expired := credentials_expired provider;
     credentials_refresh := credentials_refresh provider;
     joblib_load := joblib_load provider;
     update_state := update_state provider;
     str_library := str_library provider;
     seven_days_ago := seven_days_ago provider;
     utcnow := utcnow provider |}.

(** The world the FAST run over the mixed mailbox leaves with that
    store. *)
Definition mixed_tidy_done : World State :=
  world_after
    (classify_emails_task tidy default_settings 1000 "task1" "j1" "u1" "fast" "unread"
       Scenario.mixed)
    Scenario.mixed.

(** A mailbox of ten messages, and the world its FAST run leaves. *)
Definition ten : World State :=
  world (mailbox (map (fun id => (id, Scenario.hello))
                    ["a"; "b"; "c"; "d"; "e"; "f"; "g"; "h"; "i"; "j"]))
        "fast" "unread".
Definition ten_done : World State := world_after (run ten "fast" "unread") ten.

(** The world the same run leaves when the result backend is down. *)
Definition ten_interrupted : World State :=
  world_after
    (classify_emails_task (Faulty.backend_down (OtherException "backend down"))
       default_settings 1000 "task1" "j1" "u1" "fast" "unread" ten)
    ten.

End Cases.

(* ===================================================================== *)
(** ** main.py: reading a job                                             *)
(* ===================================================================== *)

(** The dict that [get_job_status] returns, without [created_at] (the
    database assigns it and the job model does not hold it). *)
Record JobView := {
  view_job_id : string;
  view_status : JobStatus;
  view_mode : string;
  view_scope : string;
  view_total_emails : nat;
  view_processed_emails : nat;
  view_error_count : nat;
  view_category_counts : gmap string nat;     (* job.category_counts or {} *)
  view_completed_at : option Z
}.

Definition job_view (job_id : string) (job : Job) : JobView :=
  {| view_job_id := job_id;
     view_status := status job;
     view_mode := job_mode job;
     view_scope := job_scope job;
     view_total_emails := total_emails job;
     view_processed_emails := processed_emails job;
     view_error_count := error_count job;
     view_category_counts := category_counts job;
     view_completed_at := completed_at job |}.

Section JobRoutes.
Context {Σ : Type}.

(** [get_job_status] *)
Definition get_job_status (job_id current_user_id : string) : M Σ JobView :=
  get_db
    (job <- query_job_of_user job_id current_user_id ;;
     match job with
     | None => raise (HTTPException 404 "Job not found")
     | Some job => ret (job_view job_id job)
     end).

End JobRoutes.

(** No job of that id belongs to the user: there is none, or it is
    another user's. *)
Definition not_owned (jobs : gmap string Job) (job_id user_id : string) : Prop :=
  forall j, jobs !! job_id = Some j -> job_user_id j <> user_id.

(* ===================================================================== *)
(** ** main.py: the statistics of a user                                  *)
(* ===================================================================== *)

(** The dict that [get_stats] returns; [last_run_time] is the time
    itself, not its ISO rendering. *)
Record Stats := {
  total_processed : nat;
  last_run_time : option Z;
  stats_category_counts : gmap string nat;
  unread_count : nat
}.

(** The inner loop of [get_stats]:
    [category_totals[category] = category_totals.get(category, 0) + count]
    for the items of one job. *)
Definition add_counts (counts category_totals : gmap string nat) : gmap string nat :=
  map_fold (fun category count totals =>
              <[category := (default 0%nat (totals !! category) + count)%nat]> totals)
           category_totals counts.

(** Lines 613-628, for the rows the query returned. *)
Definition stats_of (completed_jobs : list Job) : Stats :=
  {| total_processed :=
       fold_left (fun acc job => (acc + processed_emails job)%nat) completed_jobs 0%nat;
     last_run_time :=
       match completed_jobs with
       | last_job :: _ => completed_at last_job
       | [] => None
       end;
     stats_category_counts :=
       fold_left (fun category_totals job => add_counts (category_counts job) category_totals)
                 completed_jobs ∅;
     unread_count := 0 |}.

Section StatsRoute.
Context {Σ : Type}.

(** The database engine's [ORDER BY completed_at DESC] on the rows it
    has selected: where it puts rows without a completion time, and
    rows of equal time, is the engine's choice. *)
Variable order_by_completed_at_desc : list Job -> list Job.

(** The rows of the user's completed jobs. *)
Definition completed_rows (user_id : string) (jobs : gmap string Job) : list Job :=
  filter (fun job => job_user_id job = user_id /\ status job = COMPLETED)
         (map snd (map_to_list jobs)).

(** The query of [get_stats]: [.filter(..).order_by(..).limit(10).all()]. *)
Definition completed_jobs_of (user_id : string) (jobs : gmap string Job) : list Job :=
  take 10 (order_by_completed_at_desc (completed_rows user_id jobs)).

Definition get_stats (current_user_id : string) : M Σ Stats :=
  get_db (fun w => Some (Ok (stats_of (completed_jobs_of current_user_id (db_jobs w))), w)).

End StatsRoute.

(** An engine that puts the latest completion first, rows without a
    completion time last, and keeps rows of equal time in the order it
    found them. *)
Definition completion_key (job : Job) : Z :=
  match completed_at job with Some t => t | None => -1 end.
Fixpoint insert_newest (job : Job) (rows : list Job) : list Job :=
  match rows with
  | [] => [job]
  | row :: rest =>
      if completion_key row <? completion_key job then job :: rows
      else row :: insert_newest job rest
  end.
Definition newest_first (rows : list Job) : list Job :=
  fold_right insert_newest [] rows.

(* ===================================================================== *)
(** ** Runs that skip no message                                          *)
(* ===================================================================== *)

(** The history of the loop has grown by messages none of which was
    skipped. *)
Definition none_skipped {Σ : Type} (w w' : World Σ) : Prop :=
  exists t, trail w' = trail w ++ t /\ skipped t = 0%nat.

(** Every category of the catalog has a label id in the cache, and the
    id is not empty. *)
Definition labels_cached (label_cache : gmap string string) : Prop :=
  forall category, In category EmailClassifier.category_names ->
    exists label, label_cache !! category = Some label /\ Str.truthy label = true.

(** A classifier that cannot ask a model. *)
Definition rules_only (classifier : EmailClassifier.t) : Prop :=
  EmailClassifier.mode classifier = FAST \/ EmailClassifier.model classifier = None.

(* ===================================================================== *)
(** * Properties                                                          *)
(* ===================================================================== *)

(** ** Strings and keyword counts *)

Lemma any_keyword_score (kws : list string) (text : string) :
  EmailClassifier.any_keyword kws text = Nat.leb 1 (EmailClassifier.score kws text).
Proof.
  unfold EmailClassifier.any_keyword, EmailClassifier.score.
  induction kws as [|kw kws IH]; [reflexivity|].
  cbn [existsb]. rewrite filter_cons.
  destruct (Str.contains kw text) eqn:E.
  - rewrite decide_True by reflexivity. reflexivity.
  - rewrite decide_False by discriminate. exact IH.
Qed.

Lemma score_distinct (kws : list string) (text : string) :
  NoDup kws ->
  EmailClassifier.score kws text =
  size (filter (fun kw => Str.contains kw text = true) (list_to_set kws : gset string)).
Proof.
  intros Hnd. unfold EmailClassifier.score.
  rewrite <- (size_list_to_set (C := gset string)
                (filter (fun kw => Str.contains kw text = true) kws))
    by (apply NoDup_filter; exact Hnd).
  f_equal. apply set_eq. intros x.
  rewrite elem_of_list_to_set, elem_of_filter, list_elem_of_filter, elem_of_list_to_set.
  reflexivity.
Qed.

Lemma keywords_NoDup (category : string) : NoDup (EmailClassifier.keywords category).
Proof.
  unfold EmailClassifier.keywords.
  destruct (find _ EmailClassifier.CATEGORIES) as [p|] eqn:E; [|constructor].
  apply find_some in E. destruct E as [Hin _].
  cbn in Hin.
  repeat (destruct Hin as [<-|Hin]; [cbn; apply (bool_decide_unpack _); vm_compute; exact I|]).
  destruct Hin.
Qed.

Lemma score_hits (category text : string) :
  EmailClassifier.score (EmailClassifier.keywords category) text
  = RuleSpec.hits category text.
Proof. apply score_distinct, keywords_NoDup. Qed.

(** ** classifier.py *)

Lemma rule_based_first_match (text : string) :
  EmailClassifier._rule_based_classify text = RuleSpec.first_match text.
Proof.
  unfold EmailClassifier._rule_based_classify, RuleSpec.first_match, RuleSpec.priority.
  rewrite any_keyword_score. rewrite !score_hits.
  cbn [find fst snd fmap option_fmap option_map].
  repeat (match goal with |- context [Nat.leb ?a ?b] => destruct (Nat.leb a b) end;
          [reflexivity|]).
  reflexivity.
Qed.

Lemma rule_based_nonempty (text c : string) :
  EmailClassifier._rule_based_classify text = Some c -> c <> "".
Proof.
  unfold EmailClassifier._rule_based_classify.
  repeat (match goal with |- context [if ?b then _ else _] => destruct b end;
          [intros [= <-]; discriminate|]).
  discriminate.
Qed.

Lemma classify_rule (self : EmailClassifier.t) (subject body sender c : string) :
  EmailClassifier._rule_based_classify (EmailClassifier.text_of subject body sender) = Some c ->
  EmailClassifier.classify self subject body sender = Ok c.
Proof. intros H. unfold EmailClassifier.classify. rewrite H. reflexivity. Qed.

(** What [classify] returns, stage by stage. *)
Lemma classify_stages (self : EmailClassifier.t) (subject body sender : string) :
  let text := EmailClassifier.text_of subject body sender in
  EmailClassifier.classify self subject body sender =
  Ok match EmailClassifier._rule_based_classify text with
     | Some c => c
     | None =>
         match RuleSpec.prediction self text with
         | Some l => if Str.truthy l then l else "personal"
         | None => "personal"
         end
     end.
Proof.
  cbn zeta. unfold EmailClassifier.classify, RuleSpec.prediction,
    EmailClassifier._ml_classify.
  destruct (EmailClassifier._rule_based_classify _); [reflexivity|].
  destruct self as [md [m|]]; cbn [EmailClassifier.mode EmailClassifier.model].
  - destruct md; cbn; try reflexivity;
      destruct (EmailClassifier.predict m _) as [l|e]; try reflexivity;
      destruct (Str.truthy l); reflexivity.
  - destruct md; reflexivity.
Qed.

(** C6. The rule pass looks at the lower-cased text "subject body sender",
    returns the first category of the priority order spam (2 distinct
    keyword hits), security (2), finance (1), promotion (2), work (2) whose
    threshold is met, and [classify] returns that category; so a text with
    two spam keywords and two work keywords is classified spam, not work. *)
Theorem rule_pass_priority (self : EmailClassifier.t) (subject body sender : string) :
  let text := Str.lower (subject +:+ " " +:+ body +:+ " " +:+ sender) in
  EmailClassifier.text_of subject body sender = text /\
  EmailClassifier._rule_based_classify text = RuleSpec.first_match text /\
  (forall c, RuleSpec.first_match text = Some c ->
             EmailClassifier.classify self subject body sender = Ok c) /\
  ((2 <= RuleSpec.hits "spam" text)%nat -> (2 <= RuleSpec.hits "work" text)%nat ->
   EmailClassifier.classify self subject body sender = Ok "spam" /\
   EmailClassifier.classify self subject body sender <> Ok "work").
Proof.
  cbn zeta. split; [reflexivity|]. split; [apply rule_based_first_match|].
  split.
  - intros c Hc. apply classify_rule. rewrite rule_based_first_match. exact Hc.
  - intros Hspam _.
    assert (E : EmailClassifier.classify self subject body sender = Ok "spam").
    { apply classify_rule. rewrite rule_based_first_match.
      unfold RuleSpec.first_match, RuleSpec.priority. cbn [find fst snd].
      apply Nat.leb_le in Hspam. unfold EmailClassifier.text_of. rewrite Hspam.
      reflexivity. }
    split; [exact E|]. rewrite E. discriminate.
Qed.

Lemma rule_pass_priority_witness :
  EmailClassifier.classify {| EmailClassifier.mode := FAST; EmailClassifier.model := None |}
    "URGENT: lottery winner" "the project meeting is on monday" "team@office.example"
  = Ok "spam".
Proof.
  apply (rule_pass_priority
           {| EmailClassifier.mode := FAST; EmailClassifier.model := None |}
           "URGENT: lottery winner" "the project meeting is on monday"
           "team@office.example").
  - vm_compute. lia.
  - vm_compute. lia.
Defined.

(** C7. [classify] returns a non-empty category name on every input and
    never raises; when no rule matches and the fallback gives no prediction
    (the mode is FAST, no model is loaded, or the model raises, which is
    swallowed) the result is "personal". *)
Theorem classify_never_fails (self : EmailClassifier.t) (subject body sender : string) :
  let text := EmailClassifier.text_of subject body sender in
  (exists c, EmailClassifier.classify self subject body sender = Ok c /\ c <> "") /\
  (EmailClassifier._rule_based_classify text = None ->
   RuleSpec.prediction self text = None ->
   EmailClassifier.classify self subject body sender = Ok "personal") /\
  (forall m e,
     EmailClassifier._rule_based_classify text = None ->
     EmailClassifier.model self = Some m ->
     EmailClassifier.predict m text = Raise e ->
     EmailClassifier.classify self subject body sender = Ok "personal").
Proof.
  cbn zeta. pose proof (classify_stages self subject body sender) as Hst.
  cbn zeta in Hst. split; [|split].
  - eexists. split; [exact Hst|].
    destruct (EmailClassifier._rule_based_classify _) as [c|] eqn:Hr.
    + eapply rule_based_nonempty. exact Hr.
    + destruct (RuleSpec.prediction self _) as [l|]; [|discriminate].
      destruct l; [discriminate|]. cbn. discriminate.
  - intros Hr Hp. rewrite Hst, Hr, Hp. reflexivity.
  - intros m e Hr Hm He. rewrite Hst, Hr. unfold RuleSpec.prediction.
    rewrite Hm, He. destruct (EmailClassifier.mode self); reflexivity.
Qed.

Lemma classify_never_fails_witness :
  EmailClassifier.classify
    {| EmailClassifier.mode := BALANCED;
       EmailClassifier.model :=
         Some {| EmailClassifier.predict := fun _ => Raise (OtherException "not fitted") |} |}
    "hello" "see you on sunday" "ann@example.org"
  = Ok "personal".
Proof.
  apply (classify_never_fails
           {| EmailClassifier.mode := BALANCED;
              EmailClassifier.model :=
                Some {| EmailClassifier.predict :=
                          fun _ => Raise (OtherException "not fitted") |} |}
           "hello" "see you on sunday" "ann@example.org").
  - vm_compute. reflexivity.
  - vm_compute. reflexivity.
Defined.

(** ** The monad *)

Section MonadFacts.
Context {Σ : Type}.
Implicit Types w : World Σ.

Lemma bind_inv {A B} (m : M Σ A) (f : A -> M Σ B) w r w' :
  bind m f w = Some (r, w') ->
  (exists a w1, m w = Some (Ok a, w1) /\ f a w1 = Some (r, w')) \/
  (exists e, m w = Some (Raise e, w') /\ r = Raise e).
Proof.
  unfold bind. destruct (m w) as [[[a|e] w1]|]; [| |discriminate].
  - intros H. left. eauto.
  - intros [= <- <-]. right. eauto.
Qed.

Lemma try_except_inv {A} (m : M Σ A) catches h w r w' :
  try_except m catches h w = Some (r, w') ->
  (exists a, m w = Some (Ok a, w') /\ r = Ok a) \/
  (exists e w1, m w = Some (Raise e, w1) /\ catches e = true /\ h e w1 = Some (r, w')) \/
  (exists e, m w = Some (Raise e, w') /\ catches e = false /\ r = Raise e).
Proof.
  unfold try_except. destruct (m w) as [[[a|e] w1]|]; [| |discriminate].
  - intros [= <- <-]. left. eauto.
  - destruct (catches e) eqn:E.
    + intros H. right. left. eauto 6.
    + intros [= <- <-]. right. right. eauto.
Qed.

Lemma bind_ok {A B} (m : M Σ A) (f : A -> M Σ B) w a w1 :
  m w = Some (Ok a, w1) -> bind m f w = f a w1.
Proof. unfold bind. intros ->. reflexivity. Qed.

Lemma bind_raise {A B} (m : M Σ A) (f : A -> M Σ B) w e w1 :
  m w = Some (Raise e, w1) -> bind m f w = Some (Raise e, w1).
Proof. unfold bind. intros ->. reflexivity. Qed.

(** *** Computations that return *)

Lemma returns_ret {A} (a : A) : returns (Σ := Σ) (ret a).
Proof. intros w. unfold ret. eauto. Qed.
Lemma returns_raise {A} e : returns (Σ := Σ) (raise (A := A) e).
Proof. intros w. unfold raise. eauto. Qed.
Lemma returns_bind {A B} (m : M Σ A) (f : A -> M Σ B) :
  returns m -> (forall a, returns (f a)) -> returns (bind m f).
Proof.
  intros Hm Hf w. destruct (Hm w) as ([a|e] & w1 & E).
  - rewrite (bind_ok _ _ _ _ _ E). apply Hf.
  - rewrite (bind_raise _ _ _ _ _ E). eauto.
Qed.
Lemma returns_try_except {A} (m : M Σ A) catches h :
  returns m -> (forall e, returns (h e)) -> returns (try_except m catches h).
Proof.
  intros Hm Hh w. unfold try_except. destruct (Hm w) as ([a|e] & w1 & ->); [eauto|].
  destruct (catches e); [apply Hh|eauto].
Qed.
Lemma returns_lift_res {A} (r : res A) : returns (Σ := Σ) (lift_res r).
Proof. destruct r; [apply returns_ret|apply returns_raise]. Qed.
Lemma returns_log c : returns (Σ := Σ) (log c).
Proof. intros w. unfold log. eauto. Qed.
Lemma returns_note id o : returns (Σ := Σ) (note id o).
Proof. intros w. unfold note. eauto. Qed.
Lemma returns_call {A} c (f : Σ -> res A * Σ) : returns (call c f).
Proof. intros w. unfold call. destruct (f (prov w)). eauto. Qed.
Lemma returns_observe {A} c (f : Σ -> res A * Σ) : returns (observe c f).
Proof. intros w. unfold observe. destruct (f (prov w)). eauto. Qed.
Lemma returns_ask {A} (f : Σ -> A) : returns (ask f).
Proof. intros w. unfold ask. eauto. Qed.
Lemma returns_modify_job f : returns (Σ := Σ) (modify_job f).
Proof. intros w. unfold modify_job. eauto. Qed.
Lemma returns_modify_user f : returns (Σ := Σ) (modify_user f).
Proof. intros w. unfold modify_user. eauto. Qed.
Lemma returns_db_commit : returns (Σ := Σ) db_commit.
Proof. intros w. unfold db_commit. eauto. Qed.

Lemma returns_retrying {A} n k retry_on (fn : M Σ A) :
  returns fn -> returns (retrying n k retry_on fn).
Proof.
  intros Hfn. revert k. induction n as [|n IH]; intros k w; cbn [retrying];
    destruct (Hfn w) as ([a|e] & w1 & ->); eauto;
    destruct (retry_on e); eauto.
  apply returns_bind; [apply returns_log|intros _; apply IH].
Qed.

Lemma returns_retry {A} n retry_on (fn : M Σ A) :
  returns fn -> returns (retry n retry_on fn).
Proof. apply returns_retrying. Qed.

(** *** Relations kept by every return *)

Section Pres.
Context (R : World Σ -> World Σ -> Prop) `{!PreOrder R}.

Lemma pres_ret {A} (a : A) : pres R (ret a).
Proof. intros w r w' [= <- <-]. reflexivity. Qed.
Lemma pres_raise {A} e : pres R (raise (A := A) e).
Proof. intros w r w' [= <- <-]. reflexivity. Qed.
Lemma pres_diverge {A} : pres R (diverge (A := A)).
Proof. intros w r w' [=]. Qed.
Lemma pres_lift_res {A} (r : res A) : pres R (lift_res r).
Proof. destruct r; [apply pres_ret|apply pres_raise]. Qed.
Lemma pres_ask {A} (f : Σ -> A) : pres R (ask f).
Proof. intros w r w' [= <- <-]. reflexivity. Qed.
Lemma pres_bind {A B} (m : M Σ A) (f : A -> M Σ B) :
  pres R m -> (forall a, pres R (f a)) -> pres R (bind m f).
Proof.
  intros Hm Hf w r w' H. apply bind_inv in H as [(a & w1 & H1 & H2)|(e & H1 & _)].
  - transitivity w1; [eapply Hm|eapply Hf]; eassumption.
  - eapply Hm; eassumption.
Qed.
Lemma pres_try_except {A} (m : M Σ A) catches h :
  pres R m -> (forall e, pres R (h e)) -> pres R (try_except m catches h).
Proof.
  intros Hm Hh w r w' H.
  apply try_except_inv in H as [(a & H1 & _)|[(e & w1 & H1 & _ & H2)|(e & H1 & _)]].
  - eapply Hm; eassumption.
  - transitivity w1; [eapply Hm|eapply Hh]; eassumption.
  - eapply Hm; eassumption.
Qed.
Lemma pres_retrying {A} n k retry_on (fn : M Σ A) :
  (forall k, pres R (log (CBackoff k))) ->
  pres R fn -> pres R (retrying n k retry_on fn).
Proof.
  intros Hlog Hfn. revert k. induction n as [|n IH]; intros k w r w' H;
    cbn [retrying] in H; destruct (fn w) as [[[a|e] w1]|] eqn:E; try discriminate.
  - injection H as <- <-. eapply Hfn; eassumption.
  - destruct (retry_on e); injection H as <- <-; eapply Hfn; eassumption.
  - injection H as <- <-. eapply Hfn; eassumption.
  - destruct (retry_on e).
    + transitivity w1; [eapply Hfn; eassumption|].
      revert H. apply pres_bind; [apply Hlog|intros _; apply IH].
    + injection H as <- <-. eapply Hfn; eassumption.
Qed.
End Pres.

End MonadFacts.

(** ** The call log *)

Section LogFacts.
Context {Σ : Type}.
Implicit Types w : World Σ.

#[global] Instance served_preorder ok : PreOrder (served (Σ := Σ) ok).
Proof.
  split.
  - intros w. unfold served. repeat split; try reflexivity.
    exists []. rewrite app_nil_r. split; [reflexivity|constructor].
  - intros w1 w2 w3 (J1 & U1 & SJ1 & SU1 & T1 & l1 & C1 & F1)
                     (J2 & U2 & SJ2 & SU2 & T2 & l2 & C2 & F2).
    unfold served. repeat split; try congruence.
    exists (l1 ++ l2). rewrite C2, C1, app_assoc. split; [reflexivity|].
    apply Forall_app; split; assumption.
Qed.

#[global] Instance logged_preorder ok : PreOrder (logged (Σ := Σ) ok).
Proof.
  split.
  - intros w. exists []. rewrite app_nil_r. split; [reflexivity|constructor].
  - intros w1 w2 w3 (l1 & C1 & F1) (l2 & C2 & F2).
    exists (l1 ++ l2). rewrite C2, C1, app_assoc. split; [reflexivity|].
    apply Forall_app; split; assumption.
Qed.

Lemma served_logged ok w w' : served ok w w' -> logged ok w w'.
Proof. intros (_ & _ & _ & _ & _ & H). exact H. Qed.

Lemma served_weaken (ok ok' : Call -> Prop) w w' :
  (forall c, ok c -> ok' c) -> served ok w w' -> served ok' w w'.
Proof.
  intros Himp (J & U & SJ & SU & T & l & C & F).
  unfold served. repeat split; try assumption.
  exists l. split; [assumption|]. eapply Forall_impl; eassumption.
Qed.

Lemma pres_weaken {A} (R R' : World Σ -> World Σ -> Prop) (m : M Σ A) :
  (forall w w', R w w' -> R' w w') -> pres R m -> pres R' m.
Proof. intros Himp Hm w r w' H. apply Himp. eapply Hm. exact H. Qed.

Lemma served_log (ok : Call -> Prop) c : ok c -> pres (served ok) (log (Σ := Σ) c).
Proof.
  intros Hc w r w' [= <- <-]. unfold served; cbn. repeat split.
  exists [c]. split; [reflexivity|]. constructor; [assumption|constructor].
Qed.

Lemma served_call {A} (ok : Call -> Prop) c (f : Σ -> res A * Σ) :
  ok c -> pres (served ok) (call c f).
Proof.
  intros Hc w r w' H. unfold call in H. destruct (f (prov w)) as [r0 s].
  injection H as <- <-. unfold served; cbn. repeat split.
  exists [c]. split; [reflexivity|]. constructor; [assumption|constructor].
Qed.

Lemma service_call_removes_nothing c : service_call c -> removes_nothing c.
Proof. destruct c; cbn; try tauto. destruct removeLabelIds; [reflexivity|tauto]. Qed.

Lemma count_calls_app kind (l1 l2 : list Call) :
  count_calls kind (l1 ++ l2) = (count_calls kind l1 + count_calls kind l2)%nat.
Proof. induction l1 as [|c l1 IH]; cbn; [reflexivity|]. rewrite IH. lia. Qed.

End LogFacts.

(** ** gmail_service.py: fetching a message *)

Section Detail.
Context {Σ : Type} (P : Provider Σ).
Implicit Types w : World Σ.

(** One attempt, by the answer of the provider. *)
Lemma get_message_detail_once_eq (id : string) w :
  GmailService.get_message_detail_once P id w =
  let w1 := with_prov (messages_get P id (prov w)).2
              (with_calls (calls w ++ [CMessagesGet id]) w) in
  match (messages_get P id (prov w)).1 with
  | Ok msg => Some (Ok (Some (GmailService.detail_of id msg)), w1)
  | Raise e => if is_HttpError e then Some (Ok None, w1) else Some (Raise e, w1)
  end.
Proof.
  unfold GmailService.get_message_detail_once, try_except, bind, call, ret.
  destruct (messages_get P id (prov w)) as [[msg|e] s]; cbn; [reflexivity|].
  destruct (is_HttpError e); reflexivity.
Qed.

Lemma returns_get_message_detail (id : string) :
  returns (GmailService.get_message_detail P id).
Proof.
  apply returns_retry, returns_try_except.
  - apply returns_bind; [apply returns_call|intros; apply returns_ret].
  - intros; apply returns_ret.
Qed.

Lemma served_get_message_detail (id : string) :
  pres (served service_call) (GmailService.get_message_detail P id).
Proof.
  apply pres_retrying; [typeclasses eauto| |].
  - intros k. apply served_log. exact I.
  - apply pres_try_except; [typeclasses eauto| |].
    + apply pres_bind; [typeclasses eauto| |].
      * apply served_call. exact I.
      * intros. apply pres_ret. typeclasses eauto.
    + intros. apply pres_ret. typeclasses eauto.
Qed.

(** C5, as the code has it.  [get_message_detail] answers absent at once,
    on the attempt at which the provider raises any [HttpError] (404, 429
    and 5xx alike), with no retry and no wait.  Only exceptions that are
    not [HttpError]s are retried, with a backoff wait between attempts:
    two such failures followed by a success give the message, three give
    a [RetryError].  In every case the call returns, after one to three
    attempts. *)
Theorem get_message_detail_retry (id : string) w :
  (forall st s1,
     messages_get P id (prov w) = (Raise (HttpError st), s1) ->
     exists w', GmailService.get_message_detail P id w = Some (Ok None, w') /\
                prov w' = s1 /\ calls w' = calls w ++ [CMessagesGet id]) /\
  (forall e1 e2 s1 s2 s3 msg,
     is_HttpError e1 = false -> is_HttpError e2 = false ->
     messages_get P id (prov w) = (Raise e1, s1) ->
     messages_get P id s1 = (Raise e2, s2) ->
     messages_get P id s2 = (Ok msg, s3) ->
     exists w', GmailService.get_message_detail P id w
                = Some (Ok (Some (GmailService.detail_of id msg)), w') /\
                prov w' = s3 /\
                calls w' = calls w ++ [CMessagesGet id; CBackoff 1; CMessagesGet id;
                                       CBackoff 2; CMessagesGet id]) /\
  (forall e1 e2 e3 s1 s2 s3,
     is_HttpError e1 = false -> is_HttpError e2 = false -> is_HttpError e3 = false ->
     messages_get P id (prov w) = (Raise e1, s1) ->
     messages_get P id s1 = (Raise e2, s2) ->
     messages_get P id s2 = (Raise e3, s3) ->
     exists w', GmailService.get_message_detail P id w = Some (Raise (RetryError e3), w') /\
                prov w' = s3 /\
                calls w' = calls w ++ [CMessagesGet id; CBackoff 1; CMessagesGet id;
                                       CBackoff 2; CMessagesGet id]) /\
  (exists r w' l, GmailService.get_message_detail P id w = Some (r, w') /\
                  calls w' = calls w ++ l /\
                  (1 <= count_calls is_get l <= 3)%nat).
Proof.
  unfold GmailService.get_message_detail, retry. cbn [Nat.sub retrying].
  repeat split.
  - intros st s1 H. rewrite get_message_detail_once_eq, H. cbn. eauto.
  - intros e1 e2 s1 s2 s3 msg N1 N2 H1 H2 H3.
    rewrite get_message_detail_once_eq, H1. cbn. rewrite N1. cbn.
    rewrite get_message_detail_once_eq. cbn. rewrite H2. cbn. rewrite N2. cbn.
    rewrite get_message_detail_once_eq. cbn. rewrite H3. cbn.
    eexists. split; [reflexivity|]. cbn. rewrite <- !app_assoc. split; reflexivity.
  - intros e1 e2 e3 s1 s2 s3 N1 N2 N3 H1 H2 H3.
    rewrite get_message_detail_once_eq, H1. cbn. rewrite N1. cbn.
    rewrite get_message_detail_once_eq. cbn. rewrite H2. cbn. rewrite N2. cbn.
    rewrite get_message_detail_once_eq. cbn. rewrite H3. cbn. rewrite N3.
    eexists. split; [reflexivity|]. cbn. rewrite <- !app_assoc. split; reflexivity.
  - rewrite get_message_detail_once_eq.
    destruct (messages_get P id (prov w)) as [[m1|e1] s1]; cbn.
    { do 3 eexists. split; [reflexivity|]. cbn. split; [reflexivity|]. cbn. lia. }
    destruct (is_HttpError e1); cbn.
    { do 3 eexists. split; [reflexivity|]. cbn. split; [reflexivity|]. cbn. lia. }
    rewrite get_message_detail_once_eq. cbn.
    destruct (messages_get P id s1) as [[m2|e2] s2]; cbn.
    { do 3 eexists. split; [reflexivity|]. cbn. rewrite <- !app_assoc.
      split; [reflexivity|]. cbn. lia. }
    destruct (is_HttpError e2); cbn.
    { do 3 eexists. split; [reflexivity|]. cbn. rewrite <- !app_assoc.
      split; [reflexivity|]. cbn. lia. }
    rewrite get_message_detail_once_eq. cbn.
    destruct (messages_get P id s2) as [[m3|e3] s3]; cbn.
    { do 3 eexists. split; [reflexivity|]. cbn. rewrite <- !app_assoc.
      split; [reflexivity|]. cbn. lia. }
    destruct (is_HttpError e3); cbn.
    { do 3 eexists. split; [reflexivity|]. cbn. rewrite <- !app_assoc.
      split; [reflexivity|]. cbn. lia. }
    do 3 eexists. split; [reflexivity|]. cbn. rewrite <- !app_assoc.
    split; [reflexivity|]. cbn. lia.
Qed.

End Detail.

Lemma get_message_detail_retry_witness :
  exists w', GmailService.get_message_detail Mock.provider "m1" Scenario.timeouts
             = Some (Ok (Some (GmailService.detail_of "m1" Scenario.hello)), w') /\
             calls w' = [CMessagesGet "m1"; CBackoff 1; CMessagesGet "m1";
                         CBackoff 2; CMessagesGet "m1"].
Proof.
  destruct (get_message_detail_retry Mock.provider "m1" Scenario.timeouts)
    as (_ & H & _).
  destruct (H (OtherException "timed out") (OtherException "timed out")
              (Mock.with_get_script [OtherException "timed out"]
                 (Mock.mailbox [("m1", Scenario.hello)]))
              (Mock.mailbox [("m1", Scenario.hello)])
              (Mock.mailbox [("m1", Scenario.hello)])
              Scenario.hello
              eq_refl eq_refl eq_refl eq_refl eq_refl) as (w' & E & _ & C).
  exists w'. split; [exact E|exact C].
Defined.

(** C5 fails as stated.  In the first world the provider answers 403: the
    error does not propagate, [get_message_detail] returns absent.  In the
    second the provider answers 429 twice and would serve the message on
    the third call: [get_message_detail] returns absent after a single
    attempt. *)
Lemma get_message_detail_http_errors :
  (messages_get Mock.provider "m1" (prov Scenario.forbidden)).1 = Raise (HttpError 403) /\
  (exists w', GmailService.get_message_detail Mock.provider "m1" Scenario.forbidden
              = Some (Ok None, w') /\
              calls w' = [CMessagesGet "m1"]) /\
  (exists s1 s2 s3,
     messages_get Mock.provider "m1" (prov Scenario.rate_limited)
       = (Raise (HttpError 429), s1) /\
     messages_get Mock.provider "m1" s1 = (Raise (HttpError 429), s2) /\
     messages_get Mock.provider "m1" s2 = (Ok Scenario.hello, s3)) /\
  (exists w', GmailService.get_message_detail Mock.provider "m1" Scenario.rate_limited
              = Some (Ok None, w') /\
              calls w' = [CMessagesGet "m1"]).
Proof.
  split; [reflexivity|]. split; [|split].
  - eexists. split; reflexivity.
  - do 3 eexists. repeat split; reflexivity.
  - eexists. split; reflexivity.
Qed.

(** ** gmail_service.py: listing the message ids *)

Lemma retrying_ok_inv {Σ A} n k retry_on (fn : M Σ A) (w : World Σ) a w' :
  retrying n k retry_on fn w = Some (Ok a, w') ->
  exists w0, fn w0 = Some (Ok a, w').
Proof.
  revert k w. induction n as [|n IH]; intros k w H; cbn [retrying] in H;
    destruct (fn w) as [[[a0|e] w1]|] eqn:E; try discriminate.
  - injection H as <- <-. eauto.
  - destruct (retry_on e); discriminate.
  - injection H as <- <-. eauto.
  - destruct (retry_on e); [|discriminate].
    apply bind_inv in H as [(? & w2 & _ & H)|(? & _ & [=])]. eapply IH. exact H.
Qed.

Lemma slice_to_length {A} (n : Z) (l : list A) :
  0 <= n -> Z.of_nat (length (slice_to n l)) <= n.
Proof.
  intros Hn. unfold slice_to. replace (n <? 0) with false by lia.
  rewrite length_take. lia.
Qed.

(** Whatever the provider answers, a list that [get_messages] returns for
    a limit [N >= 1] has at most [N] ids. *)
Lemma get_messages_never_exceeds {Σ} (P : Provider Σ) (settings : Settings)
    fuel scope (N : Z) (w : World Σ) ids w' :
  1 <= N ->
  GmailService.get_messages P settings fuel scope (Some N) w = Some (Ok ids, w') ->
  Z.of_nat (length ids) <= N.
Proof.
  intros HN H. unfold GmailService.get_messages, retry in H.
  apply retrying_ok_inv in H as (w0 & H).
  unfold GmailService.get_messages_once in H.
  replace (N =? 0) with false in H by lia.
  apply bind_inv in H as [(q & w1 & _ & H)|(? & _ & [=])].
  apply try_except_inv in H as [(a & H & [= <-])|[(e & w2 & _ & _ & [=])|(e & _ & _ & [=])]].
  apply bind_inv in H as [(l & w2 & _ & [= <- _])|(? & _ & [=])].
  apply slice_to_length. lia.
Qed.

Section Pagination.
Context {Σ : Type} (P : Provider Σ) (settings : Settings).
Implicit Types w : World Σ.

(** The provider's side of pagination: for each query, the ids that
    match it, in the provider's order; a page of size [k] at a token is
    the next [k] of them, with a token exactly when more remain. *)
Variable avail : string -> list string.
Variable offset : option string -> nat.
Variable serving : Σ -> Prop.      (* the provider states that serve [avail] *)
Hypothesis offset_start : offset None = 0%nat.
Hypothesis list_page : forall q t k s,
  serving s -> 1 <= k <= 500 ->
  exists r s',
    messages_list P q t k s = (Ok r, s') /\ serving s' /\
    match messages r with Some l => l | None => [] end
      = take (Z.to_nat k) (drop (offset t) (avail q)) /\
    match nextPageToken r with
    | Some t' => Str.truthy t' = true /\
                 offset (Some t') = (offset t + Z.to_nat k)%nat /\
                 (offset t + Z.to_nat k < length (avail q))%nat
    | None => (length (avail q) <= offset t + Z.to_nat k)%nat
    end.

Lemma build_query_returns scope w :
  exists q, GmailService._build_query P scope w = Some (Ok q, w).
Proof. destruct scope; cbn; eauto. Qed.

Lemma pages_spec q N :
  0 <= N ->
  forall fuel ids t w,
    serving (prov w) ->
    ids = take (length ids) (avail q) ->
    offset t = length ids ->
    (length ids <= Z.to_nat N)%nat ->
    (Z.to_nat N - length ids < fuel)%nat ->
    exists w', GmailService.pages P fuel q N ids t w
               = Some (Ok (take (Z.to_nat N) (avail q)), w').
Proof.
  intros HN. induction fuel as [|fuel IH]; intros ids t w Hs Hpre Hoff Hle Hfuel; [lia|].
  cbn [GmailService.pages].
  destruct (Z.ltb_spec (Z.of_nat (length ids)) N) as [Hlt|Hge].
  - set (k := Z.min 500 (N - Z.of_nat (length ids))).
    assert (Hk : 1 <= k <= 500) by lia.
    destruct (list_page q t k (prov w) Hs Hk) as (r & s' & Hcall & Hs' & Hmsgs & Hnext).
    unfold bind at 1. unfold call at 1. rewrite Hcall. rewrite Hmsgs.
    assert (Hids' : ids ++ take (Z.to_nat k) (drop (offset t) (avail q))
                    = take (length ids + Z.to_nat k) (avail q)).
    { rewrite Hoff. rewrite Hpre at 1. rewrite <- take_take_drop. reflexivity. }
    rewrite Hids'.
    destruct (nextPageToken r) as [t'|].
    + destruct Hnext as (Ht & Ho & Hlen). rewrite Ht.
      unfold bind at 1. unfold log at 1.
      apply IH.
      * exact Hs'.
      * rewrite length_take. rewrite Nat.min_l by lia.
        reflexivity.
      * rewrite Ho, Hoff, length_take. lia.
      * rewrite length_take. lia.
      * rewrite length_take. lia.
    + unfold ret. eexists. f_equal. f_equal. f_equal.
      rewrite !take_ge by lia. reflexivity.
  - unfold ret. eexists. f_equal. f_equal. f_equal.
    rewrite Hpre. f_equal. lia.
Qed.

(** C8, as the code has it.  For a limit [N >= 1], and enough fuel for
    the pages, [get_messages] returns the first [min(N, available)] ids
    of the listing, in order; a limit of 0 or none stands for the
    configured [GMAIL_MAX_RESULTS]. *)
Theorem get_messages_min (scope : EmailScope) (N : Z) (fuel : nat) w :
  serving (prov w) -> 1 <= N -> (Z.to_nat N < fuel)%nat ->
  (exists q w',
     GmailService._build_query P scope w = Some (Ok q, w) /\
     GmailService.get_messages P settings fuel scope (Some N) w
       = Some (Ok (take (Z.to_nat N) (avail q)), w') /\
     Z.of_nat (length (take (Z.to_nat N) (avail q)))
       = Z.min N (Z.of_nat (length (avail q)))) /\
  GmailService.get_messages P settings fuel scope (Some 0) w
    = GmailService.get_messages P settings fuel scope (Some (GMAIL_MAX_RESULTS settings)) w /\
  GmailService.get_messages P settings fuel scope None w
    = GmailService.get_messages P settings fuel scope (Some (GMAIL_MAX_RESULTS settings)) w.
Proof.
  intros Hs HN Hfuel. split; [|split].
  - destruct (build_query_returns scope w) as (q & Hq).
    destruct (pages_spec q N ltac:(lia) fuel [] None w) as (w' & Hp);
      [exact Hs|reflexivity|exact offset_start|cbn; lia|cbn; lia|].
    exists q, w'. split; [exact Hq|]. split.
    + unfold GmailService.get_messages, retry. cbn [Nat.sub retrying].
      unfold GmailService.get_messages_once.
      replace (N =? 0) with false by lia.
      rewrite (bind_ok _ _ _ _ _ Hq).
      unfold try_except. rewrite (bind_ok _ _ _ _ _ Hp). unfold ret.
      unfold slice_to. replace (N <? 0) with false by lia.
      rewrite take_take, Nat.min_id. reflexivity.
    + rewrite length_take. lia.
  - unfold GmailService.get_messages, GmailService.get_messages_once. cbn.
    destruct (GMAIL_MAX_RESULTS settings =? 0) eqn:E; [|reflexivity].
    apply Z.eqb_eq in E. rewrite E. reflexivity.
  - unfold GmailService.get_messages, GmailService.get_messages_once. cbn.
    destruct (GMAIL_MAX_RESULTS settings =? 0) eqn:E; [|reflexivity].
    apply Z.eqb_eq in E. rewrite E. reflexivity.
Qed.

End Pagination.

(** The mock mailbox keeps the provider's side of pagination. *)
Lemma mock_token_length (n : nat) : String.length (Mock.token_of n) = n.
Proof. induction n as [|n IH]; cbn; [reflexivity|]. rewrite IH. reflexivity. Qed.

Lemma mock_list_page (ids : list string) (q : string) (t : option string) (k : Z)
    (s : Mock.State) :
  Mock.listing s = ids -> 1 <= k <= 500 ->
  exists r s',
    messages_list Mock.provider q t k s = (Ok r, s') /\ Mock.listing s' = ids /\
    match messages r with Some l => l | None => [] end
      = take (Z.to_nat k) (drop (Mock.offset_of t) ids) /\
    match nextPageToken r with
    | Some t' => Str.truthy t' = true /\
                 Mock.offset_of (Some t') = (Mock.offset_of t + Z.to_nat k)%nat /\
                 (Mock.offset_of t + Z.to_nat k < length ids)%nat
    | None => (length ids <= Mock.offset_of t + Z.to_nat k)%nat
    end.
Proof.
  intros Hs Hk. exists (Mock.page ids t k), s. subst ids.
  split; [reflexivity|]. split; [reflexivity|]. split; [reflexivity|].
  unfold Mock.page. cbn [nextPageToken].
  destruct (Nat.ltb_spec (Mock.offset_of t + Z.to_nat k) (length (Mock.listing s)))
    as [Hlt|Hge].
  - split; [|split; [|exact Hlt]].
    + destruct (Mock.offset_of t + Z.to_nat k)%nat eqn:E; [lia|reflexivity].
    + cbn. apply mock_token_length.
  - exact Hge.
Qed.

Lemma get_messages_min_witness :
  exists w', GmailService.get_messages Mock.provider default_settings 3 UNREAD (Some 2)
               Scenario.three
             = Some (Ok ["m1"; "m2"], w').
Proof.
  destruct (get_messages_min Mock.provider default_settings
              (fun _ => ["m1"; "m2"; "m3"]) Mock.offset_of
              (fun s => Mock.listing s = ["m1"; "m2"; "m3"])
              eq_refl
              (fun q t k s => mock_list_page ["m1"; "m2"; "m3"] q t k s)
              UNREAD 2 3%nat Scenario.three eq_refl ltac:(lia) ltac:(lia))
    as ((q & w' & _ & E & _) & _).
  exists w'. exact E.
Defined.

(** C8 fails as stated at [maxResults = 0]: the limit falls back to the
    configured 500 and the one available id is returned. *)
Lemma get_messages_zero_limit :
  exists w', GmailService.get_messages Mock.provider default_settings 10 UNREAD (Some 0)
               (Mock.world (Mock.mailbox [("m1", Scenario.hello)]) "fast" "unread")
             = Some (Ok ["m1"], w') /\
             (Z.of_nat (length ["m1"]) > Z.min 0 1).
Proof. eexists. split; [reflexivity|]. cbn. lia. Qed.

(** ** gmail_service.py: labels *)

Lemma find_app_Some {A} (p : A -> bool) (l more : list A) (x : A) :
  find p l = Some x -> find p (l ++ more) = Some x.
Proof.
  induction l as [|a l IH]; cbn; [discriminate|].
  destruct (p a); [trivial|exact IH].
Qed.

Lemma find_app_None {A} (p : A -> bool) (l more : list A) :
  find p l = None -> find p (l ++ more) = find p more.
Proof.
  induction l as [|a l IH]; cbn; [reflexivity|].
  destruct (p a); [discriminate|exact IH].
Qed.

Section Labels.
Context {Σ : Type} (P : Provider Σ).
Implicit Types w : World Σ.

(** The provider's side of the label store: listing returns the stored
    labels; creating stores a label of the given name after them. *)
Variable remote_labels : Σ -> list Label.
Hypothesis list_ok : forall s, labels_list P s = (Ok (remote_labels s), s).
Hypothesis create_ok : forall name s,
  exists l s', labels_create P name s = (Ok l, s') /\
               label_name l = name /\
               remote_labels s' = remote_labels s ++ [l].

Lemma create_label_found name w l :
  GmailService.find_label name (remote_labels (prov w)) = Some l ->
  GmailService.create_label P name w
  = Some (Ok (label_id l), with_prov (prov w) (with_calls (calls w ++ [CLabelsList]) w)).
Proof.
  intros Hf. unfold GmailService.create_label, retry. cbn [Nat.sub retrying].
  unfold GmailService.create_label_once, try_except, bind, call.
  rewrite list_ok, Hf. reflexivity.
Qed.


End Labels.


(** ** The worker: what its steps keep *)

Section WorkerFacts.
Context {Σ : Type}.
Implicit Types w : World Σ.

#[global] Instance kept_preorder ok : PreOrder (kept (Σ := Σ) ok).
Proof.
  split.
  - intros w. unfold kept. repeat split.
    exists []. rewrite app_nil_r. split; [reflexivity|constructor].
  - intros w1 w2 w3 (J1 & T1 & l1 & C1 & F1) (J2 & T2 & l2 & C2 & F2).
    unfold kept. repeat split; try congruence.
    exists (l1 ++ l2). rewrite C2, C1, app_assoc. split; [reflexivity|].
    apply Forall_app; split; assumption.
Qed.

Lemma served_kept ok w w' : served ok w w' -> kept ok w w'.
Proof. intros (_ & _ & J & _ & T & H). unfold kept. auto. Qed.

Lemma kept_logged ok w w' : kept ok w w' -> logged ok w w'.
Proof. intros (_ & _ & H). exact H. Qed.

Lemma served_service_kept {A} (m : M Σ A) :
  pres (served service_call) m -> pres (kept removes_nothing) m.
Proof.
  apply pres_weaken. intros w w' H. apply served_kept.
  eapply served_weaken; [exact service_call_removes_nothing|exact H].
Qed.

Lemma kept_logged_pres {A} ok (m : M Σ A) : pres (kept ok) m -> pres (logged ok) m.
Proof. apply pres_weaken. intros w w'. apply kept_logged. Qed.

Lemma kept_modify_user ok f : pres (kept ok) (modify_user (Σ := Σ) f).
Proof.
  intros w r w' [= <- <-]. unfold kept; cbn. repeat split.
  exists []. rewrite app_nil_r. split; [reflexivity|constructor].
Qed.

Lemma kept_db_commit (ok : Call -> Prop) :
  (forall s, ok (CCommit s)) -> pres (kept ok) (db_commit (Σ := Σ)).
Proof.
  intros Hok w r w' [= <- <-]. unfold kept; cbn. repeat split.
  eexists. split; [reflexivity|]. constructor; [apply Hok|constructor].
Qed.

Lemma logged_modify_job ok f : pres (logged ok) (modify_job (Σ := Σ) f).
Proof.
  intros w r w' [= <- <-]. exists []. cbn. rewrite app_nil_r.
  split; [reflexivity|constructor].
Qed.

Lemma logged_note ok id o : pres (logged ok) (note (Σ := Σ) id o).
Proof.
  intros w r w' [= <- <-]. exists []. cbn. rewrite app_nil_r.
  split; [reflexivity|constructor].
Qed.

End WorkerFacts.

(** Structural steps of a proof that a computation keeps a relation. *)
Ltac pres_step :=
  lazymatch goal with
  | |- pres _ (bind _ _) => apply pres_bind; [typeclasses eauto| |intros]
  | |- pres _ (try_except _ _ _) => apply pres_try_except; [typeclasses eauto| |intros]
  | |- pres _ (ret _) => apply pres_ret; typeclasses eauto
  | |- pres _ (raise _) => apply pres_raise; typeclasses eauto
  | |- pres _ (lift_res _) => apply pres_lift_res; typeclasses eauto
  | |- pres _ (ask _) => apply pres_ask; typeclasses eauto
  | |- pres _ (retry _ _ _) => apply pres_retrying; [typeclasses eauto|intros|]
  | |- pres (served _) (log _) => apply served_log; exact I
  | |- pres (served _) (call _ _) => apply served_call; exact I
  | |- pres _ (match ?x with _ => _ end) => destruct x
  end.

Ltac returns_step :=
  lazymatch goal with
  | |- returns (bind _ _) => apply returns_bind; [|intros]
  | |- returns (try_except _ _ _) => apply returns_try_except; [|intros]
  | |- returns (ret _) => apply returns_ret
  | |- returns (raise _) => apply returns_raise
  | |- returns (lift_res _) => apply returns_lift_res
  | |- returns (ask _) => apply returns_ask
  | |- returns (log _) => apply returns_log
  | |- returns (note _ _) => apply returns_note
  | |- returns (call _ _) => apply returns_call
  | |- returns (observe _ _) => apply returns_observe
  | |- returns (modify_job _) => apply returns_modify_job
  | |- returns (modify_user _) => apply returns_modify_user
  | |- returns db_commit => apply returns_db_commit
  | |- returns (retry _ _ _) => apply returns_retry
  | |- returns (match ?x with _ => _ end) => destruct x
  end.

Section ServiceFacts.
Context {Σ : Type} (P : Provider Σ) (settings : Settings).
Implicit Types w : World Σ.

Lemma served_create_label name :
  pres (served service_call) (GmailService.create_label P name).
Proof.
  unfold GmailService.create_label, GmailService.create_label_once.
  repeat pres_step.
Qed.

Lemma returns_create_label name : returns (GmailService.create_label P name).
Proof.
  unfold GmailService.create_label, GmailService.create_label_once.
  repeat returns_step.
Qed.

Lemma served_apply_label id label :
  pres (served service_call) (GmailService.apply_label P settings id label).
Proof.
  unfold GmailService.apply_label, GmailService.apply_label_once,
    GmailService.rate_sleep.
  repeat pres_step.
Qed.

Lemma returns_apply_label id label :
  returns (GmailService.apply_label P settings id label).
Proof.
  unfold GmailService.apply_label, GmailService.apply_label_once,
    GmailService.rate_sleep.
  repeat returns_step.
Qed.

Lemma served_pages fuel q N ids t :
  pres (served service_call) (GmailService.pages P fuel q N ids t).
Proof.
  revert ids t. induction fuel as [|fuel IH]; intros ids t; cbn [GmailService.pages].
  - apply pres_diverge.
  - destruct (_ <? _); repeat pres_step. apply IH.
Qed.

Lemma served_get_messages fuel scope N :
  pres (served service_call) (GmailService.get_messages P settings fuel scope N).
Proof.
  unfold GmailService.get_messages, GmailService.get_messages_once,
    GmailService._build_query.
  repeat pres_step; apply served_pages.
Qed.

End ServiceFacts.

(** Evaluation of the steps that touch only the session, the history or
    the log. *)
Ltac prim :=
  cbn [bind ret raise lift_res log note modify_job modify_user the_job
       sess_job sess_user trail calls prov db_jobs db_users
       with_session with_trail with_calls with_prov with_db
       fmap option_fmap option_map prod_map fst snd id].
Tactic Notation "prim" "in" hyp(H) :=
  cbn [bind ret raise lift_res log note modify_job modify_user the_job
       sess_job sess_user trail calls prov db_jobs db_users
       with_session with_trail with_calls with_prov with_db
       fmap option_fmap option_map prod_map fst snd id] in H.

(** ** The worker: one message *)

Section Iteration.
Context {Σ : Type} (P : Provider Σ) (settings : Settings).
Implicit Types w : World Σ.

Lemma label_message_effect cache id c fr w r w1 k j :
  label_message P settings cache id c fr w = Some (r, w1) ->
  sess_job w = Some (k, j) ->
  (exists e, r = Raise e /\ kept removes_nothing w w1) \/
  (exists fr1 j1 o,
     r = Ok fr1 /\ sess_job w1 = Some (k, j1) /\ trail w1 = trail w ++ [(id, o)] /\
     logged removes_nothing w w1 /\
     match o with
     | Labeled c' =>
         c' = c /\ j1 = j /\
         exists n, f_counts fr !! c = Some n /\
                   fr1 = {| f_counts := <[c := (n + 1)%nat]> (f_counts fr);
                            f_errors := f_errors fr |}
     | ApplyFailed =>
         j1 = bump_error_count j /\
         fr1 = {| f_counts := f_counts fr;
                  f_errors := f_errors fr ++ [message_error id "Failed to apply label"] |}
     | Skipped c' => c' = c /\ j1 = j /\ fr1 = fr /\ calls w1 = calls w
     | _ => False
     end).
Proof.
  intros H Hj. unfold label_message in H.
  assert (Hskip : (note id (Skipped c) ;; ret fr) w = Some (r, w1) ->
                  exists fr1 j1 o,
                    r = Ok fr1 /\ sess_job w1 = Some (k, j1) /\
                    trail w1 = trail w ++ [(id, o)] /\ logged removes_nothing w w1 /\
                    match o with
                    | Skipped c' => c' = c /\ j1 = j /\ fr1 = fr /\ calls w1 = calls w
                    | _ => False
                    end).
  { intros H0. prim in H0. injection H0 as <- <-.
    exists fr, j, (Skipped c). prim. repeat split; try assumption.
    exists []. rewrite app_nil_r. split; [reflexivity|constructor]. }
  destruct (cache !! c) as [label|].
  2:{ right. destruct (Hskip H) as (fr1 & j1 & o & ? & ? & ? & ? & Ho).
      exists fr1, j1, o. destruct o; try contradiction. auto 10. }
  destruct (Str.truthy label).
  2:{ right. destruct (Hskip H) as (fr1 & j1 & o & ? & ? & ? & ? & Ho).
      exists fr1, j1, o. destruct o; try contradiction. auto 10. }
  clear Hskip.
  apply bind_inv in H as [(b & w0 & Ha & H)|(e & Ha & ->)].
  2:{ left. exists e. split; [reflexivity|].
      eapply (served_service_kept _ (served_apply_label P settings id label)).
      exact Ha. }
  pose proof (served_apply_label P settings id label _ _ _ Ha)
    as (_ & _ & SJ & _ & T & l & C & F).
  destruct b.
  - destruct (f_counts fr !! c) as [n|] eqn:Hn.
    + prim in H. injection H as <- <-. right.
      exists {| f_counts := <[c := (n + 1)%nat]> (f_counts fr); f_errors := f_errors fr |},
        j, (Labeled c).
      prim. rewrite SJ, T. repeat split; try assumption.
      * exists l. split; [exact C|].
        eapply Forall_impl; [exact F|exact service_call_removes_nothing].
      * exists n. split; reflexivity.
    + prim in H. injection H as <- <-. left. eexists. split; [reflexivity|].
      unfold kept. repeat split; try assumption.
      exists l. split; [exact C|].
      eapply Forall_impl; [exact F|exact service_call_removes_nothing].
  - prim in H. injection H as <- <-. right.
    exists {| f_counts := f_counts fr;
              f_errors := f_errors fr ++ [message_error id "Failed to apply label"] |},
      (bump_error_count j), ApplyFailed.
    prim. rewrite SJ, T, Hj. repeat split.
    exists l. split; [exact C|].
    eapply Forall_impl; [exact F|exact service_call_removes_nothing].
Qed.

Lemma kept_checkpoint idx total fr :
  pres (kept removes_nothing) (checkpoint P idx total fr).
Proof.
  unfold checkpoint. destruct (_ =? _)%nat.
  - apply pres_bind; [typeclasses eauto| |intros _].
    + apply kept_db_commit. intros; exact I.
    + apply (pres_weaken (served removes_nothing));
        [intros ? ?; apply served_kept|apply served_call; exact I].
  - apply pres_ret. typeclasses eauto.
Qed.

(** The handler of the loop returns: one more error on the job object,
    one more entry in the errors, one more entry in the history. *)
Lemma on_exception_effect id (o : exn -> Outcome) fr e w r w' k j :
  on_exception P id o fr e w = Some (r, w') ->
  sess_job w = Some (k, j) ->
  exists fr' j',
    r = Ok fr' /\ sess_job w' = Some (k, j') /\
    trail w' = trail w ++ [(id, o e)] /\ calls w' = calls w /\
    forall idx, iteration_effect idx (Raised e) j fr j' fr' /\
                iteration_effect idx (Interrupted e) j fr j' fr'.
Proof.
  intros H Hj. unfold on_exception in H. prim in H. injection H as <- <-.
  do 2 eexists. prim. rewrite Hj.
  split; [reflexivity|]. split; [reflexivity|]. split; [reflexivity|].
  split; [reflexivity|].
  intros idx. split; unfold iteration_effect; cbn; repeat split; eauto.
Qed.

(** Lines 118-132 for a message that got through lines 100-116: the
    checkpoint, and the handler of the loop when the checkpoint raises.
    This part of the iteration returns; it makes no modify request; when
    no checkpoint is due after the message, or the result backend accepts
    the progress update, it leaves the job object, the loop's variables
    and the history as they are. *)
Lemma guarded_checkpoint_effect total idx id fr1 w k j :
  sess_job w = Some (k, j) ->
  exists fr' w' j' l t,
    try_except (checkpoint P idx total fr1 ;; ret fr1)
      any_Exception (on_exception P id Interrupted fr1) w = Some (Ok fr', w') /\
    sess_job w' = Some (k, j') /\ trail w' = trail w ++ t /\
    calls w' = calls w ++ l /\ count_calls is_modify l = 0%nat /\
    f_counts fr' = f_counts fr1 /\
    category_counts j' = category_counts j /\
    processed_emails j' = processed_emails j /\
    error_count j' = (error_count j + interrupted t)%nat /\
    (((idx + 1) mod 10 <> 0)%nat \/
     (forall s, (update_state P (idx + 1)%nat total (f_counts fr1) s).1 = Ok tt) ->
     fr' = fr1 /\ j' = j /\ t = []).
Proof.
  intros Hj. unfold try_except, checkpoint.
  destruct (Nat.eqb_spec ((idx + 1) mod 10) 0) as [Hten|Hten].
  - unfold db_commit, call, bind.
    cbn [prov with_calls with_db with_session with_trail with_prov].
    match goal with |- context [update_state P ?a ?b ?c ?s] =>
      destruct (update_state P a b c s) as [[[]|e] s1] eqn:Hup end.
    + prim. exists fr1. eexists. exists j. eexists. exists [].
      split; [reflexivity|]. prim. rewrite app_nil_r, <- app_assoc.
      repeat split; try reflexivity; try assumption; cbn; lia.
    + prim. cbn [any_Exception]. unfold on_exception. prim. rewrite Hj. prim.
      do 2 eexists. exists (bump_error_count j). eexists.
      exists [(id, Interrupted e)].
      split; [reflexivity|]. prim. rewrite <- app_assoc.
      split; [reflexivity|]. split; [reflexivity|]. split; [reflexivity|].
      split; [reflexivity|]. split; [reflexivity|]. split; [reflexivity|].
      split; [reflexivity|]. split; [reflexivity|].
      intros [Hne|Hok]; [contradiction|].
      specialize (Hok (prov w)). rewrite Hup in Hok. discriminate.
  - prim. exists fr1, w, j, [], []. rewrite !app_nil_r.
    repeat split; try reflexivity; try assumption; cbn; lia.
Qed.

(** Lines 100-116: an exception leaves the job object and the history
    as they were; otherwise the message has one entry in the history, of
    an outcome that reached the assignments of lines 115-116. *)
Lemma classify_and_label_effect classifier cache idx id d fr w r w1 k j :
  classify_and_label P settings classifier cache idx id d fr w = Some (r, w1) ->
  sess_job w = Some (k, j) ->
  (exists e, r = Raise e /\ kept removes_nothing w w1) \/
  (exists fr1 j1 o,
     r = Ok fr1 /\ sess_job w1 = Some (k, j1) /\ trail w1 = trail w ++ [(id, o)] /\
     logged removes_nothing w w1 /\
     is_interrupted o = false /\ reaches_update o = true /\
     iteration_effect idx o j fr j1 fr1).
Proof.
  intros H Hj. unfold classify_and_label in H.
  rewrite classify_stages in H. prim in H.
  apply bind_inv in H as [(fr1 & w2 & Hl & H)|(e0 & Hl & ->)].
  - right.
    eapply label_message_effect in Hl
      as [(e1 & [=] & _)|(fr1' & j1 & o & [= <-] & SJ1 & T1 & (l1 & C1 & F1) & Ho)];
      [|exact Hj].
    prim in H. rewrite SJ1 in H. prim in H. injection H as <- <-.
    do 2 eexists. exists o. prim.
    split; [reflexivity|]. split; [reflexivity|]. split; [exact T1|].
    split; [exists l1; auto|].
    unfold iteration_effect.
    destruct o; try contradiction; cbn.
    + destruct Ho as (-> & -> & n & Hn & ->). cbn. eauto 12.
    + destruct Ho as (-> & ->). cbn. eauto 12.
    + destruct Ho as (-> & -> & -> & _). cbn. eauto 12.
  - left. exists e0. split; [reflexivity|].
    eapply label_message_effect in Hl as [(e1 & _ & K1)|(? & ? & ? & [=] & _)];
      [exact K1|exact Hj].
Qed.

(** Lines 118-132 after such a message: the checkpoint, whose exception
    the handler of the loop turns into a second entry and an error. *)
Lemma guarded_checkpoint_inv total idx id fr1 w r w' k j1 :
  try_except (checkpoint P idx total fr1 ;; ret fr1)
    any_Exception (on_exception P id Interrupted fr1) w = Some (r, w') ->
  sess_job w = Some (k, j1) ->
  logged removes_nothing w w' /\
  ((r = Ok fr1 /\ sess_job w' = Some (k, j1) /\ trail w' = trail w) \/
   (exists e fr' j',
      r = Ok fr' /\ sess_job w' = Some (k, j') /\
      trail w' = trail w ++ [(id, Interrupted e)] /\
      iteration_effect idx (Interrupted e) j1 fr1 j' fr')).
Proof.
  intros H Hj.
  apply try_except_inv in H
    as [(a & H & ->)|[(e & w1 & H & _ & Hh)|(e & _ & [=] & _)]].
  - apply bind_inv in H as [(? & w3 & Hc & H)|(e0 & _ & [=])].
    prim in H. injection H as <- <-.
    pose proof (kept_checkpoint _ _ _ _ _ _ Hc) as (SJ3 & T3 & l3 & C3 & F3).
    split; [exists l3; auto|].
    left. rewrite SJ3, T3, Hj. auto.
  - apply bind_inv in H as [(? & w3 & _ & H)|(e0 & Hc & [= <-])];
      [prim in H; discriminate|].
    pose proof (kept_checkpoint _ _ _ _ _ _ Hc) as (SJ3 & T3 & l3 & C3 & F3).
    eapply on_exception_effect in Hh
      as (fr' & j' & -> & SJ & T & C & E); [|rewrite SJ3; exact Hj].
    split; [exists l3; rewrite C, C3; auto|].
    right. exists e, fr', j'. rewrite T, T3.
    split; [reflexivity|]. split; [exact SJ|]. split; [reflexivity|].
    apply (E idx).
Qed.

Lemma process_message_effect classifier cache total idx id fr w r w' k j :
  process_message P settings classifier cache total idx id fr w = Some (r, w') ->
  sess_job w = Some (k, j) ->
  exists fr' j' t,
    r = Ok fr' /\ sess_job w' = Some (k, j') /\ trail w' = trail w ++ t /\
    logged removes_nothing w w' /\
    message_effect idx id t j fr j' fr'.
Proof.
  intros H Hj. unfold process_message in H.
  assert (Hfail : forall e w1,
            kept removes_nothing w w1 ->
            on_exception P id Raised fr e w1 = Some (r, w') ->
            exists fr' j' t,
              r = Ok fr' /\ sess_job w' = Some (k, j') /\
              trail w' = trail w ++ t /\
              logged removes_nothing w w' /\
              message_effect idx id t j fr j' fr').
  { intros e w1 (SJ & T & l & C & F) H0.
    eapply on_exception_effect in H0
      as (fr' & j' & -> & SJ' & T' & C' & E); [|rewrite SJ; exact Hj].
    exists fr', j', [(id, Raised e)]. rewrite T', T.
    split; [reflexivity|]. split; [exact SJ'|]. split; [reflexivity|].
    split; [exists l; rewrite C', C; auto|].
    left. exists (Raised e). split; [reflexivity|]. split; [reflexivity|].
    apply (E idx). }
  apply try_except_inv in H
    as [(a & H & ->)|[(e & w1 & H & _ & Hh)|(e & _ & [=] & _)]].
  2:{ (* the body raised: before the checkpoint *)
      apply (Hfail e w1); [|exact Hh].
      apply bind_inv in H as [(md & w0 & Hg & H)|(e0 & Hg & [= <-])].
      2:{ eapply (served_service_kept _ (served_get_message_detail P id)). exact Hg. }
      pose proof (served_service_kept _ (served_get_message_detail P id) _ _ _ Hg) as K0.
      destruct md as [d|]; [|prim in H; discriminate].
      destruct K0 as (SJ0 & T0 & L0).
      apply bind_inv in H as [(fr1 & w2 & Hl & H)|(e0 & Hl & [= <-])].
      - exfalso.
        eapply classify_and_label_effect in Hl
          as [(e1 & [=] & _)|(fr1' & j1 & o & [= <-] & SJ1 & _)];
          [|rewrite SJ0; exact Hj].
        eapply guarded_checkpoint_inv in H
          as (_ & [([=] & _)|(? & ? & ? & [=] & _)]); exact SJ1.
      - eapply classify_and_label_effect in Hl
          as [(e1 & _ & K1)|(? & ? & ? & [=] & _)];
          [|rewrite SJ0; exact Hj].
        transitivity w0; [|exact K1]. unfold kept. auto. }
  (* the body returned *)
  apply bind_inv in H as [(md & w0 & Hg & H)|(e0 & _ & [=])].
  pose proof (served_service_kept _ (served_get_message_detail P id) _ _ _ Hg)
    as (SJ0 & T0 & L0).
  destruct md as [d|].
  2:{ prim in H. injection H as <- <-.
      do 2 eexists. exists [(id, FetchAbsent)]. prim. rewrite SJ0, T0, Hj.
      split; [reflexivity|]. split; [reflexivity|]. split; [reflexivity|].
      split; [exact L0|]. left. exists FetchAbsent.
      split; [reflexivity|]. split; [reflexivity|].
      unfold iteration_effect. cbn. eauto 10. }
  apply bind_inv in H as [(fr1 & w2 & Hl & H)|(e0 & _ & [=])].
  eapply classify_and_label_effect in Hl
    as [(e1 & [=] & _)|(fr1' & j1 & o & [= <-] & SJ1 & T1 & L1 & Eo1 & Eo2 & Eo3)];
    [|rewrite SJ0; exact Hj].
  eapply guarded_checkpoint_inv in H as (L2 & Hend); [|exact SJ1].
  assert (L : logged removes_nothing w w').
  { transitivity w0; [exact L0|]. transitivity w2; [exact L1|exact L2]. }
  destruct Hend as [(-> & SJ & T)|(e & fr' & j' & -> & SJ & T & E)].
  - do 2 eexists. exists [(id, o)]. rewrite T, T1, T0.
    split; [reflexivity|]. split; [exact SJ|]. split; [reflexivity|].
    split; [exact L|]. left. exists o. auto.
  - exists fr', j', [(id, o); (id, Interrupted e)]. rewrite T, T1, T0, <- app_assoc.
    split; [reflexivity|]. split; [exact SJ|]. split; [reflexivity|].
    split; [exact L|]. right. do 4 eexists. eauto 10.
Qed.

End Iteration.

(** ** The worker: the loop *)

Lemma sum_values_empty : sum_values ∅ = 0%nat.
Proof. unfold sum_values. apply map_fold_empty. Qed.

Lemma sum_values_insert_fresh (m : gmap string nat) (c : string) (n : nat) :
  m !! c = None -> sum_values (<[c := n]> m) = (n + sum_values m)%nat.
Proof.
  intros H. unfold sum_values.
  rewrite map_fold_insert_L; [reflexivity| |exact H].
  intros. lia.
Qed.

Lemma sum_values_bump (m : gmap string nat) (c : string) (n : nat) :
  m !! c = Some n -> sum_values (<[c := (n + 1)%nat]> m) = (sum_values m + 1)%nat.
Proof.
  intros H.
  rewrite <- (insert_delete_id m c n H) at 2.
  rewrite <- (insert_delete_eq m c (n + 1)%nat).
  rewrite !sum_values_insert_fresh by apply lookup_delete_eq. lia.
Qed.

Lemma sum_values_zero_counts : sum_values zero_counts = 0%nat.
Proof. vm_compute. reflexivity. Qed.

Lemma skipped_app (t1 t2 : list (string * Outcome)) :
  skipped (t1 ++ t2) = (skipped t1 + skipped t2)%nat.
Proof. induction t1 as [|[? o] t1 IH]; cbn; [reflexivity|rewrite IH; lia]. Qed.

Lemma interrupted_app (t1 t2 : list (string * Outcome)) :
  interrupted (t1 ++ t2) = (interrupted t1 + interrupted t2)%nat.
Proof. induction t1 as [|[? o] t1 IH]; cbn; [reflexivity|rewrite IH; lia]. Qed.

Lemma handled_app (t1 t2 : list (string * Outcome)) :
  handled (t1 ++ t2) = handled t1 ++ handled t2.
Proof.
  induction t1 as [|[? o] t1 IH]; cbn; [reflexivity|].
  destruct (is_interrupted o); cbn; rewrite IH; reflexivity.
Qed.

(** Every entry of a history is a message or the second entry of one. *)
Lemma length_history (t : list (string * Outcome)) :
  length t = (length (handled t) + interrupted t)%nat.
Proof.
  induction t as [|[? o] t IH]; cbn; [reflexivity|].
  destruct (is_interrupted o); cbn; lia.
Qed.

(** What an entry adds to the counters, whatever the entry. *)
Lemma iteration_effect_counters idx o j fr j1 fr1 :
  iteration_effect idx o j fr j1 fr1 ->
  status j1 = status j /\ total_emails j1 = total_emails j /\
  (sum_values (f_counts fr1) + error_count j1 + (if is_skipped o then 1 else 0)
   = sum_values (f_counts fr) + error_count j + 1)%nat /\
  (error_count j1 + length (f_errors fr) = error_count j + length (f_errors fr1))%nat /\
  (sum_values (category_counts j) = sum_values (f_counts fr) ->
   sum_values (category_counts j1) = sum_values (f_counts fr1)) /\
  (processed_emails j <= idx -> processed_emails j1 <= S idx)%nat /\
  (reaches_update o = true -> is_interrupted o = false -> processed_emails j1 = S idx) /\
  (is_interrupted o = true -> processed_emails j1 = processed_emails j).
Proof.
  intros (S1 & Tot1 & Eo). split; [exact S1|]. split; [exact Tot1|].
  destruct o; cbn in Eo |- *.
  - destruct Eo as (Hc & He & Hp & Hcat & entry & Hent).
    rewrite Hc, He, Hp, Hcat, Hent, length_app. cbn.
    repeat split; try lia; auto; discriminate.
  - destruct Eo as ((n & Hn & Hc) & Herr & He & Hp & Hcat).
    rewrite Hcat, Hc, He, Hp, Herr, (sum_values_bump _ _ _ Hn).
    repeat split; try lia; auto; discriminate.
  - destruct Eo as (Hc & He & Hp & Hcat & entry & Hent).
    rewrite Hcat, Hc, He, Hp, Hent, length_app. cbn.
    repeat split; try lia; auto; discriminate.
  - destruct Eo as (-> & He & Hp & Hcat).
    rewrite Hcat, He, Hp. repeat split; try lia; auto; discriminate.
  - destruct Eo as (Hc & He & Hp & Hcat & entry & Hent).
    rewrite Hc, He, Hp, Hcat, Hent, length_app. cbn.
    repeat split; try lia; auto; discriminate.
  - destruct Eo as (Hc & He & Hp & Hcat & entry & Hent).
    rewrite Hc, He, Hp, Hcat, Hent, length_app. cbn.
    repeat split; try lia; auto; discriminate.
Qed.

(** One message is a history of one message. *)
Lemma message_loop_effect idx id t j fr j' fr' :
  message_effect idx id t j fr j' fr' ->
  handled t = [id] /\ loop_effect idx t j fr j' fr'.
Proof.
  intros [(o & -> & Io & E)|(o & e & j1 & fr1 & -> & Io & Ro & E1 & E2)].
  - apply iteration_effect_counters in E
      as (S1 & Tot1 & Cnt & Err & Cat & Ple & Plast & _).
    cbn [handled]. rewrite Io. split; [reflexivity|].
    unfold loop_effect. cbn [length skipped handled last]. rewrite Io. cbn [length].
    split; [exact S1|]. split; [exact Tot1|]. split; [lia|]. split; [lia|].
    split; [exact Cat|].
    split; [intros Hp; specialize (Ple Hp); lia|].
    intros Hr. rewrite (Plast Hr Io). lia.
  - apply iteration_effect_counters in E1
      as (S1 & Tot1 & Cnt1 & Err1 & Cat1 & Ple1 & Plast1 & _).
    apply iteration_effect_counters in E2
      as (S2 & Tot2 & Cnt2 & Err2 & Cat2 & _ & _ & Psame).
    specialize (Plast1 Ro Io). specialize (Psame eq_refl).
    cbn [handled is_interrupted]. rewrite Io. split; [reflexivity|].
    unfold loop_effect. cbn [length skipped handled last is_interrupted is_skipped].
    rewrite Io. cbn [length]. cbn [is_skipped] in Cnt2.
    split; [congruence|]. split; [congruence|]. split; [lia|]. split; [lia|].
    split; [auto|].
    split; [intros _; lia|]. intros _. lia.
Qed.

(** Two stretches of the loop, one after the other. *)
Lemma loop_effect_app idx t1 t2 j fr j1 fr1 j' fr' :
  loop_effect idx t1 j fr j1 fr1 ->
  loop_effect (idx + length (handled t1)) t2 j1 fr1 j' fr' ->
  loop_effect idx (t1 ++ t2) j fr j' fr'.
Proof.
  intros (S1 & Tot1 & Cnt1 & Err1 & Cat1 & Ple1 & Plast1)
         (S2 & Tot2 & Cnt2 & Err2 & Cat2 & Ple2 & Plast2).
  unfold loop_effect.
  rewrite skipped_app, handled_app, !length_app, last_app.
  split; [congruence|]. split; [congruence|].
  split; [lia|]. split; [lia|]. split; [auto|].
  split; [intros Hp; specialize (Ple1 Hp); specialize (Ple2 Ple1); lia|].
  destruct (last t2) as [[id' o']|] eqn:Hlast.
  - intros Hr. rewrite (Plast2 Hr). lia.
  - apply last_None in Hlast. subst t2. cbn [handled length]. rewrite Plast2.
    destruct (last t1) as [[id' o']|].
    + intros Hr. rewrite (Plast1 Hr). lia.
    + exact Plast1.
Qed.

Section Loop.
Context {Σ : Type} (P : Provider Σ) (settings : Settings).
Implicit Types w : World Σ.

Lemma process_messages_effect classifier cache total ids :
  forall idx fr w r w' k j,
    process_messages P settings classifier cache total idx ids fr w = Some (r, w') ->
    sess_job w = Some (k, j) ->
    exists fr' j' t,
      r = Ok fr' /\ sess_job w' = Some (k, j') /\
      trail w' = trail w ++ t /\ handled t = ids /\
      logged removes_nothing w w' /\
      loop_effect idx t j fr j' fr'.
Proof.
  induction ids as [|id ids IH]; intros idx fr w r w' k j H Hj.
  - cbn in H. injection H as <- <-.
    exists fr, j, []. rewrite app_nil_r.
    repeat split; try reflexivity; try assumption; cbn; auto; lia.
  - cbn [process_messages] in H.
    apply bind_inv in H as [(fr1 & w1 & H1 & H)|(e & H1 & ->)].
    2:{ eapply process_message_effect in H1 as (? & ? & ? & [=] & _); exact Hj. }
    eapply process_message_effect in H1
      as (fr1' & j1 & t1 & [= <-] & SJ1 & T1 & L1 & E1); [|exact Hj].
    apply message_loop_effect in E1 as (Hd1 & E1).
    eapply IH in H as (fr' & j' & t & -> & SJ & T & Hids & L & E); [|exact SJ1].
    exists fr', j', (t1 ++ t).
    split; [reflexivity|]. split; [exact SJ|].
    split; [rewrite T, T1, <- app_assoc; reflexivity|].
    split; [rewrite handled_app, Hd1, Hids; reflexivity|].
    split; [transitivity w1; assumption|].
    apply (loop_effect_app _ _ _ _ _ j1 fr1); [exact E1|].
    rewrite Hd1. cbn [length]. replace (idx + 1)%nat with (S idx) by lia.
    exact E.
Qed.

End Loop.

(** ** The worker: the run *)

(** Reading the attributes of a job object after assignments. *)
Ltac attrs :=
  cbn [status total_emails processed_emails error_count category_counts errors
       completed_at celery_task_id job_user_id job_mode job_scope
       set_status set_total_emails set_processed_emails set_error_count
       set_category_counts set_errors set_completed_at set_celery_task_id
       bump_error_count f_counts f_errors] in *.

Section Run.
Context {Σ : Type} (P : Provider Σ) (settings : Settings).
Implicit Types w : World Σ.

Lemma kept_of_served {A} ok (m : M Σ A) : pres (served ok) m -> pres (kept ok) m.
Proof. apply pres_weaken. intros w w'. apply served_kept. Qed.

Lemma served_observe {A} (ok : Call -> Prop) c (f : Σ -> res A * Σ) :
  ok c -> pres (served ok) (observe c f).
Proof.
  intros Hc w r w' H. unfold observe in H. destruct (f (prov w)) as [r0 s].
  injection H as <- <-. unfold served; cbn. repeat split.
  exists [c]. split; [reflexivity|]. constructor; [assumption|constructor].
Qed.

Lemma kept_refresh_google_token uid user :
  pres (kept removes_nothing) (refresh_google_token P uid user).
Proof.
  unfold refresh_google_token.
  apply pres_bind; [typeclasses eauto| |intros _].
  { apply kept_of_served, served_log. exact I. }
  repeat pres_step.
  - apply kept_of_served, served_call. exact I.
  - apply kept_modify_user.
  - apply kept_db_commit. intros; exact I.
Qed.

Lemma kept_init credentials : pres (kept removes_nothing) (GmailService.init P credentials).
Proof. apply kept_of_served, served_call. exact I. Qed.

Lemma kept_new_classifier mode : pres (kept removes_nothing) (new_classifier P mode).
Proof.
  unfold new_classifier. destruct mode; repeat pres_step;
    apply kept_of_served, served_observe; exact I.
Qed.

Lemma kept_create_labels cats :
  forall cache, pres (kept removes_nothing) (create_labels P cats cache).
Proof.
  induction cats as [|c cats IH]; intros cache; cbn [create_labels].
  - apply pres_ret. typeclasses eauto.
  - apply pres_bind; [typeclasses eauto| |intros; apply IH].
    apply served_service_kept, served_create_label.
Qed.

Lemma process_job_effect classifier ids w r w' k j :
  process_job P settings classifier ids w = Some (r, w') ->
  sess_job w = Some (k, j) ->
  logged removes_nothing w w' /\
  match r with
  | Ok _ =>
      exists j' t,
        sess_job w' = Some (k, j') /\ db_jobs w' !! k = Some j' /\
        trail w' = trail w ++ t /\ handled t = ids /\
        status j' = COMPLETED /\
        (fresh j -> completed_tally t j')
  | Raise e => exists j', sess_job w' = Some (k, j') /\ trail w' = trail w
  end.
Proof.
  intros H Hj. unfold process_job in H.
  prim in H. rewrite Hj in H. prim in H.
  unfold db_commit at 1 in H. prim in H.
  match type of H with _ ?w0 = _ => remember w0 as wa eqn:Ewa end.
  assert (Ja : sess_job wa = Some (k, set_total_emails (length ids) j))
    by (subst wa; reflexivity).
  assert (Ta : trail wa = trail w) by (subst wa; reflexivity).
  assert (La : logged removes_nothing w wa).
  { subst wa. eexists. split; [reflexivity|]. repeat constructor. }
  clear Ewa.
  apply bind_inv in H as [(cache & w1 & H1 & H)|(e & H1 & ->)].
  2:{ apply kept_create_labels in H1 as (J1 & T1 & L1).
      split; [transitivity wa; assumption|].
      eexists. rewrite J1, T1, Ja, Ta. split; reflexivity. }
  apply kept_create_labels in H1 as (J1 & T1 & L1).
  apply bind_inv in H as [(fr & w2 & H2 & H)|(e & H2 & ->)].
  2:{ eapply process_messages_effect in H2 as (? & ? & ? & [=] & _).
      rewrite J1. exact Ja. }
  eapply process_messages_effect in H2
    as (fr' & j2 & t & [= <-] & J2 & T2 & Hids & L2 & E); [|rewrite J1; exact Ja].
  prim in H. rewrite J2 in H. prim in H.
  unfold ask at 1 in H. prim in H. unfold db_commit in H. prim in H.
  injection H as <- <-. prim.
  split.
  { transitivity wa; [exact La|]. transitivity w1; [exact L1|].
    transitivity w2; [exact L2|].
    eexists. split; [reflexivity|]. repeat constructor. }
  do 2 eexists. split; [reflexivity|]. split; [apply lookup_insert_eq|].
  split; [rewrite T2, T1, Ta; reflexivity|]. split; [exact Hids|].
  split; [reflexivity|].
  intros (Fp & Fe & Fc).
  destruct E as (S2 & Tot2 & Cnt & Err & Cat & Ple & Plast).
  assert (Hlen : length (handled t) = length ids) by (rewrite Hids; reflexivity).
  pose proof (length_history t) as Hall.
  attrs.
  rewrite Fe in Cnt, Err. rewrite Fp in Ple, Plast. rewrite Fc in Cat.
  rewrite sum_values_empty, sum_values_zero_counts in Cat.
  rewrite sum_values_zero_counts in Cnt.
  specialize (Cat eq_refl). specialize (Ple ltac:(lia)).
  unfold completed_tally. attrs.
  rewrite Tot2, Cat, length_take. cbn [length] in Err.
  repeat split; try lia.
  destruct (last t) as [[? o]|] eqn:Hlast; [intros Hr; rewrite (Plast Hr); lia|].
  apply last_None in Hlast. subst t. cbn in Hlen |- *. lia.
Qed.

Lemma run_job_effect fuel rid uid user mode scope w r w' k j :
  run_job P settings fuel rid uid user mode scope w = Some (r, w') ->
  sess_job w = Some (k, j) ->
  (exists l, calls w' = calls w ++ CCommit (Some RUNNING) :: l /\
             Forall removes_nothing l) /\
  match r with
  | Ok _ =>
      exists j' t,
        sess_job w' = Some (k, j') /\ db_jobs w' !! k = Some j' /\
        trail w' = trail w ++ t /\
        status j' = COMPLETED /\
        (fresh j -> completed_tally t j')
  | Raise e => exists j', sess_job w' = Some (k, j') /\ trail w' = trail w
  end.
Proof.
  intros H Hj. unfold run_job in H.
  prim in H. rewrite Hj in H. prim in H.
  unfold db_commit at 1 in H. prim in H.
  match type of H with _ ?w0 = _ => remember w0 as wa eqn:Ewa end.
  set (ja := set_celery_task_id (Some rid) (set_status RUNNING j)) in *.
  assert (Ja : sess_job wa = Some (k, ja)) by (subst wa; reflexivity).
  assert (Ta : trail wa = trail w) by (subst wa; reflexivity).
  assert (Ca : calls wa = calls w ++ [CCommit (Some RUNNING)]) by (subst wa; reflexivity).
  clear Ewa.
  assert (Hend : forall wb,
            kept removes_nothing wa wb ->
            logged removes_nothing wb w' ->
            exists l, calls w' = calls w ++ CCommit (Some RUNNING) :: l /\
                      Forall removes_nothing l).
  { intros wb (_ & _ & l1 & C1 & F1) (l2 & C2 & F2).
    exists (l1 ++ l2). rewrite C2, C1, Ca, <- !app_assoc. split; [reflexivity|].
    apply Forall_app; split; assumption. }
  assert (Hraise : forall e : exn,
            kept removes_nothing wa w' ->
            (exists l, calls w' = calls w ++ CCommit (Some RUNNING) :: l /\
                       Forall removes_nothing l) /\
            exists j', sess_job w' = Some (k, j') /\ trail w' = trail w).
  { intros e K. split; [apply (Hend w' K); reflexivity|].
    destruct K as (J & T & _). exists ja. rewrite J, T. auto. }
  apply bind_inv in H as [(cred & w1 & H1 & H)|(e & H1 & ->)].
  2:{ apply (Hraise e). eapply kept_refresh_google_token. exact H1. }
  apply kept_refresh_google_token in H1.
  apply bind_inv in H as [([] & w2 & H2 & H)|(e & H2 & ->)].
  2:{ apply (Hraise e). etransitivity; [exact H1|]. eapply kept_init. exact H2. }
  apply kept_init in H2.
  assert (K2 : kept removes_nothing wa w2) by (etransitivity; eassumption).
  clear H1 H2.
  destruct (ModelMode_of mode) as [md|e]; prim in H.
  2:{ injection H as <- <-. apply (Hraise e). exact K2. }
  apply bind_inv in H as [(classifier & w3 & H3 & H)|(e & H3 & ->)].
  2:{ apply (Hraise e). etransitivity; [exact K2|]. eapply kept_new_classifier. exact H3. }
  apply kept_new_classifier in H3.
  assert (K3 : kept removes_nothing wa w3) by (etransitivity; eassumption).
  clear K2 H3.
  destruct (EmailScope_of scope) as [sc|e]; prim in H.
  2:{ injection H as <- <-. apply (Hraise e). exact K3. }
  apply bind_inv in H as [(ids & w4 & H4 & H)|(e & H4 & ->)].
  2:{ apply (Hraise e). etransitivity; [exact K3|].
      eapply (served_service_kept _ (served_get_messages P settings _ _ _)). exact H4. }
  apply (served_service_kept _ (served_get_messages P settings _ _ _)) in H4.
  assert (K4 : kept removes_nothing wa w4) by (etransitivity; eassumption).
  clear K3 H4.
  destruct K4 as (J4 & T4 & L4).
  eapply process_job_effect in H as (L & Hr); [|rewrite J4; exact Ja].
  split.
  { apply (Hend w4); [|exact L]. unfold kept. auto. }
  destruct r as [[]|e].
  - destruct Hr as (j' & t & SJ & DB & T & _ & St & Tally).
    exists j', t. rewrite T, T4, Ta.
    split; [exact SJ|]. split; [exact DB|]. split; [reflexivity|].
    split; [exact St|].
    intros (Fp & Fe & Fc). apply Tally. unfold fresh, ja. attrs. auto.
  - destruct Hr as (j' & SJ & T). exists j'. rewrite T, T4, Ta. auto.
Qed.

(** The task, when the job and the user exist: the first call it makes
    is the commit of RUNNING; a return of the [try] block leaves the job
    COMPLETED with the tally of the loop, an exception leaves it FAILED
    with one error entry and goes on to the caller. *)
Lemma task_effect fuel rid jid uid mode scope w r w' j u :
  classify_emails_task P settings fuel rid jid uid mode scope w = Some (r, w') ->
  db_jobs w !! jid = Some j -> db_users w !! uid = Some u ->
  (exists l, calls w' = calls w ++ CCommit (Some RUNNING) :: l /\
             Forall removes_nothing l) /\
  exists j',
    db_jobs w' !! jid = Some j' /\
    match r with
    | Ok _ =>
        status j' = COMPLETED /\
        exists t, trail w' = trail w ++ t /\ (fresh j -> completed_tally t j')
    | Raise e =>
        status j' = FAILED /\
        errors j' = [{| err_message_id := None; err_error := str_exn P e |}] /\
        trail w' = trail w
    end.
Proof.
  intros H Hjob Huser. unfold classify_emails_task, get_db_context in H.
  unfold session_open at 1, query_job at 1, query_user at 1 in H. prim in H.
  rewrite Hjob, Huser in H. prim in H.
  match type of H with
  | match try_except _ _ _ ?w0 with _ => _ end = _ => remember w0 as wa eqn:Ewa
  end.
  assert (Ja : sess_job wa = Some (jid, j)) by (subst wa; reflexivity).
  assert (Ta : trail wa = trail w) by (subst wa; reflexivity).
  assert (Ca : calls wa = calls w) by (subst wa; reflexivity).
  clear Ewa.
  destruct (try_except _ _ _ wa) as [[[[]|e] w1]|] eqn:Htry; [| |discriminate].
  - (* the [try] block returned *)
    apply try_except_inv in Htry
      as [([] & Hrun & _)|[(e & w0 & Hrun & _ & Hh)|(e & _ & _ & [=])]].
    2:{ unfold fail_job in Hh. prim in Hh. unfold db_commit in Hh. prim in Hh.
        discriminate. }
    eapply run_job_effect in Hrun as ((l & C & F) & j' & t & SJ & DB & T & St & Tally);
      [|exact Ja].
    unfold db_commit, session_close in H. prim in H. rewrite SJ in H.
    injection H as <- <-. prim.
    split.
    { rewrite C, Ca. eexists (l ++ [_]). rewrite app_comm_cons, app_assoc.
      split; [reflexivity|]. apply Forall_app. split; [exact F|repeat constructor]. }
    exists j'. split; [apply lookup_insert_eq|]. split; [exact St|].
    exists t. rewrite T, Ta. auto.
  - (* the [try] block raised *)
    apply try_except_inv in Htry
      as [(? & _ & [=])|[(e0 & w0 & Hrun & _ & Hh)|(e0 & _ & [=] & _)]].
    eapply run_job_effect in Hrun as ((l & C & F) & j' & SJ & T); [|exact Ja].
    unfold fail_job in Hh. prim in Hh. unfold db_commit in Hh. prim in Hh.
    rewrite SJ in Hh. prim in Hh. injection Hh as <- <-.
    unfold session_close in H. prim in H. injection H as <- <-. prim.
    split.
    { rewrite C, Ca. eexists (l ++ [_; _]). rewrite app_comm_cons, !app_assoc.
      split; [rewrite <- !app_assoc; reflexivity|].
      apply Forall_app. split; [exact F|repeat constructor]. }
    eexists. split; [apply lookup_insert_eq|]. attrs.
    split; [reflexivity|]. split; [reflexivity|]. rewrite T, Ta. reflexivity.
Qed.

End Run.

(** ** The worker: the loop returns, and fetches every message *)

Section LoopTotal.
Context {Σ : Type} (P : Provider Σ) (settings : Settings).
Implicit Types w : World Σ.

Lemma logged_apply_label id label :
  pres (logged removes_nothing) (GmailService.apply_label P settings id label).
Proof. apply kept_logged_pres, served_service_kept, served_apply_label. Qed.

Lemma logged_label_message cache id c fr :
  pres (logged removes_nothing) (label_message P settings cache id c fr).
Proof.
  unfold label_message.
  repeat first [ pres_step | apply logged_apply_label | apply logged_modify_job
               | apply logged_note ].
Qed.

Lemma logged_on_exception id o fr e :
  pres (logged removes_nothing) (on_exception P id o fr e).
Proof.
  unfold on_exception.
  repeat first [ pres_step | apply logged_modify_job | apply logged_note ].
Qed.

Lemma logged_after_fetch classifier cache total idx id fr md :
  pres (logged removes_nothing)
    (match md with
     | None =>
         modify_job bump_error_count ;;
         note id FetchAbsent ;;
         ret {| f_counts := f_counts fr;
                f_errors := f_errors fr ++ [message_error id "Failed to fetch"] |}
     | Some detail =>
         fr <- classify_and_label P settings classifier cache idx id detail fr ;;
         try_except (checkpoint P idx total fr ;; ret fr)
           any_Exception (on_exception P id Interrupted fr)
     end).
Proof.
  destruct md.
  - unfold classify_and_label.
    repeat first [ pres_step | apply logged_label_message | apply logged_modify_job
                 | apply logged_note | apply logged_on_exception
                 | apply kept_logged_pres, kept_checkpoint ].
  - repeat first [ pres_step | apply logged_modify_job | apply logged_note ].
Qed.

(** The first call of [get_message_detail] is the fetch of the message. *)
Lemma get_message_detail_first id w r w0 :
  GmailService.get_message_detail P id w = Some (r, w0) ->
  exists l, calls w0 = calls w ++ CMessagesGet id :: l /\ Forall removes_nothing l.
Proof.
  unfold GmailService.get_message_detail, retry. cbn [Nat.sub retrying].
  rewrite get_message_detail_once_eq. cbn zeta.
  set (w1 := with_prov _ (with_calls (calls w ++ [CMessagesGet id]) w)).
  assert (C1 : calls w1 = calls w ++ [CMessagesGet id]) by reflexivity.
  clearbody w1.
  assert (Hnil : forall rr, Some (rr, w1) = Some (r, w0) ->
            exists l, calls w0 = calls w ++ CMessagesGet id :: l /\
                      Forall removes_nothing l).
  { intros rr [= _ <-]. exists []. split; [exact C1|constructor]. }
  destruct (messages_get P id (prov w)).1 as [msg|e]; [apply Hnil|].
  destruct (is_HttpError e); [apply Hnil|]. cbn [any_Exception].
  intros H.
  assert (L : logged removes_nothing w1 w0).
  { revert H. apply kept_logged_pres.
    apply pres_bind; [typeclasses eauto| |intros _].
    - apply kept_of_served, served_log. exact I.
    - apply served_service_kept.
      change (pres (served service_call)
                (retrying 1 2 any_Exception (GmailService.get_message_detail_once P id))).
      apply pres_retrying; [typeclasses eauto| |].
      + intros k. apply served_log. exact I.
      + unfold GmailService.get_message_detail_once. repeat pres_step. }
  destruct L as (l & C & F). exists l. rewrite C, C1, <- app_assoc. auto.
Qed.

Lemma process_message_fetches classifier cache total idx id fr w r w' :
  process_message P settings classifier cache total idx id fr w = Some (r, w') ->
  exists l, calls w' = calls w ++ CMessagesGet id :: l /\ Forall removes_nothing l.
Proof.
  intros H. unfold process_message in H.
  assert (Hext : forall w0,
            (exists l, calls w0 = calls w ++ CMessagesGet id :: l /\
                       Forall removes_nothing l) ->
            logged removes_nothing w0 w' ->
            exists l, calls w' = calls w ++ CMessagesGet id :: l /\
                      Forall removes_nothing l).
  { intros w0 (l0 & C0 & F0) (l1 & C1 & F1). exists (l0 ++ l1).
    rewrite C1, C0, <- app_assoc. split; [reflexivity|].
    apply Forall_app; auto. }
  pose proof (logged_on_exception id Raised fr) as Hh.
  apply try_except_inv in H
    as [(a & H & ->)|[(e & w1 & H & _ & Hhand)|(e & _ & [=] & _)]].
  - apply bind_inv in H as [(md & w0 & Hg & H)|(e0 & _ & [=])].
    apply (Hext w0); [eapply get_message_detail_first; exact Hg|].
    eapply logged_after_fetch. exact H.
  - apply bind_inv in H as [(md & w0 & Hg & H)|(e0 & Hg & [= <-])].
    + apply (Hext w0); [eapply get_message_detail_first; exact Hg|].
      transitivity w1; [eapply logged_after_fetch; exact H|].
      eapply Hh. exact Hhand.
    + apply (Hext w1); [eapply get_message_detail_first; exact Hg|].
      eapply Hh. exact Hhand.
Qed.

Lemma returns_checkpoint idx total fr : returns (checkpoint P idx total fr).
Proof. unfold checkpoint. repeat returns_step. Qed.

Lemma returns_on_exception id o fr e : returns (on_exception P id o fr e).
Proof. unfold on_exception. repeat returns_step. Qed.

Lemma returns_label_message cache id c fr :
  returns (label_message P settings cache id c fr).
Proof.
  unfold label_message.
  repeat first [ returns_step | apply returns_apply_label ].
Qed.

Lemma returns_process_message classifier cache total idx id fr :
  returns (process_message P settings classifier cache total idx id fr).
Proof.
  unfold process_message, classify_and_label.
  repeat first [ returns_step | apply returns_get_message_detail
               | apply returns_label_message | apply returns_checkpoint
               | apply returns_on_exception ].
Qed.

Lemma returns_process_messages classifier cache total ids :
  forall idx fr, returns (process_messages P settings classifier cache total idx ids fr).
Proof.
  induction ids as [|id ids IH]; intros idx fr; cbn [process_messages].
  - apply returns_ret.
  - apply returns_bind; [apply returns_process_message|intros; apply IH].
Qed.

Lemma returns_create_labels cats :
  forall cache, returns (create_labels P cats cache).
Proof.
  induction cats as [|c cats IH]; intros cache; cbn [create_labels].
  - apply returns_ret.
  - apply returns_bind; [apply returns_create_label|intros; apply IH].
Qed.

Lemma returns_refresh_google_token uid user :
  returns (refresh_google_token P uid user).
Proof. unfold refresh_google_token. repeat returns_step. Qed.

Lemma returns_new_classifier mode : returns (new_classifier P mode).
Proof. unfold new_classifier. destruct mode; repeat returns_step. Qed.

(** The task returns whenever its listing does: no other step of it can
    fail to return. *)
Lemma task_returns fuel rid jid uid mode scope :
  (forall sc, returns (GmailService.get_messages P settings fuel sc
                         (Some (GMAIL_MAX_RESULTS settings)))) ->
  returns (classify_emails_task P settings fuel rid jid uid mode scope).
Proof.
  intros Hlist w. unfold classify_emails_task, get_db_context.
  assert (Hbody : returns
            (session_open (Σ := Σ) ;;
             job <- query_job jid ;;
             user <- query_user uid ;;
             match job, user with
             | Some _, Some user =>
                 try_except (run_job P settings fuel rid uid user mode scope)
                   any_Exception (fail_job P)
             | _, _ => ret tt
             end)).
  { apply returns_bind; [intros w0; unfold session_open; eauto|intros _].
    apply returns_bind; [intros w0; unfold query_job; eauto|intros job].
    apply returns_bind; [intros w0; unfold query_user; eauto|intros user].
    destruct job as [j|], user as [u|]; try apply returns_ret.
    apply returns_try_except.
    - unfold run_job, process_job, GmailService.init.
      repeat first [ returns_step | apply returns_refresh_google_token
                   | apply returns_new_classifier | apply Hlist
                   | apply returns_create_labels | apply returns_process_messages ].
    - intros e. unfold fail_job. repeat returns_step. }
  destruct (Hbody w) as ([a|e] & w1 & ->).
  - unfold db_commit, session_close. prim. eauto.
  - unfold session_close. prim. eauto.
Qed.

(** Every message of the list is fetched, in the order of the list. *)
Lemma process_messages_fetches classifier cache total ids :
  forall idx fr w r w',
    process_messages P settings classifier cache total idx ids fr w = Some (r, w') ->
    exists l, calls w' = calls w ++ l /\ Forall removes_nothing l /\
              forall id, In id ids -> In (CMessagesGet id) l.
Proof.
  induction ids as [|id ids IH]; intros idx fr w r w' H; cbn [process_messages] in H.
  - injection H as <- <-. exists []. rewrite app_nil_r.
    split; [reflexivity|]. split; [constructor|]. intros id [].
  - apply bind_inv in H as [(fr1 & w1 & H1 & H)|(e & H1 & ->)].
    + apply process_message_fetches in H1 as (l1 & C1 & F1).
      apply IH in H as (l2 & C2 & F2 & Hin).
      exists ((CMessagesGet id :: l1) ++ l2). rewrite C2, C1, <- app_assoc.
      split; [reflexivity|]. split.
      * apply Forall_app. split; [constructor; [exact I|exact F1]|exact F2].
      * intros id' [<-|Hid]; apply in_or_app; [left; left; reflexivity|].
        right. apply Hin. exact Hid.
    + exfalso.
      destruct (returns_process_message classifier cache total idx id fr w)
        as (r0 & w0 & E).
      rewrite E in H1. injection H1 as -> ->.
      unfold process_message, try_except in E.
      destruct (bind _ _ w) as [[[a|e0] w2]|]; discriminate.
Qed.

(** The label cache built from the catalog has no entry outside it. *)
Lemma create_labels_lookup cats (c : string) :
  ~ In c cats ->
  forall cache w cache' w',
    create_labels P cats cache w = Some (Ok cache', w') ->
    cache' !! c = cache !! c.
Proof.
  induction cats as [|cat cats IH]; intros Hc cache w cache' w' H;
    cbn [create_labels] in H.
  - injection H as <- <-. reflexivity.
  - apply bind_inv in H as [(label & w1 & _ & H)|(e & _ & [=])].
    eapply IH in H; [|intros Hin; apply Hc; right; exact Hin].
    rewrite H. apply lookup_insert_ne. intros <-. apply Hc. left. reflexivity.
Qed.

(** The task without its job or its user. *)
Lemma task_without_job_or_user fuel rid jid uid mode scope w :
  db_jobs w !! jid = None \/ db_users w !! uid = None ->
  exists w',
    classify_emails_task P settings fuel rid jid uid mode scope w = Some (Ok tt, w') /\
    db_jobs w' = db_jobs w /\ db_users w' = db_users w /\ prov w' = prov w /\
    trail w' = trail w /\
    calls w' = calls w ++ [CCommit (status <$> db_jobs w !! jid)].
Proof.
  intros Hmiss. unfold classify_emails_task, get_db_context.
  unfold session_open at 1, query_job at 1, query_user at 1. prim.
  destruct (db_jobs w !! jid) as [j|] eqn:Ej, (db_users w !! uid) as [u|] eqn:Eu;
    try (destruct Hmiss; discriminate);
    prim; unfold db_commit, session_close; prim;
    eexists; (split; [reflexivity|]); prim;
    repeat split; try reflexivity;
    try (apply insert_id; assumption).
Qed.

End LoopTotal.

(** ** main.py: the cancel route *)

Lemma cancellable_terminal (s : JobStatus) :
  bool_decide (s ∈ [PENDING; RUNNING]) = negb (terminal s).
Proof. destruct s; vm_compute; reflexivity. Qed.

Section Cancel.
Context {Σ : Type}.
Implicit Types w : World Σ.

(** A cancel request moves a PENDING or RUNNING job to CANCELLED, after
    revoking its task when the task id is recorded; it rejects a job in
    a terminal state and leaves it as it is. *)
Lemma cancel_job_effect jid uid w j :
  db_jobs w !! jid = Some j -> job_user_id j = uid ->
  if terminal (status j) then
    exists w', cancel_job jid uid w
               = Some (Raise (HTTPException 400 "Job cannot be cancelled"), w') /\
               db_jobs w' = db_jobs w /\ calls w' = calls w
  else
    exists w', cancel_job jid uid w = Some (Ok (jid, CANCELLED), w') /\
               db_jobs w' = <[jid := set_status CANCELLED j]> (db_jobs w) /\
               calls w' = calls w ++ revocation j ++ [CCommit (Some CANCELLED)].
Proof.
  intros Hj Hu.
  assert (Hq : query_job_of_user jid uid (with_session None None w)
               = Some (Ok (Some j),
                       with_session (Some (jid, j)) None (with_session None None w))).
  { unfold query_job_of_user. prim. rewrite Hj, Hu, String.eqb_refl. reflexivity. }
  destruct (status j) eqn:Es; cbn [terminal];
    unfold cancel_job, get_db, session_open; prim;
    rewrite (bind_ok _ _ _ _ _ Hq); prim;
    rewrite cancellable_terminal, Es; cbn [negb terminal]; prim.
  3,4,5: eexists; (split; [reflexivity|]); prim; split; reflexivity.
  all: unfold revocation, truthy_opt;
    destruct (celery_task_id j) as [tid|]; [destruct (Str.truthy tid)|];
    prim; unfold db_commit; prim;
    eexists; (split; [reflexivity|]); prim;
    (split; [reflexivity|]); rewrite <- ?app_assoc; reflexivity.
Qed.

End Cancel.

(** ** The worker: runs whose progress updates are accepted *)

#[global] Instance uninterrupted_preorder {Σ : Type} :
  PreOrder (uninterrupted (Σ := Σ)).
Proof.
  split.
  - intros w. exists []. rewrite app_nil_r. split; reflexivity.
  - intros w1 w2 w3 (t1 & T1 & S1) (t2 & T2 & S2).
    exists (t1 ++ t2). rewrite T2, T1, app_assoc. split; [reflexivity|].
    rewrite interrupted_app, S1, S2. reflexivity.
Qed.

Section Uninterrupted.
Context {Σ : Type} (P : Provider Σ) (settings : Settings).
Implicit Types w : World Σ.

Lemma pres_get_db_context {A} (R : World Σ -> World Σ -> Prop) `{!PreOrder R}
    (body : M Σ A) :
  pres R (session_open (Σ := Σ)) -> pres R (session_close (Σ := Σ)) ->
  pres R (db_commit (Σ := Σ)) -> pres R (log (Σ := Σ) CRollback) ->
  pres R body -> pres R (get_db_context body).
Proof.
  intros Ho Hc Hcommit Hroll Hbody w r w' H. unfold get_db_context in H.
  destruct (bind session_open (fun _ => body) w) as [[[a|e] w1]|] eqn:E; [| |discriminate].
  - transitivity w1.
    + revert E. apply pres_bind; [typeclasses eauto|exact Ho|intros _; exact Hbody].
    + assert (Hend : pres R (db_commit ;; session_close ;; ret a))
        by repeat first [ assumption | pres_step ].
      eapply Hend. exact H.
  - transitivity w1.
    + revert E. apply pres_bind; [typeclasses eauto|exact Ho|intros _; exact Hbody].
    + assert (Hend : pres R (log CRollback ;; session_close ;; raise (A := A) e))
        by repeat first [ assumption | pres_step ].
      eapply Hend. exact H.
Qed.

(** A handler that is never entered. *)
Lemma pres_try_except_total {A} (R : World Σ -> World Σ -> Prop)
    (m : M Σ A) catches h :
  (forall w e w', m w <> Some (Raise e, w')) ->
  pres R m -> pres R (try_except m catches h).
Proof.
  intros Hm Hp w r w' H. unfold try_except in H.
  destruct (m w) as [[[a|e] w1]|] eqn:E.
  - eapply Hp. rewrite E. exact H.
  - exfalso. eapply Hm. exact E.
  - discriminate.
Qed.

Lemma uninterrupted_same_trail {A} (m : M Σ A) :
  (forall w r w', m w = Some (r, w') -> trail w' = trail w) -> pres uninterrupted m.
Proof.
  intros Hm w r w' H. exists []. rewrite app_nil_r. split; [eapply Hm; exact H|reflexivity].
Qed.

Lemma uninterrupted_kept {A} ok (m : M Σ A) : pres (kept ok) m -> pres uninterrupted m.
Proof.
  apply pres_weaken. intros w w' (_ & T & _). exists []. rewrite app_nil_r. auto.
Qed.

Lemma uninterrupted_modify_job f : pres uninterrupted (modify_job (Σ := Σ) f).
Proof. apply uninterrupted_same_trail. intros w r w' [= <- <-]. reflexivity. Qed.

Lemma uninterrupted_db_commit : pres uninterrupted (db_commit (Σ := Σ)).
Proof. apply (uninterrupted_kept removes_nothing), kept_db_commit. intros; exact I. Qed.

Lemma uninterrupted_note id o :
  is_interrupted o = false -> pres uninterrupted (note (Σ := Σ) id o).
Proof.
  intros Ho w r w' [= <- <-]. exists [(id, o)]. cbn. rewrite Ho. auto.
Qed.

Lemma uninterrupted_label_message cache id c fr :
  pres uninterrupted (label_message P settings cache id c fr).
Proof.
  unfold label_message.
  repeat first [ pres_step
               | apply (uninterrupted_kept service_call), kept_of_served, served_apply_label
               | apply uninterrupted_modify_job
               | apply uninterrupted_note; reflexivity ].
Qed.

(** A checkpoint whose progress update is accepted does not raise. *)
Lemma checkpoint_accepted idx total fr w :
  ((idx + 1) mod 10 <> 0)%nat \/
  (forall s, (update_state P (idx + 1)%nat total (f_counts fr) s).1 = Ok tt) ->
  forall e w', checkpoint P idx total fr w <> Some (Raise e, w').
Proof.
  intros Hok e w'. unfold checkpoint.
  destruct (Nat.eqb_spec ((idx + 1) mod 10) 0) as [E|E]; [|discriminate].
  destruct Hok as [Hne|Hok]; [contradiction|].
  unfold db_commit, call. prim.
  match goal with |- context [update_state P ?a ?b ?c ?s] =>
    specialize (Hok s); destruct (update_state P a b c s) as [r s1] end.
  cbn in Hok. subst r. discriminate.
Qed.

Lemma uninterrupted_process_message classifier cache total idx id fr :
  progress_accepted P ->
  pres uninterrupted (process_message P settings classifier cache total idx id fr).
Proof.
  intros Hok. unfold process_message, on_exception.
  apply pres_try_except; [typeclasses eauto| |intros e].
  - apply pres_bind; [typeclasses eauto| |intros md].
    + apply (uninterrupted_kept service_call), kept_of_served, served_get_message_detail.
    + destruct md as [d|].
      * apply pres_bind; [typeclasses eauto| |intros fr1].
        { unfold classify_and_label.
          repeat first [ pres_step | apply uninterrupted_label_message
                       | apply uninterrupted_modify_job ]. }
        apply pres_try_except_total.
        -- intros w e w' H. apply bind_inv in H as [(? & w1 & _ & H)|(e0 & H & _)].
           ++ discriminate.
           ++ revert H. apply checkpoint_accepted. right. intros s. apply Hok.
        -- apply pres_bind; [typeclasses eauto| |intros _; apply pres_ret; typeclasses eauto].
           apply (uninterrupted_kept removes_nothing), kept_checkpoint.
      * repeat first [ pres_step | apply uninterrupted_modify_job
                     | apply uninterrupted_note; reflexivity ].
  - repeat first [ pres_step | apply uninterrupted_modify_job
                 | apply uninterrupted_note; reflexivity ].
Qed.

Lemma uninterrupted_process_messages classifier cache total ids :
  progress_accepted P ->
  forall idx fr,
    pres uninterrupted (process_messages P settings classifier cache total idx ids fr).
Proof.
  intros Hok.
  induction ids as [|id ids IH]; intros idx fr; cbn [process_messages].
  - apply pres_ret. typeclasses eauto.
  - apply pres_bind; [typeclasses eauto| |intros; apply IH].
    apply uninterrupted_process_message; assumption.
Qed.

Lemma uninterrupted_run_job fuel rid uid user mode scope :
  progress_accepted P ->
  pres uninterrupted (run_job P settings fuel rid uid user mode scope).
Proof.
  intros Hok. unfold run_job, process_job.
  repeat first [ apply uninterrupted_modify_job | apply uninterrupted_db_commit
               | apply (uninterrupted_kept removes_nothing), kept_refresh_google_token
               | apply (uninterrupted_kept removes_nothing), kept_init
               | apply (uninterrupted_kept removes_nothing), kept_new_classifier
               | apply (uninterrupted_kept service_call), kept_of_served,
                   served_get_messages
               | apply (uninterrupted_kept removes_nothing), kept_create_labels
               | apply uninterrupted_process_messages; assumption
               | pres_step ].
Qed.

(** A run whose progress updates are all accepted leaves no entry of an
    interrupted checkpoint. *)
Lemma uninterrupted_task fuel rid jid uid mode scope :
  progress_accepted P ->
  pres uninterrupted (classify_emails_task P settings fuel rid jid uid mode scope).
Proof.
  intros Hok. unfold classify_emails_task.
  apply pres_get_db_context; try typeclasses eauto; try apply uninterrupted_db_commit;
    try (apply uninterrupted_same_trail; intros w r w' [= <- <-]; reflexivity).
  apply pres_bind; [typeclasses eauto| |intros job].
  { apply uninterrupted_same_trail. intros w r w' [= <- <-]. reflexivity. }
  apply pres_bind; [typeclasses eauto| |intros user].
  { apply uninterrupted_same_trail. intros w r w' [= <- <-]. reflexivity. }
  destruct job as [job|]; [|apply pres_ret; typeclasses eauto].
  destruct user as [user|]; [|apply pres_ret; typeclasses eauto].
  apply pres_try_except;
    [typeclasses eauto|apply uninterrupted_run_job; exact Hok|intros e].
  unfold fail_job.
  repeat first [ pres_step | apply uninterrupted_modify_job
               | apply uninterrupted_db_commit ].
Qed.

End Uninterrupted.

(** ** The job: counters, states, cancellation *)

Lemma fetch_calls_no_modify (l : list Call) :
  Forall fetch_call l -> count_calls is_modify l = 0%nat.
Proof.
  induction 1 as [|c l Hc _ IH]; [reflexivity|].
  cbn. rewrite IH. destruct c; try contradiction; reflexivity.
Qed.

Section Job.
Context {Σ : Type} (P : Provider Σ) (settings : Settings).
Implicit Types w : World Σ.

Lemma fetch_get_message_detail (id : string) :
  pres (served fetch_call) (GmailService.get_message_detail P id).
Proof.
  unfold GmailService.get_message_detail, GmailService.get_message_detail_once.
  repeat pres_step.
Qed.

(** C1, as the code has it.  When a run completes a job that was fresh
    and not yet completed, with [t] the history of its loop: the job's
    total is the number of listed messages; the category counts, the
    error count and the messages skipped for want of a cached label add
    up to the total plus the number of messages whose checkpoint raised
    (such a message is counted by its outcome and once more as an error),
    and no checkpoint raises in a run whose progress updates the result
    backend accepts; [processed] is at most the total and equals it when
    the last listed message went as far as the assignment of
    [processed] (its fetch gave a message and nothing raised before);
    hence, when moreover no message was skipped and no checkpoint
    raised, the counts and the errors add up to [processed]. *)
Theorem completed_job_tally fuel rid jid uid mode scope w r w' j j' :
  classify_emails_task P settings fuel rid jid uid mode scope w = Some (r, w') ->
  db_jobs w !! jid = Some j -> fresh j -> status j <> COMPLETED ->
  db_jobs w' !! jid = Some j' -> status j' = COMPLETED ->
  exists t,
    trail w' = trail w ++ t /\
    total_emails j' = length (handled t) /\
    (sum_values (category_counts j') + error_count j' + skipped t
     = total_emails j' + interrupted t)%nat /\
    (progress_accepted P -> interrupted t = 0%nat) /\
    (processed_emails j' <= total_emails j')%nat /\
    match last t with
    | Some (_, o) => reaches_update o = true -> processed_emails j' = total_emails j'
    | None => processed_emails j' = total_emails j'
    end /\
    (skipped t = 0%nat -> interrupted t = 0%nat ->
     processed_emails j' = total_emails j' ->
     (sum_values (category_counts j') + error_count j')%nat = processed_emails j').
Proof.
  intros Hrun Hj Hfresh Hnot Hj' Hdone.
  destruct (db_users w !! uid) as [u|] eqn:Hu.
  - destruct (task_effect P settings _ _ _ _ _ _ _ _ _ _ _ Hrun Hj Hu)
      as (_ & j0 & Hj0 & Hr).
    rewrite Hj' in Hj0. injection Hj0 as <-.
    destruct r as [[]|e].
    + destruct Hr as (_ & t & T & Tally). exists t.
      destruct (Tally Hfresh) as (_ & Tot & Cnt & Ple & Plast & _).
      split; [exact T|]. split; [exact Tot|]. split; [exact Cnt|].
      split.
      { intros Hok.
        destruct (uninterrupted_task P settings fuel rid jid uid mode scope Hok
                    _ _ _ Hrun) as (t' & T' & Hnone).
        rewrite T in T'. apply app_inv_head in T'. subst t'. exact Hnone. }
      split; [exact Ple|]. split; [exact Plast|]. lia.
    + destruct Hr as (St & _). rewrite St in Hdone. discriminate.
  - destruct (task_without_job_or_user P settings fuel rid jid uid mode scope w
                (or_intror Hu)) as (w0 & E & DB & _).
    rewrite E in Hrun. injection Hrun as <- <-.
    rewrite DB, Hj in Hj'. injection Hj' as <-. contradiction.
Qed.

(** C2, as the code has it.  A cancel request moves a PENDING or
    RUNNING job to CANCELLED, revoking its task when the task id is
    recorded, and is rejected for a job in COMPLETED, FAILED or CANCELLED,
    which it leaves as it is.  A run that finds the job and its user
    first commits RUNNING, whatever the status of the job was, and ends
    with the job COMPLETED (when it returns) or FAILED (when it raises):
    it makes no cancellation check, so a terminal state is not absorbing
    under a run.  The run comes to that end whenever its listing of the
    message ids returns. *)
Theorem job_status_transitions :
  (forall jid uid w j,
     db_jobs w !! jid = Some j -> job_user_id j = uid ->
     if terminal (status j) then
       exists w', cancel_job jid uid w
                  = Some (Raise (HTTPException 400 "Job cannot be cancelled"), w') /\
                  db_jobs w' = db_jobs w /\ calls w' = calls w
     else
       exists w', cancel_job jid uid w = Some (Ok (jid, CANCELLED), w') /\
                  db_jobs w' = <[jid := set_status CANCELLED j]> (db_jobs w) /\
                  calls w' = calls w ++ revocation j ++ [CCommit (Some CANCELLED)]) /\
  (forall fuel rid jid uid mode scope w r w' j u,
     classify_emails_task P settings fuel rid jid uid mode scope w = Some (r, w') ->
     db_jobs w !! jid = Some j -> db_users w !! uid = Some u ->
     (exists l, calls w' = calls w ++ CCommit (Some RUNNING) :: l) /\
     exists j', db_jobs w' !! jid = Some j' /\
                status j' = match r with Ok _ => COMPLETED | Raise _ => FAILED end /\
                terminal (status j') = true) /\
  (forall fuel rid jid uid mode scope w,
     (forall sc, returns (GmailService.get_messages P settings fuel sc
                            (Some (GMAIL_MAX_RESULTS settings)))) ->
     exists r w', classify_emails_task P settings fuel rid jid uid mode scope w
                  = Some (r, w')).
Proof.
  split; [|split].
  - intros jid uid w j Hj Hu. apply cancel_job_effect; assumption.
  - intros fuel rid jid uid mode scope w r w' j u Hrun Hj Hu.
    destruct (task_effect P settings _ _ _ _ _ _ _ _ _ _ _ Hrun Hj Hu)
      as ((l & C & _) & j' & Hj' & Hr).
    split; [exists l; exact C|]. exists j'. split; [exact Hj'|].
    destruct r as [[]|e].
    + destruct Hr as (St & _). rewrite St. split; reflexivity.
    + destruct Hr as (St & _). rewrite St. split; reflexivity.
  - intros fuel rid jid uid mode scope w Hlist.
    apply (task_returns P settings fuel rid jid uid mode scope Hlist w).
Qed.

(** C3, as the code has it.  The loop has no cancellation check: in
    every world, whatever the status of the job row, it returns after
    fetching every message of the list, and a run that finds the job and
    its user never ends with the job CANCELLED, even when the job was
    CANCELLED at entry.  Cancellation comes from outside: the cancel
    request revokes the task and sets CANCELLED.  No call of a run
    removes a label: every modify request only adds one. *)
Theorem run_makes_no_cancellation_check :
  (forall classifier cache total idx ids fr w,
     exists fr' w' l,
       process_messages P settings classifier cache total idx ids fr w
         = Some (Ok fr', w') /\
       calls w' = calls w ++ l /\
       (forall id, In id ids -> In (CMessagesGet id) l) /\
       Forall removes_nothing l) /\
  (forall fuel rid jid uid mode scope w r w' j u,
     classify_emails_task P settings fuel rid jid uid mode scope w = Some (r, w') ->
     db_jobs w !! jid = Some j -> db_users w !! uid = Some u ->
     exists j' l,
       db_jobs w' !! jid = Some j' /\ status j' <> CANCELLED /\
       calls w' = calls w ++ l /\ Forall removes_nothing l) /\
  (forall jid uid w j,
     db_jobs w !! jid = Some j -> job_user_id j = uid -> terminal (status j) = false ->
     exists w', cancel_job jid uid w = Some (Ok (jid, CANCELLED), w') /\
                status <$> (db_jobs w' !! jid) = Some CANCELLED /\
                calls w' = calls w ++ revocation j ++ [CCommit (Some CANCELLED)]).
Proof.
  split; [|split].
  - intros classifier cache total idx ids fr w.
    destruct (returns_process_messages P settings classifier cache total ids idx fr w)
      as (r & w' & E).
    destruct (process_messages_fetches P settings _ _ _ _ _ _ _ _ _ E)
      as (l & C & F & Hin).
    destruct r as [fr'|e].
    + exists fr', w', l. auto.
    + exfalso. revert E. clear. revert idx fr w.
      induction ids as [|id ids IH]; intros idx fr w E; cbn [process_messages] in E;
        [discriminate|].
      apply bind_inv in E as [(fr1 & w1 & _ & E)|(e0 & E & _)]; [eapply IH; exact E|].
      unfold process_message, try_except in E.
      destruct (bind _ _ w) as [[[a|e1] w2]|]; discriminate.
  - intros fuel rid jid uid mode scope w r w' j u Hrun Hj Hu.
    destruct (task_effect P settings _ _ _ _ _ _ _ _ _ _ _ Hrun Hj Hu)
      as ((l & C & F) & j' & Hj' & Hr).
    exists j', (CCommit (Some RUNNING) :: l).
    split; [exact Hj'|]. split.
    + destruct r as [[]|e]; destruct Hr as (St & _); rewrite St; discriminate.
    + split; [exact C|]. constructor; [exact I|exact F].
  - intros jid uid w j Hj Hu Hterm.
    pose proof (cancel_job_effect jid uid w j Hj Hu) as H. rewrite Hterm in H.
    destruct H as (w' & E & DB & C). exists w'.
    split; [exact E|]. split; [|exact C].
    rewrite DB, lookup_insert_eq. reflexivity.
Qed.

(** C4, as the code has it.  When the job or the user is missing at
    entry the run logs the fact and returns: it leaves both tables as
    they are (the job, if there is one, keeps its status and gets no
    error entry), and makes no call: no credential resolution, no
    listing, no message is processed; the only entry on the log is the
    commit of the session when it closes. *)
Theorem missing_job_or_user_returns fuel rid jid uid mode scope w :
  db_jobs w !! jid = None \/ db_users w !! uid = None ->
  exists w',
    classify_emails_task P settings fuel rid jid uid mode scope w = Some (Ok tt, w') /\
    db_jobs w' = db_jobs w /\ db_users w' = db_users w /\ prov w' = prov w /\
    trail w' = trail w /\
    calls w' = calls w ++ [CCommit (status <$> db_jobs w !! jid)].
Proof. apply task_without_job_or_user. Qed.

(** C10.  A category outside the catalog can only come from the model.
    For a message classified so, with the label cache built from the
    catalog, lines 100-116 apply no label (they make no call at all),
    leave the counts, the errors and the error count as they are, assign
    [idx + 1] to [processed], and record the message as skipped.  The
    iteration as a whole ends in that state, with no modify call made,
    whenever no checkpoint is due after the message or the result
    backend accepts the progress update of the checkpoint.  In every
    case the iteration returns without a modify call, with the counts as
    they were, [processed] at [idx + 1] and the message recorded as
    skipped; the one thing a checkpoint that raises adds is the error of
    the handler of the loop. *)
Theorem unknown_category_is_skipped classifier total idx id fr w d w1 c k j
    cache w0 w0' :
  create_labels P EmailClassifier.category_names ∅ w0 = Some (Ok cache, w0') ->
  GmailService.get_message_detail P id w = Some (Ok (Some d), w1) ->
  EmailClassifier.classify classifier (d_subject d) (d_body d) (d_from d) = Ok c ->
  ~ In c EmailClassifier.category_names ->
  sess_job w = Some (k, j) ->
  (EmailClassifier._rule_based_classify
     (EmailClassifier.text_of (d_subject d) (d_body d) (d_from d)) = None /\
   RuleSpec.prediction classifier
     (EmailClassifier.text_of (d_subject d) (d_body d) (d_from d)) = Some c) /\
  (exists w2 j2,
     classify_and_label P settings classifier cache idx id d fr w1 = Some (Ok fr, w2) /\
     sess_job w2 = Some (k, j2) /\
     category_counts j2 = f_counts fr /\
     error_count j2 = error_count j /\
     processed_emails j2 = (idx + 1)%nat /\
     trail w2 = trail w ++ [(id, Skipped c)] /\
     calls w2 = calls w1) /\
  (((idx + 1) mod 10 <> 0)%nat \/
   (forall s, (update_state P (idx + 1)%nat total (f_counts fr) s).1 = Ok tt) ->
   exists w' j' l,
     process_message P settings classifier cache total idx id fr w = Some (Ok fr, w') /\
     sess_job w' = Some (k, j') /\
     category_counts j' = f_counts fr /\
     error_count j' = error_count j /\
     processed_emails j' = (idx + 1)%nat /\
     trail w' = trail w ++ [(id, Skipped c)] /\
     calls w' = calls w ++ l /\ count_calls is_modify l = 0%nat) /\
  (exists fr' w' j' l t,
     process_message P settings classifier cache total idx id fr w = Some (Ok fr', w') /\
     sess_job w' = Some (k, j') /\
     f_counts fr' = f_counts fr /\
     category_counts j' = f_counts fr /\
     error_count j' = (error_count j + interrupted t)%nat /\
     processed_emails j' = (idx + 1)%nat /\
     trail w' = trail w ++ (id, Skipped c) :: t /\
     calls w' = calls w ++ l /\ count_calls is_modify l = 0%nat).
Proof.
  intros Hcache Hget Hcls Hc Hj.
  split.
  { rewrite classify_stages in Hcls. cbn zeta in Hcls. injection Hcls as Hcls.
    destruct (EmailClassifier._rule_based_classify _) as [c0|] eqn:Hr.
    - exfalso. subst c0. apply Hc. revert Hr. clear.
      unfold EmailClassifier._rule_based_classify.
      repeat (match goal with |- context [if ?b then _ else _] => destruct b end;
              [intros [= <-]; vm_compute; tauto|]).
      discriminate.
    - split; [reflexivity|].
      destruct (RuleSpec.prediction classifier _) as [l|].
      + destruct (Str.truthy l); [subst; reflexivity|].
        exfalso. apply Hc. subst c. vm_compute. tauto.
      + exfalso. apply Hc. subst c. vm_compute. tauto. }
  assert (Hnone : cache !! c = None).
  { rewrite (create_labels_lookup P _ c Hc _ _ _ _ Hcache). apply lookup_empty. }
  pose proof (fetch_get_message_detail id _ _ _ Hget)
    as (_ & _ & SJ & _ & T & l0 & C0 & F0).
  apply fetch_calls_no_modify in F0.
  set (j2 := set_category_counts (f_counts fr) (set_processed_emails (idx + 1)%nat j)).
  assert (Hlines : exists w2,
            classify_and_label P settings classifier cache idx id d fr w1
              = Some (Ok fr, w2) /\
            sess_job w2 = Some (k, j2) /\
            trail w2 = trail w ++ [(id, Skipped c)] /\ calls w2 = calls w1).
  { unfold classify_and_label. rewrite Hcls. prim.
    unfold label_message. rewrite Hnone. prim. rewrite SJ, Hj. prim.
    eexists. split; [reflexivity|]. prim. rewrite T. auto. }
  destruct Hlines as (w2 & Hlines & SJ2 & T2 & C2).
  split.
  { exists w2, j2. split; [exact Hlines|]. split; [exact SJ2|]. subst j2. attrs. auto. }
  remember (process_message P settings classifier cache total idx id fr w) as pm eqn:Hpm.
  unfold process_message in Hpm. unfold try_except at 1 in Hpm.
  rewrite (bind_ok _ _ _ _ _ Hget) in Hpm. rewrite (bind_ok _ _ _ _ _ Hlines) in Hpm.
  destruct (guarded_checkpoint_effect P total idx id fr w2 k j2 SJ2)
    as (fr' & w' & j' & l & t & E & SJ' & T' & C' & F' & Hfr & Hcat & Hpr & Herr & Hquiet).
  rewrite E in Hpm. subst pm. subst j2. attrs.
  split.
  - intros Hok. destruct (Hquiet Hok) as (-> & -> & ->).
    exists w', (set_category_counts (f_counts fr) (set_processed_emails (idx + 1)%nat j)),
      (l0 ++ l).
    split; [reflexivity|]. split; [exact SJ'|]. attrs.
    split; [reflexivity|]. split; [reflexivity|]. split; [reflexivity|].
    split; [rewrite T', T2, app_nil_r; reflexivity|].
    split; [rewrite C', C2, C0, app_assoc; reflexivity|].
    rewrite count_calls_app, F0, F'. reflexivity.
  - exists fr', w', j', (l0 ++ l), t.
    split; [reflexivity|]. split; [exact SJ'|]. split; [exact Hfr|].
    split; [exact Hcat|]. split; [exact Herr|]. split; [exact Hpr|].
    split; [rewrite T', T2, <- app_assoc; reflexivity|].
    split; [rewrite C', C2, C0, app_assoc; reflexivity|].
    rewrite count_calls_app, F0, F'. reflexivity.
Qed.

End Job.

(** ** The claims on concrete runs *)

Lemma completed_job_tally_witness :
  exists t,
    trail Scenario.three_done = t /\ interrupted t = 0%nat /\
    (sum_values (category_counts (Mock.job_of Scenario.three_done))
     + error_count (Mock.job_of Scenario.three_done) + skipped t
     = total_emails (Mock.job_of Scenario.three_done) + interrupted t)%nat.
Proof.
  destruct (completed_job_tally Mock.provider default_settings
              1000 "task1" "j1" "u1" "fast" "unread"
              Scenario.three (Ok tt) Scenario.three_done
              (new_job "u1" "fast" "unread") (Mock.job_of Scenario.three_done))
    as (t & T & _ & Cnt & Hnone & _).
  - vm_compute. reflexivity.
  - reflexivity.
  - repeat split.
  - discriminate.
  - vm_compute. reflexivity.
  - vm_compute. reflexivity.
  - exists t. split; [exact T|]. split; [|exact Cnt].
    apply Hnone. intros processed total counts s. reflexivity.
Defined.

(** C1 fails as stated.  In the first run the model labels the only
    message "newsletter": the job completes with [processed = 1] while the
    category counts and the error count add up to 0.  In the second run
    the only listed message is gone: the job completes with [total = 1]
    and [processed = 0].  In the third run all ten messages are labelled
    and counted, and the progress update after the tenth raises: the job
    completes with [processed = total = 10] while the category counts and
    the error count add up to 11. *)
Lemma completed_job_counters_differ :
  (let j := Mock.job_of Scenario.newsletter_done in
   status j = COMPLETED /\
   (sum_values (category_counts j) + error_count j)%nat = 0%nat /\
   processed_emails j = 1%nat /\ total_emails j = 1%nat) /\
  (let j := Mock.job_of Scenario.vanished_done in
   status j = COMPLETED /\
   (sum_values (category_counts j) + error_count j)%nat = 1%nat /\
   processed_emails j = 0%nat /\ total_emails j = 1%nat) /\
  (let j := Mock.job_of Cases.ten_interrupted in
   status j = COMPLETED /\
   sum_values (category_counts j) = 10%nat /\ error_count j = 1%nat /\
   processed_emails j = 10%nat /\ total_emails j = 10%nat).
Proof. vm_compute. repeat split. Qed.

Lemma job_status_transitions_witness :
  terminal (status (Mock.job_of Scenario.cancelled)) = true /\
  exists j', db_jobs Scenario.cancelled_done !! "j1" = Some j' /\
             status j' = COMPLETED.
Proof.
  split; [reflexivity|].
  destruct (job_status_transitions Mock.provider default_settings) as (_ & Hrun & _).
  destruct (Hrun 1000%nat "task1" "j1" "u1" "fast" "unread"
              Scenario.cancelled (Ok tt) Scenario.cancelled_done
              (set_status CANCELLED (new_job "u1" "fast" "unread")) Mock.a_user)
    as (_ & j' & Hj' & St & _).
  - vm_compute. reflexivity.
  - vm_compute. reflexivity.
  - reflexivity.
  - exists j'. split; [exact Hj'|exact St].
Defined.

(** C2 fails as stated.  The cancel request arrives while the job is
    PENDING and its task id is not yet recorded: it sets CANCELLED and
    revokes nothing; the task then starts, and the job leaves CANCELLED for
    RUNNING and ends COMPLETED. *)
Lemma cancel_while_pending_completes :
  status (Mock.job_of Scenario.three) = PENDING /\
  fst <$> Scenario.cancel_pending = Some (Ok ("j1", CANCELLED)) /\
  calls Scenario.cancelled = [CCommit (Some CANCELLED)] /\
  status (Mock.job_of Scenario.cancelled) = CANCELLED /\
  (exists l, calls Scenario.cancelled_done
             = calls Scenario.cancelled ++ CCommit (Some RUNNING) :: l) /\
  status (Mock.job_of Scenario.cancelled_done) = COMPLETED.
Proof.
  split; [reflexivity|]. split; [reflexivity|]. split; [reflexivity|].
  split; [reflexivity|]. split; [|vm_compute; reflexivity].
  eexists. vm_compute. reflexivity.
Qed.

Lemma run_makes_no_cancellation_check_witness :
  exists j' l,
    db_jobs Scenario.cancelled_done !! "j1" = Some j' /\ status j' <> CANCELLED /\
    calls Scenario.cancelled_done = calls Scenario.cancelled ++ l /\
    Forall removes_nothing l.
Proof.
  destruct (run_makes_no_cancellation_check Mock.provider default_settings)
    as (_ & Hrun & _).
  apply (Hrun 1000%nat "task1" "j1" "u1" "fast" "unread"
           Scenario.cancelled (Ok tt) Scenario.cancelled_done
           (set_status CANCELLED (new_job "u1" "fast" "unread")) Mock.a_user).
  - vm_compute. reflexivity.
  - vm_compute. reflexivity.
  - reflexivity.
Defined.

(** C3 fails as stated.  The job row says CANCELLED before the first
    message and throughout the run; all three messages are fetched and
    labeled all the same, and the job ends COMPLETED with [processed = 3]. *)
Lemma cancelled_job_is_processed :
  status (Mock.job_of Scenario.cancelled) = CANCELLED /\
  count_calls is_get (calls Scenario.cancelled_done) = 3%nat /\
  count_calls is_modify (calls Scenario.cancelled_done) = 3%nat /\
  status (Mock.job_of Scenario.cancelled_done) = COMPLETED /\
  processed_emails (Mock.job_of Scenario.cancelled_done) = 3%nat.
Proof. vm_compute. repeat split. Qed.

Lemma missing_job_or_user_returns_witness :
  exists w',
    Mock.run Scenario.no_user "fast" "unread" = Some (Ok tt, w') /\
    db_jobs w' = db_jobs Scenario.no_user /\
    calls w' = [CCommit (Some PENDING)].
Proof.
  destruct (missing_job_or_user_returns Mock.provider default_settings
              1000 "task1" "j1" "u1" "fast" "unread" Scenario.no_user
              (or_intror eq_refl))
    as (w' & E & DB & _ & _ & _ & C).
  exists w'. split; [exact E|]. split; [exact DB|exact C].
Defined.

(** C4 fails as stated.  The user of the job is missing: the run returns
    and the job is still PENDING, with no error entry. *)
Lemma missing_user_job_not_failed :
  db_users Scenario.no_user !! "u1" = None /\
  fst <$> Mock.run Scenario.no_user "fast" "unread" = Some (Ok tt) /\
  status (Mock.job_of Scenario.no_user_done) = PENDING /\
  errors (Mock.job_of Scenario.no_user_done) = [].
Proof. vm_compute. repeat split. Qed.

Lemma unknown_category_is_skipped_witness :
  exists w' j',
    process_message Mock.provider default_settings Scenario.newsletter_classifier
      Scenario.newsletter_cache 1 0 "m1" {| f_counts := zero_counts; f_errors := [] |}
      Scenario.newsletter_loaded
    = Some (Ok {| f_counts := zero_counts; f_errors := [] |}, w') /\
    sess_job w' = Some ("j1", j') /\
    error_count j' = 0%nat /\ processed_emails j' = 1%nat /\
    trail w' = [("m1", Skipped "newsletter")].
Proof.
  destruct (unknown_category_is_skipped Mock.provider default_settings
              Scenario.newsletter_classifier 1 0 "m1"
              {| f_counts := zero_counts; f_errors := [] |}
              Scenario.newsletter_loaded
              (GmailService.detail_of "m1" Scenario.hello)
              (Mock.world_after
                 (GmailService.get_message_detail Mock.provider "m1"
                    Scenario.newsletter_loaded)
                 Scenario.newsletter_loaded)
              "newsletter" "j1" (new_job "u1" "balanced" "unread")
              Scenario.newsletter_cache Scenario.newsletter
              (Mock.world_after Scenario.labels_made Scenario.newsletter))
    as (_ & _ & Hquiet & _).
  - vm_compute. reflexivity.
  - vm_compute. reflexivity.
  - vm_compute. reflexivity.
  - cbn. intros H. repeat (destruct H as [H|H]; [discriminate H|]). exact H.
  - reflexivity.
  - destruct Hquiet as (w' & j' & l & E & SJ & _ & Ec & Pr & T & _).
    + left. vm_compute. discriminate.
    + exists w', j'. split; [exact E|]. split; [exact SJ|].
      split; [exact Ec|]. split; [exact Pr|exact T].
Defined.

(** The end-to-end run of the specification: three unread messages in
    FAST mode, one with two spam keywords, one without a rule match, one
    with two work keywords. *)
Example end_to_end_run :
  let j := Mock.job_of Scenario.mixed_done in
  status j = COMPLETED /\ total_emails j = 3%nat /\ processed_emails j = 3%nat /\
  error_count j = 0%nat /\
  category_counts j !! "spam" = Some 1%nat /\
  category_counts j !! "personal" = Some 1%nat /\
  category_counts j !! "work" = Some 1%nat /\
  sum_values (category_counts j) = 3%nat.
Proof. vm_compute. repeat split. Qed.

(** ** classifier.py: letter case, and the range of [classify] *)

Lemma lower_char_idempotent (c : ascii) :
  Str.lower_char (Str.lower_char c) = Str.lower_char c.
Proof. destruct c as [[] [] [] [] [] [] [] []]; reflexivity. Qed.

Lemma lower_idempotent (s : string) : Str.lower (Str.lower s) = Str.lower s.
Proof.
  induction s as [|c s IH]; cbn; [reflexivity|].
  rewrite lower_char_idempotent, IH. reflexivity.
Qed.

Lemma lower_app (s t : string) : Str.lower (s +:+ t) = Str.lower s +:+ Str.lower t.
Proof.
  induction s as [|c s IH]; [reflexivity|].
  change (String c s +:+ t) with (String c (s +:+ t)).
  cbn [Str.lower]. rewrite IH. reflexivity.
Qed.

Lemma text_of_lower (subject body sender : string) :
  EmailClassifier.text_of subject body sender
  = Str.lower subject +:+ " " +:+ Str.lower body +:+ " " +:+ Str.lower sender.
Proof. unfold EmailClassifier.text_of. rewrite !lower_app. reflexivity. Qed.

(** X1. [classify] does not depend on the case of the ASCII letters of
    the subject, the body and the sender: texts that agree once
    lower-cased get the same category. *)
Theorem classify_ignores_case (self : EmailClassifier.t)
    (subject body sender subject' body' sender' : string) :
  Str.lower subject' = Str.lower subject ->
  Str.lower body' = Str.lower body ->
  Str.lower sender' = Str.lower sender ->
  EmailClassifier.classify self subject' body' sender'
  = EmailClassifier.classify self subject body sender.
Proof.
  intros Hs Hb Hf. rewrite !classify_stages. cbn zeta.
  rewrite (text_of_lower subject' body' sender'), (text_of_lower subject body sender).
  rewrite Hs, Hb, Hf. reflexivity.
Qed.

Lemma classify_ignores_case_witness :
  EmailClassifier.classify {| EmailClassifier.mode := FAST; EmailClassifier.model := None |}
    "Your INVOICE" "Payment Due" "Billing@Example.com"
  = EmailClassifier.classify {| EmailClassifier.mode := FAST; EmailClassifier.model := None |}
      "your invoice" "payment due" "billing@example.com".
Proof.
  apply (classify_ignores_case
           {| EmailClassifier.mode := FAST; EmailClassifier.model := None |}
           "your invoice" "payment due" "billing@example.com"
           "Your INVOICE" "Payment Due" "Billing@Example.com");
    reflexivity.
Defined.

Lemma rule_based_in_catalog (text c : string) :
  EmailClassifier._rule_based_classify text = Some c ->
  In c ["spam"; "security"; "finance"; "promotion"; "work"].
Proof.
  unfold EmailClassifier._rule_based_classify.
  repeat (match goal with |- context [if ?b then _ else _] => destruct b end;
          [intros [= <-]; cbn; tauto|]).
  discriminate.
Qed.

Lemma classify_rules_only (self : EmailClassifier.t) (subject body sender : string) :
  EmailClassifier.mode self = FAST \/ EmailClassifier.model self = None ->
  exists c, EmailClassifier.classify self subject body sender = Ok c /\
            In c EmailClassifier.category_names /\
            (c = "personal" <->
             EmailClassifier._rule_based_classify
               (EmailClassifier.text_of subject body sender) = None).
Proof.
  intros H. rewrite classify_stages. cbn zeta.
  assert (Hp : RuleSpec.prediction self (EmailClassifier.text_of subject body sender) = None).
  { unfold RuleSpec.prediction. destruct H as [-> | ->]; [reflexivity|].
    destruct (EmailClassifier.mode self); reflexivity. }
  rewrite Hp.
  destruct (EmailClassifier._rule_based_classify _) as [c|] eqn:Hr.
  - exists c. split; [reflexivity|].
    apply rule_based_in_catalog in Hr. cbn in Hr. split.
    + cbn. intuition (subst; auto 10).
    + split; [|discriminate]. intros ->.
      repeat (destruct Hr as [Hr|Hr]; [discriminate Hr|]). destruct Hr.
  - exists "personal". split; [reflexivity|]. split; [cbn; auto|tauto].
Qed.

(** X2. In the FAST mode, or when no model is loaded, [classify] returns
    one of the six categories of the catalog: a category of the rule pass
    (which never answers "personal") or the default "personal". *)
Theorem classify_without_model_in_catalog (self : EmailClassifier.t)
    (subject body sender : string) :
  EmailClassifier.mode self = FAST \/ EmailClassifier.model self = None ->
  exists c, EmailClassifier.classify self subject body sender = Ok c /\
            In c EmailClassifier.category_names /\
            (c = "personal" <->
             EmailClassifier._rule_based_classify
               (EmailClassifier.text_of subject body sender) = None).
Proof. apply classify_rules_only. Qed.

Lemma classify_without_model_in_catalog_witness :
  exists c, EmailClassifier.classify
              {| EmailClassifier.mode := BALANCED; EmailClassifier.model := None |}
              "hello" "see you on sunday" "ann@example.org" = Ok c /\
            In c EmailClassifier.category_names.
Proof.
  destruct (classify_without_model_in_catalog
              {| EmailClassifier.mode := BALANCED; EmailClassifier.model := None |}
              "hello" "see you on sunday" "ann@example.org"
              (or_intror eq_refl)) as (c & E & Hin & _).
  exists c. split; [exact E|exact Hin].
Defined.

(** ** classifier.py: [get_category_info] *)

Lemma find_key_None {A} (key : string) (l : list (string * A)) :
  ~ In key (map fst l) -> find (fun p => String.eqb (fst p) key) l = None.
Proof.
  induction l as [|[k a] l IH]; cbn; [reflexivity|]. intros Hn.
  destruct (String.eqb_spec k key) as [->|_]; [tauto|]. apply IH. tauto.
Qed.

(** X3. [get_category_info] never fails: for a name of the catalog it
    returns the keywords the rule pass uses (there are some) and the
    colour of the entry; for any other string, names in another case
    included, the default entry without keywords. *)
Theorem get_category_info_total (category : string) :
  (In category EmailClassifier.category_names ->
   info_keywords (get_category_info category) = EmailClassifier.keywords category /\
   info_keywords (get_category_info category) <> [] /\
   In (category, info_color (get_category_info category)) CATEGORY_COLORS) /\
  (~ In category EmailClassifier.category_names ->
   get_category_info category = {| info_keywords := []; info_color := "#718096" |}).
Proof.
  split.
  - intros Hin. cbn in Hin.
    repeat (destruct Hin as [<-|Hin];
            [vm_compute; split; [reflexivity|split; [discriminate|tauto]]|]).
    destruct Hin.
  - intros Hn. unfold get_category_info, category_entry.
    rewrite (find_key_None category EmailClassifier.CATEGORIES Hn). reflexivity.
Qed.

Lemma get_category_info_total_witness :
  get_category_info "Work" = {| info_keywords := []; info_color := "#718096" |}.
Proof.
  apply (get_category_info_total "Work"). cbn. intros H.
  repeat (destruct H as [H|H]; [discriminate H|]). exact H.
Defined.

(** ** gmail_service.py: reading a message *)

(** The loop over the parts, when the first parts are passed over. *)
Lemma extract_body_parts_passed (headers : list (string * string)) (mimeType : string)
    (body_data : option Body) (pre rest : list Payload) :
  has_data body_data = false -> Forall passed_over pre ->
  _extract_body (MkPayload headers mimeType body_data (Some (pre ++ rest)))
  = _extract_body (MkPayload headers mimeType body_data (Some rest)).
Proof.
  intros Hown Hpre. cbn [_extract_body]. rewrite Hown.
  induction Hpre as [|part pre Hp _ IH]; [reflexivity|].
  cbn [app]. destruct part as [h m d pp]. unfold passed_over in Hp.
  destruct (String.eqb m "text/plain").
  - rewrite Hp. exact IH.
  - subst pp. exact IH.
Qed.

(** X4. [_extract_body] returns the decoding of the payload's own data
    when it has some, whatever its MIME type and its parts.  Otherwise it
    passes over the text/plain parts without data and the parts of
    another type that have no parts of their own, and returns the
    decoding of the data of the first text/plain part that has some.  In
    both places the test is on the data as sent, so that data which
    decodes to the empty text gives the empty body, whatever the later
    parts hold.  A part of another type that has parts is searched in
    the same way: its body is returned when it is not empty, and the
    loop goes on to the next part when it is.  When every part is passed
    over (a message whose only part is text/html, say) the body is
    empty. *)
Theorem extract_body_cases (headers : list (string * string)) (mimeType : string) :
  (forall body parts,
     Str.truthy (data body) = true ->
     _extract_body (MkPayload headers mimeType (Some body) parts) = decoded body) /\
  (forall body_data pre part_headers body part_parts rest,
     has_data body_data = false -> Forall passed_over pre ->
     Str.truthy (data body) = true ->
     _extract_body
       (MkPayload headers mimeType body_data
          (Some (pre ++ MkPayload part_headers "text/plain" (Some body) part_parts :: rest)))
     = decoded body) /\
  (forall body_data pre part_headers part_type part_data part_parts rest,
     has_data body_data = false -> Forall passed_over pre ->
     String.eqb part_type "text/plain" = false ->
     let part := MkPayload part_headers part_type part_data (Some part_parts) in
     _extract_body (MkPayload headers mimeType body_data (Some (pre ++ part :: rest)))
     = if Str.truthy (_extract_body part) then _extract_body part
       else _extract_body (MkPayload headers mimeType body_data (Some rest))) /\
  (forall body_data parts,
     has_data body_data = false -> Forall passed_over parts ->
     _extract_body (MkPayload headers mimeType body_data (Some parts)) = "") /\
  (forall body_data,
     has_data body_data = false ->
     _extract_body (MkPayload headers mimeType body_data None) = "").
Proof.
  split; [|split; [|split; [|split]]].
  - intros body parts Hd. cbn [_extract_body has_data decode_data]. rewrite Hd. reflexivity.
  - intros body_data pre ph body pp rest Hown Hpre Hd.
    rewrite (extract_body_parts_passed _ _ _ _ _ Hown Hpre).
    cbn [_extract_body]. rewrite Hown.
    cbn. rewrite Hd. reflexivity.
  - intros body_data pre ph pt pd pp rest Hown Hpre Hpt part.
    rewrite (extract_body_parts_passed _ _ _ _ _ Hown Hpre).
    subst part. cbn [_extract_body]. rewrite Hown, Hpt. reflexivity.
  - intros body_data parts Hown Hparts.
    rewrite <- (app_nil_r parts).
    rewrite (extract_body_parts_passed _ _ _ _ _ Hown Hparts).
    cbn [_extract_body]. rewrite Hown. reflexivity.
  - intros body_data Hown. cbn [_extract_body]. rewrite Hown. reflexivity.
Qed.

Lemma extract_body_cases_witness :
  let html := {| data := "PHA-aGVsbG88L3A-"; decoded := "<p>hello</p>" |} in
  let text := {| data := "aGVsbG8="; decoded := "hello" |} in
  let no_text := {| data := "_w=="; decoded := "" |} in
  _extract_body
    (MkPayload [] "multipart/alternative" None
       (Some [MkPayload [] "text/html" (Some html) None;
              MkPayload [] "text/plain" (Some text) None]))
  = "hello" /\
  _extract_body
    (MkPayload [] "multipart/alternative" None
       (Some [MkPayload [] "text/plain" (Some no_text) None;
              MkPayload [] "text/plain" (Some text) None]))
  = "" /\
  _extract_body
    (MkPayload [] "multipart/alternative" None
       (Some [MkPayload [] "text/html" (Some html) None]))
  = "".
Proof.
  intros html text no_text.
  destruct (extract_body_cases [] "multipart/alternative") as (_ & H2 & _ & H4 & _).
  split; [|split].
  - apply (H2 None [MkPayload [] "text/html" (Some html) None] [] text None []).
    + reflexivity.
    + repeat constructor.
    + reflexivity.
  - apply (H2 None [] [] no_text None [MkPayload [] "text/plain" (Some text) None]).
    + reflexivity.
    + constructor.
    + reflexivity.
  - apply (H4 None [MkPayload [] "text/html" (Some html) None]).
    + reflexivity.
    + repeat constructor.
Defined.

Lemma find_none_Forall {A} (p : A -> bool) (l : list A) :
  Forall (fun y => p y = false) l -> find p l = None.
Proof. induction 1 as [|y l Hy _ IH]; cbn; [reflexivity|]. rewrite Hy. exact IH. Qed.

Lemma find_rev_last {A} (p : A -> bool) (hd tl : list A) (x : A) :
  p x = true -> Forall (fun y => p y = false) tl ->
  find p (rev (hd ++ x :: tl)) = Some x.
Proof.
  intros Hx Htl. rewrite rev_app_distr. cbn [rev]. rewrite <- app_assoc.
  assert (Hn : find p (rev tl) = None).
  { apply find_none_Forall, Forall_rev. exact Htl. }
  rewrite (find_app_None _ _ _ Hn). cbn. rewrite Hx. reflexivity.
Qed.

(** X5. The subject and the sender of [get_message_detail] are read from
    a dict of the headers: of several headers of one name the last one
    counts, the name is matched exactly (case included), and a name that
    no header carries gives the empty string. *)
Theorem header_get_last_wins (name : string) :
  (forall hd value tl,
     Forall (fun h => fst h <> name) tl ->
     header_get name (hd ++ (name, value) :: tl) = value) /\
  (forall headers,
     Forall (fun h => fst h <> name) headers -> header_get name headers = "") /\
  (forall id message,
     d_subject (GmailService.detail_of id message)
       = header_get "Subject" (payload_headers (payload message)) /\
     d_from (GmailService.detail_of id message)
       = header_get "From" (payload_headers (payload message))).
Proof.
  split; [|split].
  - intros hd value tl Htl. unfold header_get.
    rewrite (find_rev_last _ hd tl (name, value)); [reflexivity| |].
    + cbn. apply String.eqb_refl.
    + eapply Forall_impl; [exact Htl|]. intros h Hh. cbn in *.
      apply String.eqb_neq. exact Hh.
  - intros headers Hh. unfold header_get.
    replace (find _ (rev headers)) with (@None (string * string)); [reflexivity|].
    symmetry. apply find_none_Forall, Forall_rev.
    eapply Forall_impl; [exact Hh|]. intros h Hn. cbn in *.
    apply String.eqb_neq. exact Hn.
  - intros id message. split; reflexivity.
Qed.

Lemma header_get_last_wins_witness :
  header_get "Subject" [("Subject", "first"); ("Subject", "second"); ("subject", "third")]
  = "second".
Proof.
  apply (proj1 (header_get_last_wins "Subject")
           [("Subject", "first")] "second" [("subject", "third")]).
  repeat constructor. cbn. discriminate.
Defined.

(** ** config.py: the allowed origins *)

Lemma split_nonempty (sep : ascii) (s : string) : Text.split sep s <> [].
Proof.
  induction s as [|c s IH]; cbn; [discriminate|].
  destruct (Ascii.eqb c sep); [discriminate|].
  destruct (Text.split sep s); [contradiction|discriminate].
Qed.

Lemma split_length (sep : ascii) (s : string) :
  length (Text.split sep s) = S (Text.count sep s).
Proof.
  induction s as [|c s IH]; cbn; [reflexivity|].
  destruct (Ascii.eqb c sep); cbn; [rewrite IH; reflexivity|].
  pose proof (split_nonempty sep s) as Hne.
  destruct (Text.split sep s); [contradiction|exact IH].
Qed.

Lemma split_pieces (sep : ascii) (s : string) :
  Forall (fun piece => Text.count sep piece = 0%nat /\
                       (Text.has_space s = false -> Text.has_space piece = false))
         (Text.split sep s).
Proof.
  induction s as [|c s IH]; cbn [Text.split].
  - repeat constructor.
  - pose proof (split_nonempty sep s) as Hne.
    destruct (Ascii.eqb c sep) eqn:E.
    + constructor; [split; reflexivity|].
      eapply Forall_impl; [exact IH|]. cbn. intros piece [H1 H2]. split; [exact H1|].
      intros H. apply orb_false_elim in H as [_ H]. auto.
    + destruct (Text.split sep s) as [|piece pieces]; [contradiction|].
      inversion IH as [|? ? [H1 H2] Hrest]; subst.
      constructor.
      * cbn. rewrite E, H1. split; [reflexivity|].
        intros H. apply orb_false_elim in H as [Hc H]. rewrite Hc. auto.
      * eapply Forall_impl; [exact Hrest|]. cbn. intros p [H3 H4]. split; [exact H3|].
        intros H. apply orb_false_elim in H as [_ H]. auto.
Qed.

Lemma join_split (sep : ascii) (s : string) :
  Text.join (String sep EmptyString) (Text.split sep s) = s.
Proof.
  induction s as [|c s IH]; cbn [Text.split]; [reflexivity|].
  pose proof (split_nonempty sep s) as Hne.
  destruct (Ascii.eqb_spec c sep) as [->|_].
  - destruct (Text.split sep s) as [|piece pieces]; [contradiction|].
    cbn [Text.join]. cbn [Text.join] in IH. rewrite IH. reflexivity.
  - destruct (Text.split sep s) as [|piece pieces]; [contradiction|].
    destruct pieces as [|piece' pieces].
    + cbn in *. rewrite IH. reflexivity.
    + cbn [Text.join] in *. rewrite <- IH. reflexivity.
Qed.

Lemma lstrip_head (s : string) :
  match Text.lstrip s with
  | String c _ => Text.is_space c = false
  | EmptyString => True
  end.
Proof.
  induction s as [|c s IH]; cbn; [exact I|].
  destruct (Text.is_space c) eqn:E; [exact IH|exact E].
Qed.

Lemma rstrip_idempotent (s : string) : Text.rstrip (Text.rstrip s) = Text.rstrip s.
Proof.
  induction s as [|c s IH]; cbn [Text.rstrip]; [reflexivity|].
  destruct (Text.rstrip s) as [|a t] eqn:E.
  - destruct (Text.is_space c) eqn:Ec; cbn; [reflexivity|]. rewrite Ec. reflexivity.
  - cbn [Text.rstrip]. cbn [Text.rstrip] in IH. rewrite IH. reflexivity.
Qed.

Lemma strip_stripped (s : string) : Text.stripped (Text.strip s).
Proof.
  unfold Text.stripped, Text.strip. split; [|apply rstrip_idempotent].
  pose proof (lstrip_head s) as Hh.
  destruct (Text.lstrip s) as [|c t]; [reflexivity|].
  cbn [Text.rstrip].
  destruct (Text.rstrip t); cbn; rewrite Hh; cbn; rewrite ?Hh; reflexivity.
Qed.

Lemma lstrip_count (c : ascii) (s : string) :
  (Text.count c (Text.lstrip s) <= Text.count c s)%nat.
Proof.
  induction s as [|a s IH]; cbn; [lia|].
  destruct (Text.is_space a); cbn; lia.
Qed.

Lemma rstrip_count (c : ascii) (s : string) :
  (Text.count c (Text.rstrip s) <= Text.count c s)%nat.
Proof.
  induction s as [|a s IH]; cbn [Text.rstrip]; [cbn; lia|].
  destruct (Text.rstrip s) as [|b t].
  - destruct (Text.is_space a); cbn in *; lia.
  - cbn in *. lia.
Qed.

Lemma strip_without_space (s : string) :
  Text.has_space s = false -> Text.strip s = s.
Proof.
  intros H. unfold Text.strip.
  assert (Hl : Text.lstrip s = s).
  { destruct s as [|c s]; [reflexivity|]. cbn in *.
    apply orb_false_elim in H as [-> _]. reflexivity. }
  rewrite Hl. clear Hl.
  induction s as [|c s IH]; [reflexivity|]. cbn in H.
  apply orb_false_elim in H as [Hc H]. cbn [Text.rstrip]. rewrite (IH H).
  destruct s; [rewrite Hc|]; reflexivity.
Qed.

(** X6. [allowed_origins_list] has one origin per comma of the setting,
    plus one: it is never empty, and the empty setting gives one empty
    origin.  No origin holds a comma or has whitespace at either end;
    and for a setting without whitespace, joining the origins with
    commas gives the setting back. *)
Theorem allowed_origins_list_pieces (ALLOWED_ORIGINS : string) :
  length (allowed_origins_list ALLOWED_ORIGINS) = S (Text.count "," ALLOWED_ORIGINS) /\
  Forall (fun origin => Text.stripped origin /\ Text.count "," origin = 0%nat)
         (allowed_origins_list ALLOWED_ORIGINS) /\
  (Text.has_space ALLOWED_ORIGINS = false ->
   Text.join "," (allowed_origins_list ALLOWED_ORIGINS) = ALLOWED_ORIGINS).
Proof.
  unfold allowed_origins_list. split; [|split].
  - rewrite length_map. apply split_length.
  - apply Forall_map. eapply Forall_impl; [apply split_pieces|].
    cbn. intros piece [Hc _]. split; [apply strip_stripped|].
    unfold Text.strip.
    pose proof (rstrip_count "," (Text.lstrip piece)).
    pose proof (lstrip_count "," piece). lia.
  - intros Hs.
    rewrite (map_ext_Forall Text.strip (fun x => x)).
    + rewrite map_id. apply join_split.
    + eapply Forall_impl; [apply split_pieces|].
      cbn. intros piece [_ Hp]. apply strip_without_space. auto.
Qed.

Lemma allowed_origins_list_pieces_witness :
  allowed_origins_list "" = [""] /\
  allowed_origins_list "https://mail.google.com, chrome-extension://abc ,"
  = ["https://mail.google.com"; "chrome-extension://abc"; ""] /\
  Text.join "," (allowed_origins_list "http://a,http://b") = "http://a,http://b".
Proof.
  split; [reflexivity|]. split; [reflexivity|].
  apply (allowed_origins_list_pieces "http://a,http://b"). reflexivity.
Defined.

(** ** main.py: the categories table at start-up *)

Lemma filter_none {A} (f : A -> bool) (l : list A) :
  (forall x, In x l -> f x = false) -> List.filter f l = [].
Proof.
  induction l as [|a l IH]; cbn; [reflexivity|]. intros H.
  rewrite (H a) by auto. apply IH. auto.
Qed.

(** The rows the loop adds: one for each entry whose name the table
    lacks, in the order of the catalog. *)
Lemma seed_categories_eq (entries : list (string * string)) (table : list Category) :
  forall pending,
    seed_categories entries table pending
    = pending ++ map (fun e => new_category (fst e) (snd e))
                     (List.filter (fun e => negb (has_category table (fst e))) entries).
Proof.
  induction entries as [|[name color] entries IH]; intros pending; cbn [seed_categories].
  - cbn. rewrite app_nil_r. reflexivity.
  - cbn [List.filter fst snd]. unfold has_category at 1.
    destruct (find _ table) as [row|]; cbn [negb].
    + apply IH.
    + rewrite IH. cbn [map fst snd]. rewrite <- app_assoc. reflexivity.
Qed.

Lemma has_category_In (table : list Category) (name : string) :
  has_category table name = true <-> In name (map cat_name table).
Proof.
  unfold has_category. induction table as [|row table IH]; cbn; [split; [discriminate|tauto]|].
  destruct (String.eqb_spec (cat_name row) name) as [->|Hne]; [tauto|].
  rewrite IH. tauto.
Qed.

Lemma startup_event_names (table : list Category) :
  map cat_name (startup_event table)
  = map cat_name table
    ++ List.filter (fun name => negb (has_category table name)) (map fst CATEGORY_COLORS).
Proof.
  unfold startup_event. rewrite seed_categories_eq. cbn [app].
  rewrite map_app. f_equal.
  generalize CATEGORY_COLORS as entries.
  induction entries as [|[name color] entries IH]; [reflexivity|].
  cbn [List.filter map fst snd].
  destruct (has_category table name); cbn [negb map]; [exact IH|].
  rewrite IH. reflexivity.
Qed.

Lemma startup_event_covers (table : list Category) (name : string) :
  In name EmailClassifier.category_names ->
  has_category (startup_event table) name = true.
Proof.
  intros Hin. apply has_category_In. rewrite startup_event_names.
  apply in_or_app. destruct (has_category table name) eqn:E.
  - left. apply has_category_In. exact E.
  - right. apply filter_In. split; [exact Hin|]. rewrite E. reflexivity.
Qed.

(** X7. [startup_event] leaves the rows of the table as they are and
    adds, in the order of the catalog, one row for each category that
    has none, with the colour of the catalog and the label name
    "Cloudidian/" followed by the capitalised category.  Afterwards
    every category of the catalog has a row, names that were distinct
    stay distinct, and a second start-up adds nothing. *)
Theorem startup_event_idempotent (table : list Category) :
  startup_event table
  = table ++ map (fun e => new_category (fst e) (snd e))
                 (List.filter (fun e => negb (has_category table (fst e))) CATEGORY_COLORS) /\
  (forall name, In name EmailClassifier.category_names ->
                exists row, In row (startup_event table) /\ cat_name row = name) /\
  (NoDup (map cat_name table) -> NoDup (map cat_name (startup_event table))) /\
  startup_event (startup_event table) = startup_event table.
Proof.
  split; [|split; [|split]].
  - unfold startup_event. rewrite seed_categories_eq. reflexivity.
  - intros name Hin. apply startup_event_covers with (table := table) in Hin.
    apply has_category_In in Hin. apply in_map_iff in Hin as (row & Hn & Hr). eauto.
  - intros Hnd. rewrite startup_event_names. apply NoDup_app. split; [exact Hnd|]. split.
    + intros name Hin Hadd. apply list_elem_of_In in Hadd. apply filter_In in Hadd as [_ Hadd].
      apply list_elem_of_In, has_category_In in Hin. rewrite Hin in Hadd. discriminate.
    + apply NoDup_ListNoDup, List.NoDup_filter, NoDup_ListNoDup.
      apply (bool_decide_unpack _). vm_compute. exact I.
  - unfold startup_event at 1. rewrite seed_categories_eq. cbn [app].
    replace (List.filter _ CATEGORY_COLORS) with (@nil (string * string));
      [cbn; apply app_nil_r|].
    symmetry. apply filter_none. intros [name color] Hin. cbn [fst].
    rewrite (startup_event_covers table name); [reflexivity|].
    apply (in_map fst) in Hin. exact Hin.
Qed.

Lemma startup_event_idempotent_witness :
  map cat_gmail_label (startup_event [new_category "work" "#123456"])
  = ["Cloudidian/Work"; "Cloudidian/Personal"; "Cloudidian/Promotion"; "Cloudidian/Spam";
     "Cloudidian/Finance"; "Cloudidian/Security"] /\
  NoDup (map cat_name (startup_event [new_category "work" "#123456"])).
Proof.
  split; [reflexivity|].
  apply (startup_event_idempotent [new_category "work" "#123456"]).
  apply (bool_decide_unpack _). vm_compute. exact I.
Defined.

(** ** gmail_service.py: the requests of [get_messages] *)

Section Listing.
Context {Σ : Type} (P : Provider Σ) (settings : Settings).
Implicit Types w : World Σ.

Lemma list_request_pages fuel q N :
  forall ids t, pres (served list_request) (GmailService.pages P fuel q N ids t).
Proof.
  induction fuel as [|fuel IH]; intros ids t; cbn [GmailService.pages].
  - apply pres_diverge.
  - destruct (Z.ltb_spec (Z.of_nat (length ids)) N) as [Hlt|Hge].
    + apply pres_bind; [typeclasses eauto| |intros results].
      * apply served_call. cbn. lia.
      * destruct (nextPageToken results) as [t'|]; [|apply pres_ret; typeclasses eauto].
        destruct (Str.truthy t'); [|apply pres_ret; typeclasses eauto].
        apply pres_bind; [typeclasses eauto| |intros _; apply IH].
        apply served_log. exact I.
    + apply pres_ret. typeclasses eauto.
Qed.

Lemma list_request_get_messages fuel scope max_results :
  pres (served list_request) (GmailService.get_messages P settings fuel scope max_results).
Proof.
  unfold GmailService.get_messages, GmailService.get_messages_once,
    GmailService._build_query.
  apply pres_retrying; [typeclasses eauto| |].
  - intros k. apply served_log. exact I.
  - repeat pres_step; apply list_request_pages.
Qed.

(** X8. [get_messages] only reads: whatever the provider answers, a call
    that returns or raises has left the tables, the session and the
    history of the loop as they were, and every call it made is a list
    request for at least 1 and at most 500 ids, the wait between two
    pages, or the wait before a new attempt. *)
Theorem get_messages_requests fuel scope max_results w r w' :
  GmailService.get_messages P settings fuel scope max_results w = Some (r, w') ->
  served list_request w w'.
Proof. apply list_request_get_messages. Qed.

Lemma get_messages_once_raises fuel scope max_results w q e s1 :
  GmailService._build_query P scope w = Some (Ok q, w) ->
  1 <= effective_limit settings max_results ->
  messages_list P q None (Z.min 500 (effective_limit settings max_results)) (prov w)
    = (Raise e, s1) ->
  GmailService.get_messages_once P settings (S fuel) scope max_results w
  = Some (Raise e,
          with_prov s1
            (with_calls (calls w ++ [CMessagesList q None
                                       (Z.min 500 (effective_limit settings max_results))])
               w)).
Proof.
  intros Hq HN Hl. unfold GmailService.get_messages_once.
  fold (effective_limit settings max_results).
  rewrite (bind_ok _ _ _ _ _ Hq). unfold try_except.
  cbn [GmailService.pages]. change (Z.of_nat (length [])) with 0.
  rewrite Z.sub_0_r.
  destruct (Z.ltb_spec 0 (effective_limit settings max_results)) as [_|Hge]; [|lia].
  unfold bind, call. rewrite Hl. destruct (is_HttpError e); reflexivity.
Qed.

(** X9. [get_messages] retries HTTP errors of the provider and nothing
    else.  An exception of another class raised by the first list
    request leaves the call at once, as it is, after that one request;
    when every list request raises an [HttpError] the call makes three
    attempts, with a wait after the first and the second, and raises a
    [RetryError] that holds the last error. *)
Theorem get_messages_retry_policy fuel scope max_results w :
  1 <= effective_limit settings max_results ->
  let k := Z.min 500 (effective_limit settings max_results) in
  (forall q e s1,
     GmailService._build_query P scope w = Some (Ok q, w) ->
     messages_list P q None k (prov w) = (Raise e, s1) ->
     is_HttpError e = false ->
     exists w',
       GmailService.get_messages P settings (S fuel) scope max_results w
         = Some (Raise e, w') /\
       prov w' = s1 /\ calls w' = calls w ++ [CMessagesList q None k]) /\
  ((forall q t n s, exists st s',
      messages_list P q t n s = (Raise (HttpError st), s')) ->
   exists st w' q1 q2 q3,
     GmailService.get_messages P settings (S fuel) scope max_results w
       = Some (Raise (RetryError (HttpError st)), w') /\
     calls w' = calls w ++ [CMessagesList q1 None k; CBackoff 1;
                            CMessagesList q2 None k; CBackoff 2;
                            CMessagesList q3 None k]).
Proof.
  intros HN k. split.
  - intros q e s1 Hq Hl He.
    unfold GmailService.get_messages, retry. cbn [Nat.sub retrying].
    rewrite (get_messages_once_raises fuel scope max_results w q e s1 Hq HN Hl).
    rewrite He. eexists. split; [reflexivity|]. split; reflexivity.
  - intros Hdown.
    unfold GmailService.get_messages, retry. cbn [Nat.sub retrying].
    destruct (build_query_returns P scope w) as (q1 & Hq1).
    destruct (Hdown q1 None k (prov w)) as (st1 & s1 & Hl1).
    rewrite (get_messages_once_raises fuel scope max_results w q1 _ s1 Hq1 HN Hl1).
    cbn [is_HttpError]. unfold bind at 1. unfold log at 1.
    match goal with |- context [GmailService.get_messages_once _ _ _ _ _ ?w1] =>
      set (w1' := w1) end.
    destruct (build_query_returns P scope w1') as (q2 & Hq2).
    destruct (Hdown q2 None k (prov w1')) as (st2 & s2 & Hl2).
    cbn [retrying].
    rewrite (get_messages_once_raises fuel scope max_results w1' q2 _ s2 Hq2 HN Hl2).
    cbn [is_HttpError]. unfold bind at 1. unfold log at 1.
    match goal with |- context [GmailService.get_messages_once _ _ _ _ _ ?w2] =>
      set (w2' := w2) end.
    destruct (build_query_returns P scope w2') as (q3 & Hq3).
    destruct (Hdown q3 None k (prov w2')) as (st3 & s3 & Hl3).
    rewrite (get_messages_once_raises fuel scope max_results w2' q3 _ s3 Hq3 HN Hl3).
    cbn [is_HttpError].
    exists st3. eexists. exists q1, q2, q3. split; [reflexivity|].
    subst w1' w2'. cbn. rewrite <- !app_assoc. reflexivity.
Qed.

End Listing.

Lemma get_messages_requests_witness :
  served list_request Scenario.three
    (Mock.world_after
       (GmailService.get_messages Mock.provider default_settings 10 UNREAD (Some 2)
          Scenario.three)
       Scenario.three).
Proof.
  apply (get_messages_requests Mock.provider default_settings 10 UNREAD (Some 2)
           Scenario.three (Ok ["m1"; "m2"])).
  reflexivity.
Defined.

Lemma get_messages_retry_policy_witness :
  (exists w',
     GmailService.get_messages (Faulty.listing_raises (OtherException "timed out"))
       default_settings 10 UNREAD None Scenario.three
     = Some (Raise (OtherException "timed out"), w') /\
     calls w' = [CMessagesList "is:unread" None 500]) /\
  (exists w',
     GmailService.get_messages (Faulty.listing_raises (HttpError 503))
       default_settings 10 UNREAD None Scenario.three
     = Some (Raise (RetryError (HttpError 503)), w') /\
     calls w' = [CMessagesList "is:unread" None 500; CBackoff 1;
                 CMessagesList "is:unread" None 500; CBackoff 2;
                 CMessagesList "is:unread" None 500]).
Proof.
  split.
  - destruct (get_messages_retry_policy
                (Faulty.listing_raises (OtherException "timed out"))
                default_settings 9 UNREAD None Scenario.three ltac:(cbn; lia))
      as (H & _).
    destruct (H "is:unread" (OtherException "timed out") (prov Scenario.three)
                eq_refl eq_refl eq_refl) as (w' & E & _ & C).
    exists w'. split; [exact E|exact C].
  - destruct (get_messages_retry_policy (Faulty.listing_raises (HttpError 503))
                default_settings 9 UNREAD None Scenario.three ltac:(cbn; lia))
      as (_ & H).
    eexists. split; reflexivity.
Defined.

(** ** gmail_service.py: the attempts of [create_label] and [apply_label] *)

Section Attempts.
Context {Σ : Type} (P : Provider Σ) (settings : Settings).
Implicit Types w : World Σ.

(** One attempt of [create_label], by the answers of the provider. *)
Lemma create_label_once_eq (name : string) w :
  GmailService.create_label_once P name w =
  let w1 := with_prov (labels_list P (prov w)).2
              (with_calls (calls w ++ [CLabelsList]) w) in
  match (labels_list P (prov w)).1 with
  | Raise e => Some (Raise e, w1)
  | Ok existing_labels =>
      match GmailService.find_label name existing_labels with
      | Some label => Some (Ok (label_id label), w1)
      | None =>
          let w2 := with_prov (labels_create P name (prov w1)).2
                      (with_calls (calls w1 ++ [CLabelsCreate name]) w1) in
          match (labels_create P name (prov w1)).1 with
          | Ok created_label => Some (Ok (label_id created_label), w2)
          | Raise e => Some (Raise e, w2)
          end
      end
  end.
Proof.
  unfold GmailService.create_label_once, try_except, bind, call, ret, raise.
  destruct (labels_list P (prov w)) as [[ls|e] s]; cbn.
  - destruct (GmailService.find_label name ls); [reflexivity|]. cbn.
    destruct (labels_create P name s) as [[l|e] s']; cbn; [reflexivity|].
    destruct (is_HttpError e); reflexivity.
  - destruct (is_HttpError e); reflexivity.
Qed.

(** X10. [create_label] retries every exception, the provider's HTTP
    errors included: an attempt that fails is followed, after a wait, by
    a new attempt that lists the labels again, up to three attempts.
    When the listing fails three times the call raises a [RetryError]
    and no label is created; when a creation request fails and the next
    listing shows a label of that name, the call returns that label
    without a second creation request. *)
Theorem create_label_attempts (name : string) w :
  (forall e1 e2 e3 s1 s2 s3,
     labels_list P (prov w) = (Raise e1, s1) ->
     labels_list P s1 = (Raise e2, s2) ->
     labels_list P s2 = (Raise e3, s3) ->
     exists w',
       GmailService.create_label P name w = Some (Raise (RetryError e3), w') /\
       prov w' = s3 /\
       calls w' = calls w ++ [CLabelsList; CBackoff 1; CLabelsList; CBackoff 2; CLabelsList]) /\
  (forall e1 s1 existing_labels s2 label,
     labels_list P (prov w) = (Raise e1, s1) ->
     labels_list P s1 = (Ok existing_labels, s2) ->
     GmailService.find_label name existing_labels = Some label ->
     exists w',
       GmailService.create_label P name w = Some (Ok (label_id label), w') /\
       prov w' = s2 /\
       calls w' = calls w ++ [CLabelsList; CBackoff 1; CLabelsList]) /\
  (forall before s1 e s2 after s3 label,
     labels_list P (prov w) = (Ok before, s1) ->
     GmailService.find_label name before = None ->
     labels_create P name s1 = (Raise e, s2) ->
     labels_list P s2 = (Ok after, s3) ->
     GmailService.find_label name after = Some label ->
     exists w',
       GmailService.create_label P name w = Some (Ok (label_id label), w') /\
       prov w' = s3 /\
       calls w' = calls w ++ [CLabelsList; CLabelsCreate name; CBackoff 1; CLabelsList]).
Proof.
  unfold GmailService.create_label, retry. cbn [Nat.sub retrying any_Exception].
  split; [|split].
  - intros e1 e2 e3 s1 s2 s3 H1 H2 H3.
    rewrite create_label_once_eq, H1. cbn.
    rewrite create_label_once_eq. cbn. rewrite H2. cbn.
    rewrite create_label_once_eq. cbn. rewrite H3. cbn.
    eexists. split; [reflexivity|]. cbn. rewrite <- !app_assoc. split; reflexivity.
  - intros e1 s1 ls s2 label H1 H2 Hf.
    rewrite create_label_once_eq, H1. cbn.
    rewrite create_label_once_eq. cbn. rewrite H2. cbn. rewrite Hf.
    eexists. split; [reflexivity|]. cbn. rewrite <- !app_assoc. split; reflexivity.
  - intros before s1 e s2 after s3 label H1 Hn Hc H2 Hf.
    rewrite create_label_once_eq, H1. cbn. rewrite Hn, Hc. cbn.
    rewrite create_label_once_eq. cbn. rewrite H2. cbn. rewrite Hf.
    eexists. split; [reflexivity|]. cbn. rewrite <- !app_assoc. split; reflexivity.
Qed.

(** One attempt of [apply_label], by the answer of the provider. *)
Lemma apply_label_once_eq (id label : string) w :
  GmailService.apply_label_once P settings id label w =
  let w1 := with_prov (messages_modify P id [label] [] (prov w)).2
              (with_calls (calls w ++ [CMessagesModify id [label] []]) w) in
  match (messages_modify P id [label] [] (prov w)).1 with
  | Raise e => if is_HttpError e then Some (Ok false, w1) else Some (Raise e, w1)
  | Ok _ =>
      if GMAIL_RATE_LIMIT_PER_SECOND settings =? 0 then Some (Raise ZeroDivisionError, w1)
      else if GMAIL_RATE_LIMIT_PER_SECOND settings <? 0
      then Some (Raise (ValueError "sleep length must be non-negative"), w1)
      else Some (Ok true, with_calls (calls w1 ++ [CSleepRate]) w1)
  end.
Proof.
  unfold GmailService.apply_label_once, GmailService.rate_sleep,
    try_except, bind, call, ret, raise, log.
  destruct (messages_modify P id [label] [] (prov w)) as [[[]|e] s]; cbn.
  - destruct (_ =? 0); [reflexivity|]. destruct (_ <? 0); reflexivity.
  - destruct (is_HttpError e); reflexivity.
Qed.

(** X11. [apply_label] sends one request that adds the label and removes
    none.  When the provider answers it, the call waits for the rate
    limit and returns true; when the provider raises an [HttpError], of
    whatever status, the call returns false at once, with no wait and no
    second attempt. *)
Theorem apply_label_outcomes (id label : string) w :
  0 < GMAIL_RATE_LIMIT_PER_SECOND settings ->
  (forall s1,
     messages_modify P id [label] [] (prov w) = (Ok tt, s1) ->
     exists w',
       GmailService.apply_label P settings id label w = Some (Ok true, w') /\
       prov w' = s1 /\
       calls w' = calls w ++ [CMessagesModify id [label] []; CSleepRate]) /\
  (forall st s1,
     messages_modify P id [label] [] (prov w) = (Raise (HttpError st), s1) ->
     exists w',
       GmailService.apply_label P settings id label w = Some (Ok false, w') /\
       prov w' = s1 /\
       calls w' = calls w ++ [CMessagesModify id [label] []]).
Proof.
  intros Hrate.
  unfold GmailService.apply_label, retry. cbn [Nat.sub retrying any_Exception].
  split.
  - intros s1 H. rewrite apply_label_once_eq, H. cbn.
    destruct (Z.eqb_spec (GMAIL_RATE_LIMIT_PER_SECOND settings) 0) as [E|_]; [lia|].
    destruct (Z.ltb_spec (GMAIL_RATE_LIMIT_PER_SECOND settings) 0) as [E|_]; [lia|].
    eexists. split; [reflexivity|]. cbn. rewrite <- !app_assoc. split; reflexivity.
  - intros st s1 H. rewrite apply_label_once_eq, H. cbn.
    eexists. split; [reflexivity|]. split; reflexivity.
Qed.

(** X12. With a rate limit of 0 requests per second the wait of
    [apply_label] divides by zero after the request has been answered:
    the attempt fails, is made again, and the call raises a [RetryError]
    after three requests that the provider has carried out. *)
Theorem apply_label_zero_rate (id label : string) w :
  GMAIL_RATE_LIMIT_PER_SECOND settings = 0 ->
  forall s1 s2 s3,
    messages_modify P id [label] [] (prov w) = (Ok tt, s1) ->
    messages_modify P id [label] [] s1 = (Ok tt, s2) ->
    messages_modify P id [label] [] s2 = (Ok tt, s3) ->
    exists w',
      GmailService.apply_label P settings id label w
        = Some (Raise (RetryError ZeroDivisionError), w') /\
      prov w' = s3 /\
      calls w' = calls w ++ [CMessagesModify id [label] []; CBackoff 1;
                             CMessagesModify id [label] []; CBackoff 2;
                             CMessagesModify id [label] []].
Proof.
  intros Hrate s1 s2 s3 H1 H2 H3.
  unfold GmailService.apply_label, retry. cbn [Nat.sub retrying any_Exception].
  rewrite apply_label_once_eq, H1, Hrate. cbn.
  rewrite apply_label_once_eq. cbn. rewrite H2, Hrate. cbn.
  rewrite apply_label_once_eq. cbn. rewrite H3, Hrate. cbn.
  eexists. split; [reflexivity|]. cbn. rewrite <- !app_assoc. split; reflexivity.
Qed.

End Attempts.

Lemma create_label_attempts_witness :
  exists w',
    GmailService.create_label (Faulty.labels_raise (HttpError 500)) "Cloudidian/Work"
      Scenario.three
    = Some (Raise (RetryError (HttpError 500)), w') /\
    calls w' = [CLabelsList; CBackoff 1; CLabelsList; CBackoff 2; CLabelsList].
Proof.
  destruct (create_label_attempts (Faulty.labels_raise (HttpError 500)) "Cloudidian/Work"
              Scenario.three) as (H & _).
  destruct (H (HttpError 500) (HttpError 500) (HttpError 500)
              (prov Scenario.three) (prov Scenario.three) (prov Scenario.three)
              eq_refl eq_refl eq_refl) as (w' & E & _ & C).
  exists w'. split; [exact E|exact C].
Defined.

Lemma apply_label_outcomes_witness :
  (exists w',
     GmailService.apply_label Mock.provider default_settings "m1" "Label_t" Scenario.three
     = Some (Ok true, w') /\
     calls w' = [CMessagesModify "m1" ["Label_t"] []; CSleepRate]) /\
  (exists w',
     GmailService.apply_label Mock.provider default_settings "m1" "Label_t" Scenario.vanished
     = Some (Ok false, w') /\
     calls w' = [CMessagesModify "m1" ["Label_t"] []]).
Proof.
  split.
  - destruct (apply_label_outcomes Mock.provider default_settings "m1" "Label_t"
                Scenario.three ltac:(cbn; lia)) as (H & _).
    destruct (H _ eq_refl) as (w' & E & _ & C).
    exists w'. split; [exact E|exact C].
  - destruct (apply_label_outcomes Mock.provider default_settings "m1" "Label_t"
                Scenario.vanished ltac:(cbn; lia)) as (_ & H).
    destruct (H 404 _ eq_refl) as (w' & E & _ & C).
    exists w'. split; [exact E|exact C].
Defined.

Lemma apply_label_zero_rate_witness :
  exists w',
    GmailService.apply_label Mock.provider Faulty.no_rate "m1" "Label_t" Scenario.three
    = Some (Raise (RetryError ZeroDivisionError), w') /\
    Mock.applied (prov w') = [("m1", "Label_t"); ("m1", "Label_t"); ("m1", "Label_t")].
Proof.
  destruct (apply_label_zero_rate Mock.provider Faulty.no_rate "m1" "Label_t"
              Scenario.three eq_refl _ _ _ eq_refl eq_refl eq_refl) as (w' & E & Hp & _).
  exists w'. split; [exact E|]. rewrite Hp. reflexivity.
Defined.

(** ** gmail_service.py: [batch_apply_labels] *)

Section BatchFacts.
Context {Σ : Type} (P : Provider Σ) (settings : Settings).
Implicit Types w : World Σ.

(** The calls of one [apply_label]: one to three requests, and one wait
    for the rate limit exactly when it returns true. *)
Lemma apply_label_calls (id label : string) w r w' :
  GmailService.apply_label P settings id label w = Some (r, w') ->
  exists l, calls w' = calls w ++ l /\
            (1 <= count_calls is_modify l <= 3)%nat /\
            count_calls is_rate_sleep l
              = match r with Ok true => 1%nat | _ => 0%nat end /\
            match r with
            | Raise e => exists e', e = RetryError e' /\ is_HttpError e' = false
            | Ok _ => True
            end.
Proof.
  unfold GmailService.apply_label, retry. cbn [Nat.sub retrying any_Exception].
  assert (Hone : forall w0,
            (exists w1, GmailService.apply_label_once P settings id label w0
                        = Some (Ok false, w1) /\
                        calls w1 = calls w0 ++ [CMessagesModify id [label] []]) \/
            (exists w1, GmailService.apply_label_once P settings id label w0
                        = Some (Ok true, w1) /\
                        calls w1 = calls w0 ++ [CMessagesModify id [label] []; CSleepRate]) \/
            (exists e w1, GmailService.apply_label_once P settings id label w0
                          = Some (Raise e, w1) /\ is_HttpError e = false /\
                          calls w1 = calls w0 ++ [CMessagesModify id [label] []])).
  { intros w0. rewrite apply_label_once_eq. cbn zeta.
    destruct (messages_modify P id [label] [] (prov w0)) as [[[]|e] s]; cbn [fst snd].
    - destruct (_ =? 0); [right; right; eauto 6|].
      destruct (_ <? 0); [right; right; eauto 6|].
      right; left. eexists. split; [reflexivity|]. cbn. rewrite <- app_assoc. reflexivity.
    - destruct (is_HttpError e) eqn:E; [left; eauto|right; right; eauto 6]. }
  destruct (Hone w) as [(w1 & -> & C1)|[(w1 & -> & C1)|(e1 & w1 & -> & N1 & C1)]].
  { intros [= <- <-]. eexists. split; [exact C1|]. cbn. repeat split; lia. }
  { intros [= <- <-]. eexists. split; [exact C1|]. cbn. repeat split; lia. }
  unfold bind at 1. unfold log at 1.
  match goal with |- context [GmailService.apply_label_once _ _ _ _ ?x] => set (w1b := x) end.
  assert (C1b : calls w1b = calls w ++ [CMessagesModify id [label] []; CBackoff 1]).
  { subst w1b. cbn. rewrite C1, <- app_assoc. reflexivity. }
  destruct (Hone w1b) as [(w2 & -> & C2)|[(w2 & -> & C2)|(e2 & w2 & -> & N2 & C2)]].
  { intros [= <- <-]. eexists. split; [rewrite C2, C1b, <- app_assoc; reflexivity|].
    cbn. repeat split; lia. }
  { intros [= <- <-]. eexists. split; [rewrite C2, C1b, <- app_assoc; reflexivity|].
    cbn. repeat split; lia. }
  unfold bind at 1. unfold log at 1.
  match goal with |- context [GmailService.apply_label_once _ _ _ _ ?x] => set (w2b := x) end.
  assert (C2b : calls w2b = calls w ++ [CMessagesModify id [label] []; CBackoff 1;
                                        CMessagesModify id [label] []; CBackoff 2]).
  { subst w2b. cbn. rewrite C2, C1b, <- !app_assoc. reflexivity. }
  destruct (Hone w2b) as [(w3 & -> & C3)|[(w3 & -> & C3)|(e3 & w3 & -> & N3 & C3)]].
  { intros [= <- <-]. eexists. split; [rewrite C3, C2b, <- app_assoc; reflexivity|].
    cbn. repeat split; lia. }
  { intros [= <- <-]. eexists. split; [rewrite C3, C2b, <- app_assoc; reflexivity|].
    cbn. repeat split; lia. }
  intros [= <- <-]. eexists. split; [rewrite C3, C2b, <- app_assoc; reflexivity|].
  cbn. repeat split; try lia. eauto.
Qed.

Lemma batch_apply_labels_from_calls (pairs : list (string * string)) :
  forall count w r w',
    batch_apply_labels_from P settings pairs count w = Some (r, w') ->
    exists l, calls w' = calls w ++ l /\
              match r with
              | Ok n =>
                  n = (count + count_calls is_rate_sleep l)%nat /\
                  (n <= count + length pairs)%nat /\
                  (length pairs <= count_calls is_modify l <= 3 * length pairs)%nat
              | Raise e => exists e', e = RetryError e' /\ is_HttpError e' = false
              end.
Proof.
  induction pairs as [|[id label] pairs IH]; intros count w r w' H;
    cbn [batch_apply_labels_from] in H.
  - injection H as <- <-. exists []. rewrite app_nil_r. cbn. repeat split; lia.
  - apply bind_inv in H as [(success & w1 & Ha & H)|(e & Ha & ->)].
    + apply apply_label_calls in Ha as (l1 & C1 & M1 & S1 & _).
      apply IH in H as (l2 & C2 & Hr).
      exists (l1 ++ l2). split; [rewrite C2, C1, app_assoc; reflexivity|].
      destruct r as [n|e]; [|exact Hr].
      rewrite !count_calls_app. cbn [length].
      destruct Hr as (-> & Hle & Hm). destruct success; lia.
    + apply apply_label_calls in Ha as (l1 & C1 & _ & _ & He).
      exists l1. split; [exact C1|exact He].
Qed.

(** X13. [batch_apply_labels] goes through the pairs in order and
    returns the number of pairs whose label was applied: it is at most
    the number of pairs and equals the number of waits for the rate
    limit; every pair has cost one to three requests, none of which
    removes a label.  It stops at the first pair whose three attempts
    fail with an exception that is not an [HttpError], which leaves as a
    [RetryError]; pairs before it keep their labels. *)
Theorem batch_apply_labels_count (pairs : list (string * string)) w :
  (exists r w', batch_apply_labels P settings pairs w = Some (r, w')) /\
  (forall r w',
     batch_apply_labels P settings pairs w = Some (r, w') ->
     served service_call w w' /\
     exists l, calls w' = calls w ++ l /\
               match r with
               | Ok n =>
                   n = count_calls is_rate_sleep l /\
                   (n <= length pairs)%nat /\
                   (length pairs <= count_calls is_modify l <= 3 * length pairs)%nat
               | Raise e => exists e', e = RetryError e' /\ is_HttpError e' = false
               end).
Proof.
  split.
  - unfold batch_apply_labels. revert w. generalize 0%nat as count.
    change (forall count, returns (batch_apply_labels_from P settings pairs count)).
    induction pairs as [|[id label] pairs IH]; intros count; cbn [batch_apply_labels_from].
    + apply returns_ret.
    + apply returns_bind; [apply returns_apply_label|intros; apply IH].
  - intros r w' H. split.
    + unfold batch_apply_labels in H. revert w r w' H. generalize 0%nat as count.
      change (forall count, pres (served service_call)
                              (batch_apply_labels_from P settings pairs count)).
      induction pairs as [|[id label] pairs IH]; intros count;
        cbn [batch_apply_labels_from].
      * apply pres_ret. typeclasses eauto.
      * apply pres_bind; [typeclasses eauto|apply served_apply_label|intros; apply IH].
    + apply batch_apply_labels_from_calls in H as (l & C & Hr).
      exists l. split; [exact C|]. destruct r; [|exact Hr]. cbn in Hr. exact Hr.
Qed.

End BatchFacts.

Lemma batch_apply_labels_count_witness :
  exists w',
    batch_apply_labels Mock.provider default_settings
      [("m1", "Label_t"); ("gone", "Label_t"); ("m3", "Label_t")] Scenario.three
    = Some (Ok 2%nat, w') /\
    count_calls is_modify (calls w') = 3%nat /\
    Mock.applied (prov w') = [("m1", "Label_t"); ("m3", "Label_t")].
Proof.
  destruct (batch_apply_labels_count Mock.provider default_settings
              [("m1", "Label_t"); ("gone", "Label_t"); ("m3", "Label_t")] Scenario.three)
    as ((r & w' & E) & _).
  exists w'. vm_compute in E. injection E as <- <-. vm_compute. repeat split.
Defined.

(** ** The log of a worker run *)

Section LoggedFacts.
Context {Σ : Type}.
Implicit Types w : World Σ.

Lemma kept_log (ok : Call -> Prop) c : ok c -> pres (kept ok) (log (Σ := Σ) c).
Proof. intros Hc. apply kept_of_served, served_log. exact Hc. Qed.

Lemma kept_call {A} (ok : Call -> Prop) c (f : Σ -> res A * Σ) :
  ok c -> pres (kept ok) (call c f).
Proof. intros Hc. apply kept_of_served, served_call. exact Hc. Qed.

Lemma kept_observe {A} (ok : Call -> Prop) c (f : Σ -> res A * Σ) :
  ok c -> pres (kept ok) (observe c f).
Proof. intros Hc. apply kept_of_served, served_observe. exact Hc. Qed.

Lemma logged_db_commit (ok : Call -> Prop) :
  (forall s, ok (CCommit s)) -> pres (logged ok) (db_commit (Σ := Σ)).
Proof. intros H. apply kept_logged_pres, kept_db_commit. exact H. Qed.

Lemma logged_log (ok : Call -> Prop) c : ok c -> pres (logged ok) (log (Σ := Σ) c).
Proof. intros Hc. apply kept_logged_pres, kept_log. exact Hc. Qed.

(** A computation that raises at once never runs what follows it. *)
Lemma bind_raise_eq {A B} (e : exn) (f : A -> M Σ B) :
  bind (raise e) f = raise e.
Proof. reflexivity. Qed.

Lemma bind_ret_eq {A B} (a : A) (f : A -> M Σ B) : bind (ret a) f = f a.
Proof. reflexivity. Qed.

Lemma logged_get_db_context {A} (ok : Call -> Prop) (body : M Σ A) :
  (forall s, ok (CCommit s)) -> ok CRollback ->
  pres (logged ok) body -> pres (logged ok) (get_db_context body).
Proof.
  intros Hc Hr Hb w r w' H. unfold get_db_context in H.
  destruct (bind session_open (fun _ => body) w) as [[[a|e] w1]|] eqn:E; [| |discriminate].
  - unfold session_open in E. prim in E. apply Hb in E. destruct E as (l & C & F).
    unfold db_commit, session_close in H. prim in H. injection H as <- <-. prim.
    cbn in C. exists (l ++ [CCommit (status ∘ snd <$> sess_job w1)]).
    rewrite C, app_assoc. split; [reflexivity|].
    apply Forall_app. split; [exact F|]. repeat constructor. apply Hc.
  - unfold session_open in E. prim in E. apply Hb in E. destruct E as (l & C & F).
    unfold session_close in H. prim in H. injection H as <- <-. prim.
    cbn in C. exists (l ++ [CRollback]).
    rewrite C, app_assoc. split; [reflexivity|].
    apply Forall_app. split; [exact F|]. repeat constructor. exact Hr.
Qed.

End LoggedFacts.

Section WorkerLog.
Context {Σ : Type} (P : Provider Σ) (settings : Settings).
Implicit Types w : World Σ.

Variable ok : Call -> Prop.
Hypothesis ok_commit : forall s, ok (CCommit s).
Hypothesis ok_rollback : ok CRollback.
Hypothesis ok_resolve : forall u, ok (CResolveCredentials u).

Lemma kept_ok_refresh_google_token uid user :
  ok CCredentialsRefresh ->
  pres (kept ok) (refresh_google_token P uid user).
Proof.
  intros Hr. unfold refresh_google_token.
  apply pres_bind; [typeclasses eauto| |intros _].
  { apply kept_log. apply ok_resolve. }
  repeat pres_step.
  - apply kept_call. exact Hr.
  - apply kept_modify_user.
  - apply kept_db_commit. exact ok_commit.
Qed.

Lemma kept_ok_new_classifier mode :
  (mode <> FAST -> ok CLoadModel) -> pres (kept ok) (new_classifier P mode).
Proof.
  intros Hl. unfold new_classifier.
  destruct mode; repeat pres_step; apply kept_observe, Hl; discriminate.
Qed.

(** The task around its [try] block. *)
Lemma logged_ok_task fuel rid jid uid mode scope :
  (forall user, pres (logged ok) (run_job P settings fuel rid uid user mode scope)) ->
  pres (logged ok) (classify_emails_task P settings fuel rid jid uid mode scope).
Proof.
  intros Hrun. unfold classify_emails_task.
  apply logged_get_db_context; [exact ok_commit|exact ok_rollback|].
  apply pres_bind; [typeclasses eauto| |intros job].
  { intros w r w' [= <- <-]. exists []. cbn. rewrite app_nil_r. split; [reflexivity|constructor]. }
  apply pres_bind; [typeclasses eauto| |intros user].
  { intros w r w' [= <- <-]. exists []. cbn. rewrite app_nil_r. split; [reflexivity|constructor]. }
  destruct job as [job|]; [|apply pres_ret; typeclasses eauto].
  destruct user as [user|]; [|apply pres_ret; typeclasses eauto].
  apply pres_try_except; [typeclasses eauto|apply Hrun|intros e].
  unfold fail_job. repeat pres_step; try apply logged_modify_job.
  apply logged_db_commit. exact ok_commit.
Qed.

End WorkerLog.

(** ** The worker: runs that fail before the loop *)

Section EarlyFailure.
Context {Σ : Type} (P : Provider Σ) (settings : Settings).
Implicit Types w : World Σ.

(** The first three statements of the [try] block. *)
Lemma run_job_start fuel rid uid user mode scope w k j :
  sess_job w = Some (k, j) ->
  exists wa,
    run_job P settings fuel rid uid user mode scope w
      = run_from_credentials P settings fuel uid user mode scope wa /\
    sess_job wa = Some (k, started_job rid j) /\ sess_user wa = sess_user w /\
    trail wa = trail w /\ prov wa = prov w /\
    calls wa = calls w ++ [CCommit (Some RUNNING)].
Proof.
  intros Hj. unfold run_job, run_from_credentials.
  prim. rewrite Hj. prim. unfold db_commit at 1. prim.
  eexists. split; [reflexivity|]. prim. repeat split.
Qed.

Variable ok : Call -> Prop.
Hypothesis ok_commit : forall s, ok (CCommit s).
Hypothesis ok_rollback : ok CRollback.

(** A run whose [try] block raises before the loop, with the job object
    as the first statements left it: the handler records the failure,
    commits it, and the exception goes on. *)
Lemma task_fails_early fuel rid jid uid mode scope w j u (Q : exn -> Prop) :
  db_jobs w !! jid = Some j -> db_users w !! uid = Some u ->
  (forall wa, exists e w1,
     run_from_credentials P settings fuel uid u mode scope wa = Some (Raise e, w1) /\
     kept ok wa w1 /\ Q e) ->
  exists e w',
    classify_emails_task P settings fuel rid jid uid mode scope w = Some (Raise e, w') /\
    Q e /\
    db_jobs w' !! jid = Some (failed_job P rid e j) /\
    trail w' = trail w /\
    exists l, calls w' = calls w ++ CCommit (Some RUNNING) :: l ++
                           [CCommit (Some FAILED); CRollback] /\
              Forall ok l.
Proof.
  intros Hjob Huser Hrest. unfold classify_emails_task, get_db_context.
  unfold session_open at 1, query_job at 1, query_user at 1. prim.
  rewrite Hjob, Huser. prim.
  match goal with
  | |- context [try_except _ _ _ ?w0] => remember w0 as w0' eqn:Ew0
  end.
  assert (J0 : sess_job w0' = Some (jid, j)) by (subst w0'; reflexivity).
  assert (T0 : trail w0' = trail w) by (subst w0'; reflexivity).
  assert (C0 : calls w0' = calls w) by (subst w0'; reflexivity).
  clear Ew0.
  destruct (run_job_start fuel rid uid u mode scope w0' jid j J0)
    as (wa & Erun & Ja & _ & Ta & _ & Ca).
  destruct (Hrest wa) as (e & w1 & Erest & (J1 & T1 & l & C1 & F1) & HQ).
  unfold try_except. rewrite Erun, Erest. cbn [any_Exception].
  unfold fail_job. prim. rewrite J1, Ja. prim. unfold db_commit. prim.
  unfold session_close. prim.
  exists e. eexists. split; [reflexivity|]. prim.
  split; [exact HQ|]. split; [apply lookup_insert_eq|].
  split; [rewrite T1, Ta, T0; reflexivity|].
  exists l. split; [|exact F1].
  rewrite C1, Ca, C0, <- !app_assoc. reflexivity.
Qed.

End EarlyFailure.

Section EarlyFailures.
Context {Σ : Type} (P : Provider Σ) (settings : Settings).
Implicit Types w : World Σ.

Lemma get_google_credentials_absent (user : User) :
  truthy_opt (encrypted_access_token user) = false ->
  get_google_credentials P user = Raise (HTTPException 401 "No Google credentials found").
Proof.
  unfold get_google_credentials, truthy_opt.
  destruct (encrypted_access_token user) as [enc|]; [|reflexivity].
  intros ->. reflexivity.
Qed.

(** X14. A run for a user without a stored access token (none, or an
    empty one) fails at once: after the commit of RUNNING nothing is
    asked of any collaborator, not even a decryption or the construction
    of the service; the job is committed FAILED with one error entry,
    the text of the 401 exception, "401: No Google credentials found",
    its counters untouched, and the exception goes on to the task
    queue. *)
Theorem run_without_credentials fuel rid jid uid mode scope w j u :
  db_jobs w !! jid = Some j -> db_users w !! uid = Some u ->
  truthy_opt (encrypted_access_token u) = false ->
  let e := HTTPException 401 "No Google credentials found" in
  exists w',
    classify_emails_task P settings fuel rid jid uid mode scope w = Some (Raise e, w') /\
    db_jobs w' !! jid = Some (failed_job P rid e j) /\
    errors (failed_job P rid e j)
      = [{| err_message_id := None;
            err_error := "401: No Google credentials found" |}] /\
    total_emails (failed_job P rid e j) = total_emails j /\
    processed_emails (failed_job P rid e j) = processed_emails j /\
    error_count (failed_job P rid e j) = error_count j /\
    prov w' = prov w /\ trail w' = trail w /\
    calls w' = calls w ++ [CCommit (Some RUNNING); CResolveCredentials uid;
                           CCommit (Some FAILED); CRollback].
Proof.
  intros Hjob Huser Hno e.
  unfold classify_emails_task, get_db_context.
  unfold session_open at 1, query_job at 1, query_user at 1. prim.
  rewrite Hjob, Huser. prim.
  unfold try_except, run_job. prim. unfold db_commit at 1. prim.
  unfold refresh_google_token. rewrite (get_google_credentials_absent u Hno). prim.
  cbn [any_Exception]. unfold fail_job. prim. unfold db_commit. prim.
  unfold session_close. prim.
  eexists. split; [reflexivity|]. prim.
  split; [apply lookup_insert_eq|].
  repeat (split; [reflexivity|]).
  rewrite <- !app_assoc. reflexivity.
Qed.

End EarlyFailures.

Lemma run_without_credentials_witness :
  exists w',
    classify_emails_task Mock.provider default_settings 10 "task1" "j1" "u1" "fast" "unread"
      Cases.no_token
    = Some (Raise (HTTPException 401 "No Google credentials found"), w') /\
    status <$> db_jobs w' !! "j1" = Some FAILED /\
    errors <$> db_jobs w' !! "j1"
      = Some [{| err_message_id := None;
                 err_error := "401: No Google credentials found" |}] /\
    calls w' = [CCommit (Some RUNNING); CResolveCredentials "u1";
                CCommit (Some FAILED); CRollback].
Proof.
  destruct (run_without_credentials Mock.provider default_settings 10 "task1" "j1" "u1"
              "fast" "unread" Cases.no_token (new_job "u1" "fast" "unread") Cases.tokenless
              ltac:(vm_compute; reflexivity) ltac:(vm_compute; reflexivity) eq_refl)
    as (w' & E & DB & Herr & _ & _ & _ & _ & _ & C).
  exists w'. split; [exact E|]. split; [rewrite DB; reflexivity|].
  split; [rewrite DB; cbn [fmap option_fmap option_map]; rewrite Herr; reflexivity|exact C].
Defined.

Section SetupFailures.
Context {Σ : Type} (P : Provider Σ) (settings : Settings).
Implicit Types w : World Σ.

(** A step that returns and keeps a relation, by its two outcomes. *)
Lemma returns_pres {A} (R : World Σ -> World Σ -> Prop) (m : M Σ A) w :
  returns m -> pres R m ->
  (exists a w1, m w = Some (Ok a, w1) /\ R w w1) \/
  (exists e w1, m w = Some (Raise e, w1) /\ R w w1).
Proof.
  intros Hr Hp. destruct (Hr w) as ([a|e] & w1 & E); [left|right];
    do 2 eexists; (split; [exact E|]); eapply Hp; exact E.
Qed.

Lemma returns_init credentials : returns (GmailService.init P credentials).
Proof. apply returns_call. Qed.

Variable ok : Call -> Prop.
Hypothesis ok_commit : forall s, ok (CCommit s).
Hypothesis ok_resolve : forall u, ok (CResolveCredentials u).
Hypothesis ok_refresh : ok CCredentialsRefresh.
Hypothesis ok_build : ok CBuildService.
Hypothesis ok_load : ok CLoadModel.

(** The [try] block up to the listing: either it has raised, or the
    mode and the scope are valid and the classifier is built. *)
Lemma run_up_to_listing uid user mode scope wa
    (rest : EmailClassifier.t -> EmailScope -> M Σ unit) :
  (forall md sc classifier w1,
     ModelMode_of mode = Ok md -> EmailScope_of scope = Ok sc -> kept ok wa w1 ->
     exists e w2, rest classifier sc w1 = Some (Raise e, w2) /\ kept ok wa w2) ->
  exists e w2,
    (credentials <- refresh_google_token P uid user ;;
     GmailService.init P credentials ;;
     mode <- lift_res (ModelMode_of mode) ;;
     classifier <- new_classifier P mode ;;
     scope <- lift_res (EmailScope_of scope) ;;
     rest classifier scope) wa = Some (Raise e, w2) /\
    kept ok wa w2.
Proof.
  intros Hrest.
  destruct (returns_pres (kept ok) (refresh_google_token P uid user) wa
              (returns_refresh_google_token P uid user)
              (kept_ok_refresh_google_token P ok ok_commit ok_resolve uid user ok_refresh))
    as [(cred & w1 & E1 & K1)|(e & w1 & E1 & K1)].
  2:{ rewrite (bind_raise _ _ _ _ _ E1). eauto. }
  rewrite (bind_ok _ _ _ _ _ E1).
  destruct (returns_pres (kept ok) (GmailService.init P cred) w1
              (returns_init cred) (kept_call ok _ _ ok_build))
    as [([] & w2 & E2 & K2)|(e & w2 & E2 & K2)].
  2:{ rewrite (bind_raise _ _ _ _ _ E2). exists e, w2. split; [reflexivity|].
      etransitivity; eassumption. }
  rewrite (bind_ok _ _ _ _ _ E2).
  destruct (ModelMode_of mode) as [md|e] eqn:Em; prim.
  2:{ exists e, w2. split; [reflexivity|]. etransitivity; eassumption. }
  destruct (returns_pres (kept ok) (new_classifier P md) w2
              (returns_new_classifier P md)
              (kept_ok_new_classifier P ok md (fun _ => ok_load)))
    as [(classifier & w3 & E3 & K3)|(e & w3 & E3 & K3)].
  2:{ rewrite (bind_raise _ _ _ _ _ E3). exists e, w3. split; [reflexivity|].
      etransitivity; [|exact K3]. etransitivity; eassumption. }
  rewrite (bind_ok _ _ _ _ _ E3).
  assert (K : kept ok wa w3).
  { etransitivity; [|exact K3]. etransitivity; eassumption. }
  destruct (EmailScope_of scope) as [sc|e] eqn:Es; prim.
  2:{ exists e, w3. split; [reflexivity|exact K]. }
  apply (Hrest md sc); [reflexivity|reflexivity|exact K].
Qed.

End SetupFailures.

Section FailedRuns.
Context {Σ : Type} (P : Provider Σ) (settings : Settings).
Implicit Types w : World Σ.

(** X15. A run whose mode or scope string is not a value of its enum
    never looks at the mailbox: whatever the collaborators answer, the
    task raises, the job is committed FAILED with one error entry and
    its counters untouched, and between the commit of RUNNING and the
    commit of FAILED the run has at most resolved the credentials, built
    the service and read the model file; no message is listed, fetched
    or labelled and no label is created. *)
Theorem run_with_invalid_mode_or_scope fuel rid jid uid mode scope w j u :
  db_jobs w !! jid = Some j -> db_users w !! uid = Some u ->
  valid_mode mode = false \/ valid_scope scope = false ->
  exists e w',
    classify_emails_task P settings fuel rid jid uid mode scope w = Some (Raise e, w') /\
    db_jobs w' !! jid = Some (failed_job P rid e j) /\
    status (failed_job P rid e j) = FAILED /\
    total_emails (failed_job P rid e j) = total_emails j /\
    processed_emails (failed_job P rid e j) = processed_emails j /\
    trail w' = trail w /\
    exists l, calls w' = calls w ++ CCommit (Some RUNNING) :: l ++
                           [CCommit (Some FAILED); CRollback] /\
              Forall setup_call l.
Proof.
  intros Hjob Huser Hbad.
  destruct (task_fails_early P settings setup_call fuel rid jid uid mode scope w j u
              (fun _ => True) Hjob Huser) as (e & w' & E & _ & DB & T & L).
  { intros wa. unfold run_from_credentials.
    destruct (run_up_to_listing P setup_call (fun _ => I) (fun _ => I) I I I
                uid u mode scope wa
                (fun classifier scope =>
                   message_ids <- GmailService.get_messages P settings fuel scope
                                    (Some (GMAIL_MAX_RESULTS settings)) ;;
                   process_job P settings classifier message_ids))
      as (e & w2 & E & K).
    - intros md sc classifier w1 Em Es _. exfalso.
      unfold valid_mode, valid_scope in Hbad. rewrite Em, Es in Hbad.
      destruct Hbad; discriminate.
    - exists e, w2. split; [exact E|]. split; [exact K|exact I]. }
  exists e, w'. split; [exact E|]. split; [exact DB|].
  repeat (split; [reflexivity|]). split; [exact T|exact L].
Qed.

(** Under [retrying], a function that raises in every world raises. *)
Lemma retrying_always_raises {A} (retry_on : exn -> bool) (fn : M Σ A) :
  (forall w, exists e w1, fn w = Some (Raise e, w1)) ->
  forall n k w, exists e w1, retrying n k retry_on fn w = Some (Raise e, w1).
Proof.
  intros Hfn. induction n as [|n IH]; intros k w; cbn [retrying];
    destruct (Hfn w) as (e & w1 & ->); destruct (retry_on e); eauto.
  unfold bind, log. apply IH.
Qed.

Lemma get_messages_outage fuel scope max_results :
  1 <= effective_limit settings max_results ->
  (forall q t n s, exists e s', messages_list P q t n s = (Raise e, s')) ->
  forall w, exists e w1,
    GmailService.get_messages P settings (S fuel) scope max_results w = Some (Raise e, w1).
Proof.
  intros HN Hdown. unfold GmailService.get_messages, retry.
  apply retrying_always_raises. intros w.
  destruct (build_query_returns P scope w) as (q & Hq).
  destruct (Hdown q None (Z.min 500 (effective_limit settings max_results)) (prov w))
    as (e & s1 & Hl).
  rewrite (get_messages_once_raises P settings fuel scope max_results w q e s1 Hq HN Hl).
  eauto.
Qed.

Lemma list_request_listing_call c : list_request c -> listing_call c.
Proof. destruct c; cbn; tauto. Qed.

(** X16. When the provider answers every list request with an
    exception, a run (with a positive limit) ends FAILED before any
    label is looked up or created and before any message is fetched:
    between the commit of RUNNING and the commit of FAILED it has only
    set itself up and sent list requests, and [total_emails] is still
    what it was. *)
Theorem run_with_listing_outage fuel rid jid uid mode scope w j u :
  db_jobs w !! jid = Some j -> db_users w !! uid = Some u ->
  1 <= GMAIL_MAX_RESULTS settings ->
  (forall q t n s, exists e s', messages_list P q t n s = (Raise e, s')) ->
  exists e w',
    classify_emails_task P settings (S fuel) rid jid uid mode scope w
      = Some (Raise e, w') /\
    db_jobs w' !! jid = Some (failed_job P rid e j) /\
    status (failed_job P rid e j) = FAILED /\
    total_emails (failed_job P rid e j) = total_emails j /\
    trail w' = trail w /\
    exists l, calls w' = calls w ++ CCommit (Some RUNNING) :: l ++
                           [CCommit (Some FAILED); CRollback] /\
              Forall listing_call l.
Proof.
  intros Hjob Huser HN Hdown.
  assert (HN' : 1 <= effective_limit settings (Some (GMAIL_MAX_RESULTS settings))).
  { cbn. destruct (_ =? 0); exact HN. }
  destruct (task_fails_early P settings listing_call (S fuel) rid jid uid mode scope w j u
              (fun _ => True) Hjob Huser) as (e & w' & E & _ & DB & T & L).
  { intros wa. unfold run_from_credentials.
    destruct (run_up_to_listing P listing_call (fun _ => I) (fun _ => I) I I I
                uid u mode scope wa
                (fun classifier scope =>
                   message_ids <- GmailService.get_messages P settings (S fuel) scope
                                    (Some (GMAIL_MAX_RESULTS settings)) ;;
                   process_job P settings classifier message_ids))
      as (e & w2 & E & K).
    - intros md sc classifier w1 _ _ K1.
      destruct (get_messages_outage fuel sc _ HN' Hdown w1) as (e & w2 & E).
      rewrite (bind_raise _ _ _ _ _ E). exists e, w2. split; [reflexivity|].
      etransitivity; [exact K1|]. apply served_kept.
      eapply served_weaken; [exact list_request_listing_call|].
      eapply list_request_get_messages. exact E.
    - exists e, w2. split; [exact E|]. split; [exact K|exact I]. }
  exists e, w'. split; [exact E|]. split; [exact DB|].
  repeat (split; [reflexivity|]). split; [exact T|exact L].
Qed.

End FailedRuns.

Lemma run_with_invalid_mode_or_scope_witness :
  exists w',
    Mock.run (Mock.world (Mock.mailbox [("m1", Scenario.hello)]) "turbo" "unread")
      "turbo" "unread"
    = Some (Raise (ValueError "'turbo' is not a valid ModelMode"), w') /\
    status (Mock.job_of w') = FAILED /\
    calls w' = [CCommit (Some RUNNING); CResolveCredentials "u1"; CBuildService;
                CCommit (Some FAILED); CRollback].
Proof.
  destruct (run_with_invalid_mode_or_scope Mock.provider default_settings 1000
              "task1" "j1" "u1" "turbo" "unread"
              (Mock.world (Mock.mailbox [("m1", Scenario.hello)]) "turbo" "unread")
              (new_job "u1" "turbo" "unread") Mock.a_user
              ltac:(vm_compute; reflexivity) ltac:(vm_compute; reflexivity)
              (or_introl eq_refl))
    as (e & w' & E & _).
  exists w'. unfold Mock.run. vm_compute in E. injection E as <- <-.
  vm_compute. repeat split.
Defined.

Lemma run_with_listing_outage_witness :
  exists w',
    classify_emails_task (Faulty.listing_raises (HttpError 503)) default_settings 10
      "task1" "j1" "u1" "fast" "unread" Scenario.three
    = Some (Raise (RetryError (HttpError 503)), w') /\
    status (Mock.job_of w') = FAILED /\
    total_emails (Mock.job_of w') = 0%nat /\
    count_calls is_get (calls w') = 0%nat /\
    count_calls is_create (calls w') = 0%nat.
Proof.
  destruct (run_with_listing_outage (Faulty.listing_raises (HttpError 503))
              default_settings 9 "task1" "j1" "u1" "fast" "unread" Scenario.three
              (new_job "u1" "fast" "unread") Mock.a_user
              ltac:(vm_compute; reflexivity) ltac:(vm_compute; reflexivity)
              ltac:(cbn; lia)
              (fun q t n s => ex_intro _ (HttpError 503) (ex_intro _ s eq_refl)))
    as (e & w' & E & _).
  exists w'. vm_compute in E. injection E as <- <-.
  vm_compute. repeat split.
Defined.

(** ** The worker: what a run logs *)

Section RunLog.
Context {Σ : Type} (P : Provider Σ) (settings : Settings).
Implicit Types w : World Σ.

Variable ok : Call -> Prop.
Hypothesis ok_service : forall c, service_call c -> ok c.
Hypothesis ok_commit : forall s, ok (CCommit s).
Hypothesis ok_rollback : ok CRollback.
Hypothesis ok_resolve : forall u, ok (CResolveCredentials u).
Hypothesis ok_refresh : ok CCredentialsRefresh.
Hypothesis ok_build : ok CBuildService.
Hypothesis ok_progress : forall p t c,
  (p mod 10 = 0)%nat -> (1 <= p <= t)%nat -> ok (CUpdateState p t c).

Lemma logged_ok_service {A} (m : M Σ A) :
  pres (served service_call) m -> pres (logged ok) m.
Proof.
  intros H. apply kept_logged_pres, kept_of_served.
  eapply pres_weaken; [|exact H]. intros w w'. apply served_weaken. exact ok_service.
Qed.

Lemma logged_ok_label_message cache id c fr :
  pres (logged ok) (label_message P settings cache id c fr).
Proof.
  unfold label_message.
  repeat first [ pres_step | apply logged_ok_service, served_apply_label
               | apply logged_modify_job | apply logged_note ].
Qed.

Lemma logged_ok_checkpoint idx total fr :
  (idx < total)%nat -> pres (logged ok) (checkpoint P idx total fr).
Proof.
  intros Hlt. unfold checkpoint.
  destruct (Nat.eqb_spec ((idx + 1) mod 10) 0) as [E|_]; [|apply pres_ret; typeclasses eauto].
  apply pres_bind; [typeclasses eauto|apply logged_db_commit; exact ok_commit|intros _].
  apply kept_logged_pres, kept_call. apply ok_progress; [exact E|lia].
Qed.

Lemma logged_ok_process_message classifier cache total idx id fr :
  (idx < total)%nat ->
  pres (logged ok) (process_message P settings classifier cache total idx id fr).
Proof.
  intros Hlt. unfold process_message, classify_and_label, on_exception.
  apply pres_try_except; [typeclasses eauto| |intros e].
  - apply pres_bind; [typeclasses eauto| |intros md].
    + apply logged_ok_service, served_get_message_detail.
    + destruct md;
        repeat first [ pres_step | apply logged_ok_label_message | apply logged_modify_job
                     | apply logged_note | apply logged_ok_checkpoint; exact Hlt ].
  - repeat first [ pres_step | apply logged_modify_job | apply logged_note ].
Qed.

Lemma logged_ok_process_messages classifier cache total ids :
  forall idx fr,
    (idx + length ids <= total)%nat ->
    pres (logged ok) (process_messages P settings classifier cache total idx ids fr).
Proof.
  induction ids as [|id ids IH]; intros idx fr Hle; cbn [process_messages].
  - apply pres_ret. typeclasses eauto.
  - cbn [length] in Hle.
    apply pres_bind; [typeclasses eauto| |intros fr'].
    + apply logged_ok_process_message. lia.
    + apply IH. lia.
Qed.

Lemma logged_ok_create_labels cats :
  forall cache, pres (logged ok) (create_labels P cats cache).
Proof.
  induction cats as [|c cats IH]; intros cache; cbn [create_labels].
  - apply pres_ret. typeclasses eauto.
  - apply pres_bind; [typeclasses eauto| |intros; apply IH].
    apply logged_ok_service, served_create_label.
Qed.

Lemma logged_ok_process_job classifier ids :
  pres (logged ok) (process_job P settings classifier ids).
Proof.
  unfold process_job.
  repeat first [ pres_step | apply logged_modify_job
               | apply logged_db_commit; exact ok_commit
               | apply logged_ok_create_labels
               | apply logged_ok_process_messages; cbn; lia ].
Qed.

Lemma logged_ok_run_job fuel rid uid user mode scope :
  (ModelMode_of mode <> Ok FAST -> ok CLoadModel) ->
  pres (logged ok) (run_job P settings fuel rid uid user mode scope).
Proof.
  intros Hload. unfold run_job.
  apply pres_bind; [typeclasses eauto|apply logged_modify_job|intros _].
  apply pres_bind; [typeclasses eauto|apply logged_modify_job|intros _].
  apply pres_bind; [typeclasses eauto|apply logged_db_commit; exact ok_commit|intros _].
  apply pres_bind; [typeclasses eauto| |intros credentials].
  { apply kept_logged_pres, kept_ok_refresh_google_token; assumption. }
  apply pres_bind; [typeclasses eauto| |intros _].
  { apply kept_logged_pres, kept_call. exact ok_build. }
  destruct (ModelMode_of mode) as [md|e] eqn:Em; cbn [lift_res].
  2:{ rewrite bind_raise_eq. apply pres_raise. typeclasses eauto. }
  rewrite bind_ret_eq.
  apply pres_bind; [typeclasses eauto| |intros classifier].
  { apply kept_logged_pres, kept_ok_new_classifier; [assumption..|].
    intros Hmd. apply Hload. congruence. }
  repeat first [ pres_step | apply logged_ok_process_job
               | apply logged_ok_service, served_get_messages ].
Qed.

Lemma logged_ok_task_run fuel rid jid uid mode scope :
  (ModelMode_of mode <> Ok FAST -> ok CLoadModel) ->
  pres (logged ok) (classify_emails_task P settings fuel rid jid uid mode scope).
Proof.
  intros Hload. apply logged_ok_task; [assumption..|].
  intros user. apply logged_ok_run_job. exact Hload.
Qed.

End RunLog.

Lemma count_calls_none (kind : Call -> bool) (l : list Call) :
  Forall (fun c => kind c = false) l -> count_calls kind l = 0%nat.
Proof. induction 1 as [|c l Hc _ IH]; cbn; [reflexivity|]. rewrite Hc, IH. reflexivity. Qed.

Section RunFacts.
Context {Σ : Type} (P : Provider Σ) (settings : Settings).
Implicit Types w : World Σ.

(** X17. A completed job stores at most 100 error entries while
    [error_count] counts every error of the loop: for a job that was
    fresh when the run began, the number of stored entries is the
    smaller of 100 and [error_count].  A message gives at most one
    error, and one more when the checkpoint after it raises:
    [error_count] is at most the total plus the number of checkpoints
    that raised, hence at most the total in a run whose progress updates
    are all accepted. *)
Theorem completed_job_errors_capped fuel rid jid uid mode scope w w' j u :
  classify_emails_task P settings fuel rid jid uid mode scope w = Some (Ok tt, w') ->
  db_jobs w !! jid = Some j -> db_users w !! uid = Some u -> fresh j ->
  exists j' t,
    db_jobs w' !! jid = Some j' /\ status j' = COMPLETED /\
    length (errors j') = Nat.min 100 (error_count j') /\
    (length (errors j') <= 100)%nat /\
    trail w' = trail w ++ t /\
    (error_count j' <= total_emails j' + interrupted t)%nat /\
    (progress_accepted P -> (error_count j' <= total_emails j')%nat).
Proof.
  intros H Hjob Huser Hfresh.
  destruct (task_effect P settings fuel rid jid uid mode scope w _ w' j u H Hjob Huser)
    as (_ & j' & DB & St & t & T & Tally).
  destruct (Tally Hfresh) as (_ & _ & Hsum & _ & _ & Hlen).
  exists j', t. split; [exact DB|]. split; [exact St|]. split; [exact Hlen|].
  split; [lia|]. split; [exact T|]. split; [lia|].
  intros Hok.
  destruct (uninterrupted_task P settings fuel rid jid uid mode scope Hok _ _ _ H)
    as (t' & T' & Hnone).
  rewrite T in T'. apply app_inv_head in T'. subst t'. lia.
Qed.

(** X18. A run publishes its progress only after every tenth message:
    every [update_state] call of a run carries a processed count that is
    a positive multiple of ten and at most the total (so a run over
    fewer than ten messages publishes none); and a run neither queues
    nor revokes a task. *)
Theorem run_progress_updates fuel rid jid uid mode scope w r w' :
  classify_emails_task P settings fuel rid jid uid mode scope w = Some (r, w') ->
  exists l, calls w' = calls w ++ l /\ Forall progress_call l.
Proof.
  apply (logged_ok_task_run P settings progress_call).
  - intros c Hc. destruct c; cbn in *; tauto.
  - intros; exact I.
  - exact I.
  - intros; exact I.
  - exact I.
  - exact I.
  - intros p t c Hm Hp. cbn. auto.
  - intros; exact I.
Qed.

(** X19. A run in the "fast" mode never reads the model file, whatever
    else happens in it. *)
Theorem fast_run_reads_no_model fuel rid jid uid scope w r w' :
  classify_emails_task P settings fuel rid jid uid "fast" scope w = Some (r, w') ->
  exists l, calls w' = calls w ++ l /\ count_calls is_load l = 0%nat.
Proof.
  intros H.
  destruct (logged_ok_task_run P settings (fun c => is_load c = false)) with
    (fuel := fuel) (rid := rid) (jid := jid) (uid := uid) (mode := "fast") (scope := scope)
    (w := w) (r := r) (w' := w') as (l & C & F); try reflexivity; try exact H.
  - intros c Hc. destruct c; cbn in *; tauto.
  - intros Hne. exfalso. apply Hne. reflexivity.
  - exists l. split; [exact C|]. apply count_calls_none. exact F.
Qed.

End RunFacts.

Lemma completed_job_errors_capped_witness :
  exists j',
    db_jobs Cases.ten_interrupted !! "j1" = Some j' /\
    length (errors j') = 1%nat /\ error_count j' = 1%nat /\
    interrupted (trail Cases.ten_interrupted) = 1%nat.
Proof.
  destruct (completed_job_errors_capped
              (Faulty.backend_down (OtherException "backend down")) default_settings 1000
              "task1" "j1" "u1" "fast" "unread" Cases.ten Cases.ten_interrupted
              (new_job "u1" "fast" "unread") Mock.a_user
              ltac:(vm_compute; reflexivity) ltac:(vm_compute; reflexivity)
              ltac:(vm_compute; reflexivity) ltac:(repeat split))
    as (j' & t & DB & _ & Hlen & _).
  exists j'. split; [exact DB|].
  vm_compute in DB. injection DB as <-. repeat split.
Defined.

Lemma run_progress_updates_witness :
  (exists l, calls Cases.ten_done = calls Cases.ten ++ l /\ Forall progress_call l) /\
  count_calls is_update_state (calls Cases.ten_done) = 1%nat /\
  count_calls is_update_state (calls Scenario.three_done) = 0%nat.
Proof.
  split; [|split; vm_compute; reflexivity].
  apply (run_progress_updates Mock.provider default_settings 1000
           "task1" "j1" "u1" "fast" "unread" Cases.ten (Ok tt) Cases.ten_done).
  vm_compute. reflexivity.
Defined.

Lemma fast_run_reads_no_model_witness :
  exists l, calls Scenario.three_done = calls Scenario.three ++ l /\
            count_calls is_load l = 0%nat.
Proof.
  apply (fast_run_reads_no_model Mock.provider default_settings 1000
           "task1" "j1" "u1" "unread" Scenario.three (Ok tt) Scenario.three_done).
  vm_compute. reflexivity.
Defined.

(** ** auth.py: the credentials of a run *)

Section Credentials.
Context {Σ : Type} (P : Provider Σ).
Implicit Types w : World Σ.

Lemma get_google_credentials_no_expiry (user : User) (credentials : Credentials) :
  get_google_credentials P user = Ok credentials -> expiry credentials = None.
Proof.
  unfold get_google_credentials.
  destruct (encrypted_access_token user) as [enc|]; [|discriminate].
  destruct (Str.truthy enc); [|discriminate].
  destruct (decrypt_token P enc) as [access|e]; [|discriminate].
  destruct (encrypted_refresh_token user) as [encr|]; [|intros [= <-]; reflexivity].
  destruct (Str.truthy encr); [|intros [= <-]; reflexivity].
  destruct (decrypt_token P encr) as [r|e]; [intros [= <-]; reflexivity|discriminate].
Qed.

(** X20. [refresh_google_token] never refreshes.  The credentials it
    builds from the stored tokens carry no expiry, and credentials
    without an expiry are not expired, so the branch that refreshes is
    never taken: the function hands back what [get_google_credentials]
    gives (the stored credentials, or its exception), asks nothing of the
    token endpoint, and writes and commits nothing, whatever the clock
    and whatever [token_expiry] the user row holds. *)
Theorem refresh_google_token_never_refreshes (uid : string) (user : User) w :
  refresh_google_token P uid user w
  = Some (get_google_credentials P user,
          with_calls (calls w ++ [CResolveCredentials uid]) w) /\
  (forall credentials,
     get_google_credentials P user = Ok credentials ->
     expiry credentials = None /\ expired P credentials (prov w) = false).
Proof.
  assert (Hnever : forall credentials s,
            get_google_credentials P user = Ok credentials ->
            expiry credentials = None /\ expired P credentials s = false).
  { intros credentials s Hc. apply get_google_credentials_no_expiry in Hc.
    split; [exact Hc|]. unfold expired. rewrite Hc. reflexivity. }
  split; [|intros credentials; apply Hnever].
  unfold refresh_google_token.
  destruct (get_google_credentials P user) as [credentials|e] eqn:Hc; prim;
    [|reflexivity].
  unfold ask. prim.
  destruct (Hnever credentials (prov w) eq_refl) as (_ & ->). reflexivity.
Qed.

End Credentials.

(** ** The worker: the labels of a second run *)

Section LabelRuns.
Context {Σ : Type} (P : Provider Σ).
Implicit Types w : World Σ.

(** The provider's side of the label store, as for [create_label]. *)
Variable remote_labels : Σ -> list Label.
Hypothesis list_ok : forall s, labels_list P s = (Ok (remote_labels s), s).
Hypothesis create_ok : forall name s,
  exists l s', labels_create P name s = (Ok l, s') /\
               label_name l = name /\
               remote_labels s' = remote_labels s ++ [l].

(** One label: the call returns the id of a label that the store then
    shows under that name, and the store has only grown. *)
Lemma create_label_stored name w :
  exists l w1 more,
    GmailService.create_label P name w = Some (Ok (label_id l), w1) /\
    GmailService.find_label name (remote_labels (prov w1)) = Some l /\
    remote_labels (prov w1) = remote_labels (prov w) ++ more.
Proof.
  destruct (GmailService.find_label name (remote_labels (prov w))) as [l|] eqn:Hf.
  - exists l. do 2 eexists. split; [apply (create_label_found P remote_labels list_ok); exact Hf|].
    cbn. split; [exact Hf|]. symmetry. apply (app_nil_r (remote_labels (prov w))).
  - destruct (create_ok name (prov w)) as (l & s' & Hc & Hn & Hl).
    exists l. do 2 eexists. split; [|split].
    + unfold GmailService.create_label, retry. cbn [Nat.sub retrying].
      unfold GmailService.create_label_once, try_except, bind, call.
      rewrite list_ok, Hf. cbn. rewrite Hc. reflexivity.
    + cbn. rewrite Hl. unfold GmailService.find_label in *.
      rewrite (find_app_None _ _ _ Hf). cbn. rewrite Hn, String.eqb_refl. reflexivity.
    + cbn. exact Hl.
Qed.

Lemma create_labels_stored cats :
  forall cache0 w,
    exists cache w1 more,
      create_labels P cats cache0 w = Some (Ok cache, w1) /\
      remote_labels (prov w1) = remote_labels (prov w) ++ more /\
      (forall c, In c cats ->
                 exists l, cache !! c = Some (label_id l) /\
                           In l (remote_labels (prov w1))) /\
      (forall c, ~ In c cats -> cache !! c = cache0 !! c) /\
      forall w2 more2,
        remote_labels (prov w2) = remote_labels (prov w1) ++ more2 ->
        exists w3 l2,
          create_labels P cats cache0 w2 = Some (Ok cache, w3) /\
          prov w3 = prov w2 /\
          calls w3 = calls w2 ++ l2 /\
          count_calls is_create l2 = 0%nat.
Proof.
  induction cats as [|c cats IH]; intros cache0 w; cbn [create_labels].
  - exists cache0, w, []. split; [reflexivity|]. split; [symmetry; apply app_nil_r|].
    split; [intros c []|]. split; [reflexivity|].
    intros w2 more2 _. exists w2, []. rewrite app_nil_r. repeat split.
  - destruct (create_label_stored ("Cloudidian/" +:+ Str.capitalize c) w)
      as (l & w1 & m1 & E1 & F1 & L1).
    destruct (IH (<[c := label_id l]> cache0) w1) as (cache & w2 & m2 & E2 & L2 & D2 & K2 & R2).
    exists cache, w2, (m1 ++ m2).
    split; [rewrite (bind_ok _ _ _ _ _ E1); exact E2|].
    split; [rewrite L2, L1, app_assoc; reflexivity|].
    split.
    { intros c' [<-|Hin]; [|apply D2; exact Hin].
      destruct (in_dec String.string_dec c cats) as [Hc|Hc]; [apply D2; exact Hc|].
      rewrite (K2 c Hc), lookup_insert_eq. exists l. split; [reflexivity|].
      rewrite L2. apply in_or_app. left.
      unfold GmailService.find_label in F1. apply find_some in F1 as [F1 _]. exact F1. }
    split.
    { intros c' Hn. rewrite K2 by (intros Hin; apply Hn; right; exact Hin).
      apply lookup_insert_ne. intros ->. apply Hn. left. reflexivity. }
    intros w3 more3 Hext.
    assert (E3 : GmailService.create_label P ("Cloudidian/" +:+ Str.capitalize c) w3
                 = Some (Ok (label_id l),
                         with_prov (prov w3) (with_calls (calls w3 ++ [CLabelsList]) w3))).
    { apply (create_label_found P remote_labels list_ok).
      rewrite Hext, L2, <- app_assoc. apply find_app_Some. exact F1. }
    rewrite (bind_ok _ _ _ _ _ E3).
    destruct (R2 (with_prov (prov w3) (with_calls (calls w3 ++ [CLabelsList]) w3)) more3)
      as (w4 & l4 & E4 & P4 & C4 & Z4); [exact Hext|].
    exists w4, (CLabelsList :: l4). split; [exact E4|]. split; [exact P4|].
    split; [rewrite C4; cbn; rewrite <- app_assoc; reflexivity|].
    cbn. exact Z4.
Qed.

(** X21. Against a label store that lists what it holds and keeps what
    is created, the worker's label step succeeds and maps every category
    of the catalog to a label id; run again at any later time, when the
    store holds those labels and maybe more, it creates no label and
    builds the same cache, without changing the store. *)
Theorem create_labels_second_run w :
  exists cache w1,
    create_labels P EmailClassifier.category_names ∅ w = Some (Ok cache, w1) /\
    (forall c, In c EmailClassifier.category_names <-> is_Some (cache !! c)) /\
    forall w2 more,
      remote_labels (prov w2) = remote_labels (prov w1) ++ more ->
      exists w3 l,
        create_labels P EmailClassifier.category_names ∅ w2 = Some (Ok cache, w3) /\
        prov w3 = prov w2 /\
        calls w3 = calls w2 ++ l /\
        count_calls is_create l = 0%nat.
Proof.
  destruct (create_labels_stored EmailClassifier.category_names ∅ w)
    as (cache & w1 & more & E & _ & D & K & R).
  exists cache, w1. split; [exact E|]. split; [|exact R].
  intros c. split; [intros Hin; destruct (D c Hin) as (l & -> & _); eauto|].
  intros Hs. destruct (in_dec String.string_dec c EmailClassifier.category_names) as [Hin|Hn]; [exact Hin|].
  rewrite (K c Hn), lookup_empty in Hs. destruct Hs as [? [=]].
Qed.

End LabelRuns.

Lemma create_labels_second_run_witness :
  exists cache w1 w2 l,
    create_labels Mock.provider EmailClassifier.category_names ∅ Scenario.three
      = Some (Ok cache, w1) /\
    create_labels Mock.provider EmailClassifier.category_names ∅ w1 = Some (Ok cache, w2) /\
    calls w2 = calls w1 ++ l /\
    count_calls is_create l = 0%nat.
Proof.
  destruct (create_labels_second_run Mock.provider Mock.labels
              (fun s => eq_refl)
              (fun name s =>
                 ex_intro _ _ (ex_intro _ _ (conj eq_refl (conj eq_refl eq_refl))))
              Scenario.three)
    as (cache & w1 & E1 & _ & Hnext).
  destruct (Hnext w1 [] (eq_sym (app_nil_r _))) as (w2 & l & E2 & _ & C2 & Z2).
  exists cache, w1, w2, l. split; [exact E1|]. split; [exact E2|]. split; [exact C2|exact Z2].
Defined.

(** ** main.py: the job routes *)

Section RouteFacts.
Context {Σ : Type}.
Implicit Types w : World Σ.

Lemma session_open_bind {A} (m : M Σ A) w :
  bind session_open (fun _ => m) w = m (with_session None None w).
Proof. reflexivity. Qed.

(** X22. [start_classification_job] checks the mode, then the scope,
    and answers 400 without writing or queueing anything when one of
    them is not a value of its enum.  Otherwise it commits the new job
    as PENDING before it queues the task, records the task id in a
    second commit, and answers with the job id, PENDING and the task
    id. *)
Theorem start_classification_job_effect (job_id task_id uid mode scope : string) w :
  (valid_mode mode = false ->
   start_classification_job job_id task_id uid mode scope w
   = Some (Raise (HTTPException 400 "Invalid mode"), with_session None None w)) /\
  (valid_mode mode = true -> valid_scope scope = false ->
   start_classification_job job_id task_id uid mode scope w
   = Some (Raise (HTTPException 400 "Invalid scope"), with_session None None w)) /\
  (valid_mode mode = true -> valid_scope scope = true ->
   exists w',
     start_classification_job job_id task_id uid mode scope w
       = Some (Ok (job_id, PENDING, task_id), w') /\
     db_jobs w' = <[job_id := set_celery_task_id (Some task_id) (new_job uid mode scope)]>
                    (db_jobs w) /\
     db_users w' = db_users w /\ prov w' = prov w /\
     sess_job w' = None /\ sess_user w' = None /\
     calls w' = calls w ++ [CCommit (Some PENDING); CDelay job_id uid mode scope;
                            CCommit (Some PENDING)]).
Proof.
  unfold start_classification_job, get_db, create_job.
  split; [|split].
  - intros ->. reflexivity.
  - intros -> ->. reflexivity.
  - intros -> ->. cbn [negb]. unfold session_open, db_add_job. prim.
    unfold db_commit. prim.
    eexists. split; [reflexivity|]. prim.
    split; [apply insert_insert_eq|].
    repeat (split; [reflexivity|]). rewrite <- !app_assoc. reflexivity.
Qed.

(** X23. A job is visible to its owner only.  For a job id that no job
    of the user carries (there is no such job, or it belongs to another
    user) [get_job_status] and [cancel_job] both answer 404: nothing is
    written, no task is revoked, and the answer does not tell the two
    cases apart.  For the owner [get_job_status] returns the fields of
    the row and writes nothing. *)
Theorem job_routes_owner_only (job_id uid : string) w :
  (not_owned (db_jobs w) job_id uid ->
   get_job_status job_id uid w
   = Some (Raise (HTTPException 404 "Job not found"), with_session None None w) /\
   cancel_job job_id uid w
   = Some (Raise (HTTPException 404 "Job not found"), with_session None None w)) /\
  (forall j,
     db_jobs w !! job_id = Some j -> job_user_id j = uid ->
     get_job_status job_id uid w = Some (Ok (job_view job_id j), with_session None None w)).
Proof.
  split.
  - intros Hno.
    assert (Hq : query_job_of_user job_id uid (with_session None None w)
                 = Some (Ok None, with_session None None w)).
    { unfold query_job_of_user. cbn [db_jobs with_session].
      unfold not_owned in Hno.
      destruct (db_jobs w !! job_id) as [j|]; [|reflexivity].
      destruct (String.eqb_spec (job_user_id j) uid) as [E|_]; [|reflexivity].
      exfalso. exact (Hno j eq_refl E). }
    unfold get_job_status, cancel_job, get_db.
    rewrite !session_open_bind, !(bind_ok _ _ _ _ _ Hq). split; reflexivity.
  - intros j Hj Hu.
    assert (Hq : query_job_of_user job_id uid (with_session None None w)
                 = Some (Ok (Some j),
                         with_session (Some (job_id, j)) None (with_session None None w))).
    { unfold query_job_of_user. cbn [db_jobs with_session sess_user]. rewrite Hj.
      destruct (String.eqb_spec (job_user_id j) uid) as [_|E]; [|contradiction].
      reflexivity. }
    unfold get_job_status, get_db.
    rewrite session_open_bind, (bind_ok _ _ _ _ _ Hq). reflexivity.
Qed.

End RouteFacts.

Lemma start_classification_job_effect_witness :
  exists w',
    start_classification_job (Σ := Mock.State) "j2" "task2" "u1" "balanced" "inbox"
      Scenario.three
    = Some (Ok ("j2", PENDING, "task2"), w') /\
    (status <$> db_jobs w' !! "j2") = Some PENDING /\
    (celery_task_id <$> db_jobs w' !! "j2") = Some (Some "task2").
Proof.
  destruct (start_classification_job_effect (Σ := Mock.State)
              "j2" "task2" "u1" "balanced" "inbox" Scenario.three) as (_ & _ & H).
  destruct (H eq_refl eq_refl) as (w' & E & DB & _).
  exists w'. split; [exact E|]. rewrite DB, lookup_insert_eq. split; reflexivity.
Defined.

Lemma job_routes_owner_only_witness :
  get_job_status (Σ := Mock.State) "j1" "u2" Scenario.three
  = Some (Raise (HTTPException 404 "Job not found"), with_session None None Scenario.three) /\
  cancel_job (Σ := Mock.State) "j1" "u2" Scenario.three
  = Some (Raise (HTTPException 404 "Job not found"), with_session None None Scenario.three).
Proof.
  apply (job_routes_owner_only (Σ := Mock.State) "j1" "u2" Scenario.three).
  intros j Hj. vm_compute in Hj. injection Hj as <-. discriminate.
Defined.

(** ** main.py: the statistics *)

Lemma sum_values_add (m : gmap string nat) (c : string) (n : nat) :
  sum_values (<[c := (default 0%nat (m !! c) + n)%nat]> m) = (sum_values m + n)%nat.
Proof.
  destruct (m !! c) as [k|] eqn:H; cbn [default].
  - rewrite <- (insert_delete_id m c k H) at 2.
    rewrite <- (insert_delete_eq m c (k + n)%nat).
    rewrite !sum_values_insert_fresh by apply lookup_delete_eq. lia.
  - rewrite sum_values_insert_fresh by exact H. lia.
Qed.

(** What the inner loop does to one category and to the sum. *)
Lemma add_counts_spec (counts totals : gmap string nat) :
  (forall c, default 0%nat (add_counts counts totals !! c)
             = (default 0%nat (totals !! c) + default 0%nat (counts !! c))%nat) /\
  sum_values (add_counts counts totals) = (sum_values totals + sum_values counts)%nat.
Proof.
  unfold add_counts.
  induction counts as [|c n counts Hc Hfold IH] using map_first_key_ind.
  - rewrite map_fold_empty. split; [|rewrite sum_values_empty; lia].
    intros c. rewrite lookup_empty. cbn. lia.
  - rewrite map_fold_insert_first_key by assumption.
    destruct IH as [IHl IHs]. split.
    + intros c'. destruct (decide (c' = c)) as [->|Hne].
      * rewrite !lookup_insert_eq. cbn [default]. rewrite IHl, Hc. cbn. lia.
      * rewrite !lookup_insert_ne by congruence. apply IHl.
    + rewrite sum_values_add, IHs, sum_values_insert_fresh by exact Hc. lia.
Qed.

Lemma stats_of_spec (jobs : list Job) :
  total_processed (stats_of jobs) = sum_list (map processed_emails jobs) /\
  (forall c, default 0%nat (stats_category_counts (stats_of jobs) !! c)
             = sum_list (map (fun job => default 0%nat (category_counts job !! c)) jobs)) /\
  sum_values (stats_category_counts (stats_of jobs))
  = sum_list (map (fun job => sum_values (category_counts job)) jobs).
Proof.
  unfold stats_of. cbn [total_processed stats_category_counts].
  assert (Hp : forall acc,
            fold_left (fun acc job => (acc + processed_emails job)%nat) jobs acc
            = (acc + sum_list (map processed_emails jobs))%nat).
  { induction jobs as [|j jobs IH]; intros acc; cbn; [lia|]. rewrite IH. lia. }
  assert (Hc : forall totals,
            (forall c, default 0%nat
                         (fold_left (fun t job => add_counts (category_counts job) t)
                                    jobs totals !! c)
                       = (default 0%nat (totals !! c)
                          + sum_list (map (fun job => default 0%nat (category_counts job !! c))
                                          jobs))%nat) /\
            sum_values (fold_left (fun t job => add_counts (category_counts job) t) jobs totals)
            = (sum_values totals
               + sum_list (map (fun job => sum_values (category_counts job)) jobs))%nat).
  { clear Hp. induction jobs as [|j jobs IH]; intros totals; cbn [fold_left map sum_list].
    - split; [intros c|]; cbn; lia.
    - destruct (IH (add_counts (category_counts j) totals)) as [IHl IHs].
      destruct (add_counts_spec (category_counts j) totals) as [Al As].
      split.
      + intros c. rewrite IHl, Al. cbn. lia.
      + rewrite IHs, As. cbn. lia. }
  rewrite Hp. destruct (Hc ∅) as [Hl Hs]. split; [reflexivity|]. split.
  - intros c. rewrite Hl, lookup_empty. reflexivity.
  - rewrite Hs, sum_values_empty. reflexivity.
Qed.

Section StatsFacts.
Context {Σ : Type}.
Implicit Types w : World Σ.

Variable order_by_completed_at_desc : list Job -> list Job.
Hypothesis order_permutes : forall rows, order_by_completed_at_desc rows ≡ₚ rows.

(** X24. [get_stats] writes nothing and counts only completed jobs of
    the user who asks, at most ten of them, the first ten in the order
    of the query: [total_processed] is the sum of their processed
    counts, the total of each category the sum of their counts for it,
    [last_run_time] the completion time of the first of them and
    [unread_count] always 0.  A user with at most ten completed jobs
    has all of them counted. *)
Theorem get_stats_totals (uid : string) w :
  let jobs := completed_jobs_of order_by_completed_at_desc uid (db_jobs w) in
  get_stats order_by_completed_at_desc uid w
    = Some (Ok (stats_of jobs), with_session None None w) /\
  (length jobs <= 10)%nat /\
  Forall (fun job => job_user_id job = uid /\ status job = COMPLETED /\
                     exists job_id, db_jobs w !! job_id = Some job) jobs /\
  total_processed (stats_of jobs) = sum_list (map processed_emails jobs) /\
  (forall c, default 0%nat (stats_category_counts (stats_of jobs) !! c)
             = sum_list (map (fun job => default 0%nat (category_counts job !! c)) jobs)) /\
  sum_values (stats_category_counts (stats_of jobs))
  = sum_list (map (fun job => sum_values (category_counts job)) jobs) /\
  last_run_time (stats_of jobs) = head jobs ≫= completed_at /\
  unread_count (stats_of jobs) = 0%nat /\
  ((length (completed_rows uid (db_jobs w)) <= 10)%nat ->
   jobs ≡ₚ completed_rows uid (db_jobs w)).
Proof.
  intros jobs. destruct (stats_of_spec jobs) as (Hp & Hc & Hs).
  split; [reflexivity|]. split; [subst jobs; unfold completed_jobs_of; rewrite length_take; lia|].
  split.
  { subst jobs. unfold completed_jobs_of. apply Forall_take.
    rewrite order_permutes. unfold completed_rows.
    apply Forall_forall. intros job Hin.
    apply list_elem_of_filter in Hin as [[Hu Hst] Hin].
    split; [exact Hu|]. split; [exact Hst|].
    apply list_elem_of_In, in_map_iff in Hin as ([k j] & <- & Hin).
    exists k. apply elem_of_map_to_list. apply list_elem_of_In. exact Hin. }
  split; [exact Hp|]. split; [exact Hc|]. split; [exact Hs|].
  split; [destruct jobs; reflexivity|]. split; [reflexivity|].
  intros Hle. subst jobs. unfold completed_jobs_of.
  rewrite take_ge; [apply order_permutes|]. rewrite order_permutes. exact Hle.
Qed.

End StatsFacts.

Lemma insert_newest_permutes (job : Job) (rows : list Job) :
  insert_newest job rows ≡ₚ job :: rows.
Proof.
  induction rows as [|row rows IH]; cbn; [reflexivity|].
  destruct (_ <? _); [reflexivity|]. rewrite IH. apply Permutation_swap.
Qed.

Lemma newest_first_permutes (rows : list Job) : newest_first rows ≡ₚ rows.
Proof.
  induction rows as [|row rows IH]; cbn; [reflexivity|].
  rewrite insert_newest_permutes, IH. reflexivity.
Qed.

Lemma get_stats_totals_witness :
  exists stats,
    get_stats newest_first "u1" Scenario.mixed_done
      = Some (Ok stats, with_session None None Scenario.mixed_done) /\
    total_processed stats = 3%nat /\
    stats_category_counts stats !! "spam" = Some 1%nat /\
    sum_values (stats_category_counts stats) = 3%nat /\
    last_run_time stats = Some 0.
Proof.
  destruct (get_stats_totals (Σ := Mock.State) newest_first newest_first_permutes
              "u1" Scenario.mixed_done) as (E & _).
  eexists. split; [exact E|]. vm_compute. repeat split.
Defined.

(** ** The worker: runs that skip no message *)

#[global] Instance none_skipped_preorder {Σ : Type} : PreOrder (none_skipped (Σ := Σ)).
Proof.
  split.
  - intros w. exists []. rewrite app_nil_r. split; reflexivity.
  - intros w1 w2 w3 (t1 & T1 & S1) (t2 & T2 & S2).
    exists (t1 ++ t2). rewrite T2, T1, app_assoc. split; [reflexivity|].
    rewrite skipped_app, S1, S2. reflexivity.
Qed.

Section NoSkip.
Context {Σ : Type} (P : Provider Σ) (settings : Settings).
Implicit Types w : World Σ.

Lemma none_skipped_kept {A} ok (m : M Σ A) : pres (kept ok) m -> pres none_skipped m.
Proof.
  apply pres_weaken. intros w w' (_ & T & _). exists []. rewrite app_nil_r. auto.
Qed.

Lemma none_skipped_modify_job f : pres none_skipped (modify_job (Σ := Σ) f).
Proof. intros w r w' [= <- <-]. exists []. cbn. rewrite app_nil_r. auto. Qed.

Lemma none_skipped_note id o :
  is_skipped o = false -> pres none_skipped (note (Σ := Σ) id o).
Proof.
  intros Ho w r w' [= <- <-]. exists [(id, o)]. cbn. rewrite Ho. auto.
Qed.

Lemma none_skipped_label_message cache id c fr :
  labels_cached cache -> In c EmailClassifier.category_names ->
  pres none_skipped (label_message P settings cache id c fr).
Proof.
  intros Hcache Hin. unfold label_message.
  destruct (Hcache c Hin) as (label & -> & ->).
  repeat first [ pres_step
               | apply (none_skipped_kept service_call), kept_of_served, served_apply_label
               | apply none_skipped_modify_job
               | apply none_skipped_note; reflexivity ].
Qed.

Lemma none_skipped_process_message classifier cache total idx id fr :
  rules_only classifier -> labels_cached cache ->
  pres none_skipped (process_message P settings classifier cache total idx id fr).
Proof.
  intros Hrules Hcache. unfold process_message, classify_and_label, on_exception.
  apply pres_try_except; [typeclasses eauto| |intros e].
  - apply pres_bind; [typeclasses eauto| |intros md].
    + apply (none_skipped_kept service_call), kept_of_served, served_get_message_detail.
    + destruct md as [d|].
      * destruct (classify_rules_only classifier (d_subject d) (d_body d) (d_from d) Hrules)
          as (c & -> & Hin & _).
        cbn [lift_res]. rewrite bind_ret_eq.
        repeat first [ pres_step | apply none_skipped_label_message; assumption
                     | apply none_skipped_modify_job
                     | apply none_skipped_note; reflexivity
                     | apply (none_skipped_kept removes_nothing), kept_checkpoint ].
      * repeat first [ pres_step | apply none_skipped_modify_job
                     | apply none_skipped_note; reflexivity ].
  - repeat first [ pres_step | apply none_skipped_modify_job
                 | apply none_skipped_note; reflexivity ].
Qed.

Lemma none_skipped_process_messages classifier cache total ids :
  rules_only classifier -> labels_cached cache ->
  forall idx fr,
    pres none_skipped (process_messages P settings classifier cache total idx ids fr).
Proof.
  intros Hrules Hcache.
  induction ids as [|id ids IH]; intros idx fr; cbn [process_messages].
  - apply pres_ret. typeclasses eauto.
  - apply pres_bind; [typeclasses eauto| |intros; apply IH].
    apply none_skipped_process_message; assumption.
Qed.

End NoSkip.

Section FastRuns.
Context {Σ : Type} (P : Provider Σ) (settings : Settings).
Implicit Types w : World Σ.

(** The provider's side of the label store, as for [create_label]; no
    label it holds has an empty id. *)
Variable remote_labels : Σ -> list Label.
Hypothesis list_ok : forall s, labels_list P s = (Ok (remote_labels s), s).
Hypothesis create_ok : forall name s,
  exists l s', labels_create P name s = (Ok l, s') /\
               label_name l = name /\
               remote_labels s' = remote_labels s ++ [l].
Hypothesis ids_ok : forall s l, In l (remote_labels s) -> label_id l <> "".

Lemma create_labels_cached w cache w1 :
  create_labels P EmailClassifier.category_names ∅ w = Some (Ok cache, w1) ->
  labels_cached cache.
Proof.
  intros H.
  destruct (create_labels_stored P remote_labels list_ok create_ok
              EmailClassifier.category_names ∅ w)
    as (cache' & w1' & more & E & _ & D & _).
  rewrite E in H. injection H as <- <-.
  intros c Hin. destruct (D c Hin) as (l & Hl & Hstored).
  exists (label_id l). split; [exact Hl|].
  apply ids_ok in Hstored. destruct (label_id l); [contradiction|reflexivity].
Qed.

(** A bind whose first step establishes a fact about its result. *)
Lemma pres_bind_post {A B} (R : World Σ -> World Σ -> Prop) `{!PreOrder R}
    (Q : A -> Prop) (m : M Σ A) (f : A -> M Σ B) :
  (forall w a w1, m w = Some (Ok a, w1) -> Q a) ->
  pres R m -> (forall a, Q a -> pres R (f a)) -> pres R (bind m f).
Proof.
  intros HQ Hm Hf w r w' H. apply bind_inv in H as [(a & w1 & H1 & H2)|(e & H1 & _)].
  - transitivity w1; [eapply Hm; exact H1|]. eapply Hf; [eapply HQ; exact H1|exact H2].
  - eapply Hm. exact H1.
Qed.

Lemma none_skipped_process_job classifier ids :
  rules_only classifier ->
  pres none_skipped (process_job P settings classifier ids).
Proof.
  intros Hrules. unfold process_job.
  apply pres_bind; [typeclasses eauto|apply none_skipped_modify_job|intros _].
  apply pres_bind; [typeclasses eauto| |intros _].
  { apply (none_skipped_kept removes_nothing), kept_db_commit. intros; exact I. }
  apply (pres_bind_post none_skipped labels_cached).
  - intros w cache w1. apply create_labels_cached.
  - apply (none_skipped_kept removes_nothing), kept_create_labels.
  - intros cache Hcache.
    repeat first [ pres_step | apply none_skipped_modify_job
                 | apply none_skipped_process_messages; assumption
                 | apply (none_skipped_kept removes_nothing), kept_db_commit; intros; exact I ].
Qed.

Lemma none_skipped_run_job fuel rid uid user scope :
  pres none_skipped (run_job P settings fuel rid uid user "fast" scope).
Proof.
  unfold run_job.
  apply pres_bind; [typeclasses eauto|apply none_skipped_modify_job|intros _].
  apply pres_bind; [typeclasses eauto|apply none_skipped_modify_job|intros _].
  apply pres_bind; [typeclasses eauto| |intros _].
  { apply (none_skipped_kept removes_nothing), kept_db_commit. intros; exact I. }
  apply pres_bind; [typeclasses eauto| |intros credentials].
  { apply (none_skipped_kept removes_nothing), kept_refresh_google_token. }
  apply pres_bind; [typeclasses eauto| |intros _].
  { apply (none_skipped_kept removes_nothing), kept_init. }
  change (ModelMode_of "fast") with (Ok FAST). cbn [lift_res]. rewrite bind_ret_eq.
  change (new_classifier P FAST)
    with (ret (Σ := Σ) {| EmailClassifier.mode := FAST; EmailClassifier.model := None |}).
  rewrite bind_ret_eq.
  apply pres_bind; [typeclasses eauto|apply pres_lift_res; typeclasses eauto|intros sc].
  apply pres_bind; [typeclasses eauto| |intros ids].
  { apply (none_skipped_kept service_call), kept_of_served, served_get_messages. }
  apply none_skipped_process_job. left. reflexivity.
Qed.

Lemma none_skipped_same_trail {A} (m : M Σ A) :
  (forall w r w', m w = Some (r, w') -> trail w' = trail w) -> pres none_skipped m.
Proof.
  intros Hm w r w' H. exists []. rewrite app_nil_r. split; [eapply Hm; exact H|reflexivity].
Qed.

Lemma none_skipped_task fuel rid jid uid scope :
  pres none_skipped (classify_emails_task P settings fuel rid jid uid "fast" scope).
Proof.
  assert (Hcommit : pres none_skipped (db_commit (Σ := Σ))).
  { apply (none_skipped_kept removes_nothing), kept_db_commit. intros; exact I. }
  unfold classify_emails_task.
  apply pres_get_db_context; try typeclasses eauto; try exact Hcommit;
    try (apply none_skipped_same_trail; intros w r w' [= <- <-]; reflexivity).
  apply pres_bind; [typeclasses eauto| |intros job].
  { apply none_skipped_same_trail. intros w r w' [= <- <-]. reflexivity. }
  apply pres_bind; [typeclasses eauto| |intros user].
  { apply none_skipped_same_trail. intros w r w' [= <- <-]. reflexivity. }
  destruct job as [job|]; [|apply pres_ret; typeclasses eauto].
  destruct user as [user|]; [|apply pres_ret; typeclasses eauto].
  apply pres_try_except; [typeclasses eauto|apply none_skipped_run_job|intros e].
  unfold fail_job.
  repeat first [ pres_step | apply none_skipped_modify_job | exact Hcommit ].
Qed.

(** X25. A completed run in the "fast" mode against a label store that
    lists what it holds, keeps what is created and gives no label an
    empty id skips no message: every listed message is either counted
    under its category or counted as an error.  For a job that was fresh
    when the run began the category counts and [error_count] add up to
    [total_emails] plus the number of messages whose checkpoint raised
    (each of them is counted by its outcome and once more as an error);
    they add up to [total_emails] when the result backend accepts every
    progress update. *)
Theorem fast_job_counts_every_message fuel rid jid uid scope w w' j u :
  classify_emails_task P settings fuel rid jid uid "fast" scope w = Some (Ok tt, w') ->
  db_jobs w !! jid = Some j -> db_users w !! uid = Some u -> fresh j ->
  exists j' t,
    db_jobs w' !! jid = Some j' /\ status j' = COMPLETED /\
    trail w' = trail w ++ t /\ skipped t = 0%nat /\
    total_emails j' = length (handled t) /\
    (sum_values (category_counts j') + error_count j')%nat
    = (total_emails j' + interrupted t)%nat /\
    (progress_accepted P ->
     (sum_values (category_counts j') + error_count j')%nat = total_emails j').
Proof.
  intros H Hjob Huser Hfresh.
  destruct (task_effect P settings fuel rid jid uid "fast" scope w _ w' j u H Hjob Huser)
    as (_ & j' & DB & St & t & T & Tally).
  destruct (Tally Hfresh) as (_ & Htot & Hsum & _).
  destruct (none_skipped_task fuel rid jid uid scope w _ w' H) as (t' & T' & Hskip).
  assert (t' = t) as -> by (rewrite T in T'; apply app_inv_head in T'; congruence).
  exists j', t. split; [exact DB|]. split; [exact St|]. split; [exact T|].
  split; [exact Hskip|]. split; [exact Htot|]. split; [lia|].
  intros Hok.
  destruct (uninterrupted_task P settings fuel rid jid uid "fast" scope Hok _ _ _ H)
    as (t0 & T0 & Hnone).
  rewrite T in T0. apply app_inv_head in T0. subst t0. lia.
Qed.

End FastRuns.

Lemma tidy_create_ok (name : string) (s : Mock.State) :
  exists l s', labels_create Cases.tidy name s = (Ok l, s') /\
               label_name l = name /\
               Cases.with_id (Mock.labels s') = Cases.with_id (Mock.labels s) ++ [l].
Proof.
  do 2 eexists. split; [reflexivity|]. split; [reflexivity|].
  cbn. unfold Cases.with_id. rewrite List.filter_app. reflexivity.
Qed.

Lemma tidy_ids_ok (s : Mock.State) (l : Label) :
  In l (Cases.with_id (Mock.labels s)) -> label_id l <> "".
Proof.
  unfold Cases.with_id. intros Hin. apply filter_In in Hin as [_ Hid].
  intros E. rewrite E in Hid. discriminate.
Qed.

Lemma fast_job_counts_every_message_witness :
  exists j' t,
    db_jobs Cases.mixed_tidy_done !! "j1" = Some j' /\
    trail Cases.mixed_tidy_done = t /\ skipped t = 0%nat /\
    (sum_values (category_counts j') + error_count j')%nat = total_emails j'.
Proof.
  destruct (fast_job_counts_every_message Cases.tidy default_settings
              (fun s => Cases.with_id (Mock.labels s))
              (fun s => eq_refl) tidy_create_ok tidy_ids_ok
              1000%nat "task1" "j1" "u1" "unread" Scenario.mixed Cases.mixed_tidy_done
              (new_job "u1" "fast" "unread") Mock.a_user
              ltac:(vm_compute; reflexivity) ltac:(vm_compute; reflexivity)
              ltac:(vm_compute; reflexivity) ltac:(repeat split))
    as (j' & t & DB & _ & T & Hs & _ & _ & Hsum).
  exists j', t. split; [exact DB|]. split; [exact T|]. split; [exact Hs|].
  apply Hsum. intros processed total counts s. reflexivity.
Defined.

(** ** The model file, and limits below one *)

Section ModelFile.
Context {Σ : Type} (P : Provider Σ) (settings : Settings).
Implicit Types w : World Σ.

(** X26. A classifier for the FAST mode is built without reading the
    model file.  In the other modes the file is read once: a model that
    loads is kept; a missing file ([FileNotFoundError]) is not an error
    and gives a classifier without model, which classifies by the rules
    alone; any other exception of the load leaves the constructor, and
    with it the run. *)
Theorem new_classifier_outcomes (mode : ModelMode) w :
  new_classifier P FAST w
    = Some (Ok {| EmailClassifier.mode := FAST; EmailClassifier.model := None |}, w) /\
  (mode <> FAST ->
   (forall m s1,
      joblib_load P (prov w) = (Ok m, s1) ->
      new_classifier P mode w
      = Some (Ok {| EmailClassifier.mode := mode; EmailClassifier.model := Some m |},
              with_prov s1 (with_calls (calls w ++ [CLoadModel]) w))) /\
   (forall s1,
      joblib_load P (prov w) = (Raise FileNotFoundError, s1) ->
      new_classifier P mode w
      = Some (Ok {| EmailClassifier.mode := mode; EmailClassifier.model := None |},
              with_prov s1 (with_calls (calls w ++ [CLoadModel]) w)) /\
      rules_only {| EmailClassifier.mode := mode; EmailClassifier.model := None |}) /\
   (forall e s1,
      joblib_load P (prov w) = (Raise e, s1) -> e <> FileNotFoundError ->
      new_classifier P mode w
      = Some (Raise e, with_prov s1 (with_calls (calls w ++ [CLoadModel]) w)))).
Proof.
  split; [reflexivity|]. intros Hmode.
  assert (Hnc : new_classifier P mode
                = (loaded <- observe CLoadModel (joblib_load P) ;;
                   lift_res (EmailClassifier.init loaded mode))).
  { destruct mode; [contradiction|reflexivity|reflexivity]. }
  rewrite Hnc. unfold bind, observe.
  split; [|split].
  - intros m s1 ->. destruct mode; [contradiction|reflexivity|reflexivity].
  - intros s1 ->. split; [|right; reflexivity].
    destruct mode; [contradiction|reflexivity|reflexivity].
  - intros e s1 -> He.
    destruct mode; [contradiction| |]; destruct e; try reflexivity; contradiction.
Qed.

(** X27. A limit below one asks nothing of the provider: when the limit
    [get_messages] works with (the argument, or the configured maximum
    in place of 0 or none) is zero or negative, the call returns the
    empty list at once and the world is as it was. *)
Theorem get_messages_without_request fuel scope max_results w :
  effective_limit settings max_results <= 0 ->
  GmailService.get_messages P settings (S fuel) scope max_results w = Some (Ok [], w).
Proof.
  intros Hle. unfold GmailService.get_messages, retry. cbn [Nat.sub retrying].
  unfold GmailService.get_messages_once. fold (effective_limit settings max_results).
  destruct (build_query_returns P scope w) as (q & Hq).
  rewrite (bind_ok _ _ _ _ _ Hq). unfold try_except.
  cbn [GmailService.pages]. change (Z.of_nat (length [])) with 0.
  destruct (Z.ltb_spec 0 (effective_limit settings max_results)) as [Hlt|_]; [lia|].
  cbn [bind ret]. unfold slice_to.
  destruct (effective_limit settings max_results <? 0); rewrite take_nil; reflexivity.
Qed.

End ModelFile.

Lemma new_classifier_outcomes_witness :
  exists w',
    new_classifier Mock.provider BALANCED Scenario.three
    = Some (Ok {| EmailClassifier.mode := BALANCED; EmailClassifier.model := None |}, w') /\
    calls w' = [CLoadModel].
Proof.
  destruct (new_classifier_outcomes Mock.provider BALANCED Scenario.three) as (_ & H).
  destruct (H ltac:(discriminate)) as (_ & Hmissing & _).
  destruct (Hmissing (prov Scenario.three) eq_refl) as (E & _).
  eexists. split; [exact E|reflexivity].
Defined.

Lemma get_messages_without_request_witness :
  GmailService.get_messages Mock.provider default_settings 10 UNREAD (Some (-5))
    Scenario.three
  = Some (Ok [], Scenario.three).
Proof.
  apply (get_messages_without_request Mock.provider default_settings 9 UNREAD (Some (-5))
           Scenario.three).
  cbn. lia.
Defined.
